(** * pdf-processor: adaptive structuring engine and project field resolver

    A shallow embedding of [adaptive_pdf_to_json.py] and
    [extract_project_data.py], with the properties of their
    specification stated and settled against it, followed by the
    readers that feed the assembler and by the batch drivers.

    Conventions of the embedding.
    - Python [str] is a list of characters.  Text is ASCII: on ASCII
      text the character classes below ([\s], [\w], [\d], [str.strip],
      [str.lower], [str.isupper]) are exactly Python's.  The two
      non-ASCII glyphs the source tests for (the arrow and the bullet)
      appear as their UTF-8 byte sequences.
    - A Python [dict] is an association list in insertion order, which
      is the order Python iterates it in; assignment to an existing key
      keeps the key's position.
    - A Python [float] is the rational number it denotes; comparisons
      are exact.  NaN and the infinities are left out: the sources only
      compare floats, and every range test on those is false.
      [float(s)] on a decimal literal and the midpoint [(a + b) / 2]
      are computed exactly; every concrete input below is a dyadic
      rational, on which IEEE double arithmetic is exact too.
    - [int(s)] on a run of digits is the number the digits denote.
      CPython since 3.11 raises [ValueError] on a run of more than
      4300 digits (its default limit); such runs lie outside the
      embedding, and a theorem that asserts a returned integer carries
      the bound, while the ones that speak of the exceptions raised
      only say that they are [ValueError].
    - A raised exception is the [Raise] case of the [outcome] type. *)

From Stdlib Require Import List String Ascii Bool Arith ZArith QArith Lia.
From Stdlib Require Import DecimalString.
From Stdlib Require Import Permutation Sorted.
Import ListNotations.

Set Implicit Arguments.

(** ** Python strings *)

Module PyStr.

Definition str := list ascii.

(** A string literal. *)
Definition lit (s : string) : str := list_ascii_of_string s.

Definition code (c : ascii) : nat := nat_of_ascii c.

Definition chr_eqb (a b : ascii) : bool := Ascii.eqb a b.

(** [str.isspace] and the regex class [\s] on ASCII: TAB, LF, VT, FF,
    CR, the four separators FS GS RS US, and the space. *)
Definition is_space (c : ascii) : bool :=
  let n := code c in
  ((9 <=? n) && (n <=? 13)) || ((28 <=? n) && (n <=? 31)) || (n =? 32).

Definition is_digit (c : ascii) : bool :=
  let n := code c in (48 <=? n) && (n <=? 57).

Definition is_upper (c : ascii) : bool :=
  let n := code c in (65 <=? n) && (n <=? 90).

Definition is_lower (c : ascii) : bool :=
  let n := code c in (97 <=? n) && (n <=? 122).

Definition underscore : ascii := "_"%char.
Definition space : ascii := " "%char.
Definition newline : ascii := ascii_of_nat 10.
Definition tab : ascii := ascii_of_nat 9.

(** The regex class [\w]: letters, digits and the underscore. *)
Definition is_word (c : ascii) : bool :=
  is_upper c || is_lower c || is_digit c || chr_eqb c underscore.

Definition lower_chr (c : ascii) : ascii :=
  if is_upper c then ascii_of_nat (code c + 32) else c.

(** [s.lower()] *)
Definition lower (s : str) : str := map lower_chr s.

(** [s.lstrip(chars)] for the characters satisfying [p] *)
Fixpoint lstrip_by (p : ascii -> bool) (s : str) : str :=
  match s with
  | [] => []
  | c :: s' => if p c then lstrip_by p s' else s
  end.

Definition rstrip_by (p : ascii -> bool) (s : str) : str :=
  rev (lstrip_by p (rev s)).

Definition strip_by (p : ascii -> bool) (s : str) : str :=
  rstrip_by p (lstrip_by p s).

(** [s.strip()] *)
Definition strip (s : str) : str := strip_by is_space s.

(** [s.replace(a, b)] for single characters [a], [b] *)
Definition replace_chr (a b : ascii) (s : str) : str :=
  map (fun c => if chr_eqb c a then b else c) s.

(** [s.replace(a, '')] for a single character [a] *)
Definition remove_chr (a : ascii) (s : str) : str :=
  filter (fun c => negb (chr_eqb c a)) s.

Fixpoint str_eqb (s t : str) : bool :=
  match s, t with
  | [], [] => true
  | a :: s', b :: t' => chr_eqb a b && str_eqb s' t'
  | _, _ => false
  end.

(** [s.startswith(p)] *)
Fixpoint startswith (p s : str) : bool :=
  match p, s with
  | [], _ => true
  | a :: p', b :: s' => chr_eqb a b && startswith p' s'
  | _ :: _, [] => false
  end.

(** [p in s] *)
Fixpoint contains (p s : str) : bool :=
  startswith p s ||
  match s with
  | [] => false
  | _ :: s' => contains p s'
  end.

(** [s.isupper()]: at least one cased character and no lower-case one. *)
Definition isupper (s : str) : bool :=
  existsb is_upper s && negb (existsb is_lower s).

(** [sep.join(parts)] *)
Fixpoint join (sep : str) (parts : list str) : str :=
  match parts with
  | [] => []
  | [p] => p
  | p :: rest => p ++ sep ++ join sep rest
  end.

(** The part of [s] before the first occurrence of the non-empty [p]
    ([s.split(p)[0]]), and the part after the last one
    ([s.split(p)[-1]]). *)
Fixpoint before_first (p s : str) : str :=
  match s with
  | [] => []
  | c :: s' => if startswith p s then [] else c :: before_first p s'
  end.

Fixpoint after_last_aux (p s : str) (best : str) : str :=
  match s with
  | [] => best
  | _ :: s' =>
      if startswith p s
      then after_last_aux p s' (skipn (List.length p) s)
      else after_last_aux p s' best
  end.

(** On overlapping occurrences Python splits left to right without
    overlap; the markers split on below cannot overlap themselves. *)
Definition after_last (p s : str) : str := after_last_aux p s s.

(** Collapse every maximal run of characters satisfying [p] into the
    single character [r]: [re.sub(r'[p]+', r, s)]. *)
Fixpoint collapse_from (p : ascii -> bool) (r : ascii) (in_run : bool)
    (s : str) : str :=
  match s with
  | [] => []
  | c :: s' =>
      if p c
      then (if in_run then collapse_from p r true s'
            else r :: collapse_from p r true s')
      else c :: collapse_from p r false s'
  end.

Definition collapse_runs (p : ascii -> bool) (r : ascii) (s : str) : str :=
  collapse_from p r false s.

End PyStr.

(** ** Exceptions *)

Inductive exn : Type :=
| ValueError
| AttributeError.

Inductive outcome (A : Type) : Type :=
| Ok (a : A)
| Raise (e : exn).

Arguments Ok {A} a.
Arguments Raise {A} e.

Definition bind {A B : Type} (c : outcome A) (f : A -> outcome B) : outcome B :=
  match c with
  | Ok a => f a
  | Raise e => Raise e
  end.

Notation "x <- c ;; k" := (bind c (fun x => k))
  (at level 61, c at next level, right associativity).

(** ** Regular expressions, with the backtracking semantics of [re]

    [re] explores alternatives in priority order: the left branch of
    [|] before the right, one more iteration of a greedy repetition
    before stopping, stopping before iterating for a lazy one.  The
    first complete match in that order is the match.  The matcher is in
    continuation-passing style: [k] is what remains to be matched. *)

Module Regex.
Import PyStr.

Inductive regex : Type :=
| Eps
| Cls (p : ascii -> bool)        (* one character of a class *)
| Cat (r1 r2 : regex)
| Alt (r1 r2 : regex)
| Star (lazy : bool) (r : regex) (* r* and r*? *)
| Grp (n : nat) (r : regex)      (* capturing group number n *)
| Bol (multiline : bool)         (* ^ *)
| Eol (multiline : bool)         (* $ *)
| Ahead (r : regex).             (* (?=r) *)

Definition caps := list (nat * str).

Record mres : Type := MRes {
  m_prev : option ascii;  (* the character before the end of the match *)
  m_rest : str;           (* the text after the match *)
  m_caps : caps           (* the groups that took part *)
}.

Definition orelse {R : Type} (a : option R) (b : unit -> option R)
  : option R :=
  match a with
  | Some x => Some x
  | None => b tt
  end.

Definition at_bol (multiline : bool) (prev : option ascii) : bool :=
  match prev with
  | None => true
  | Some c => multiline && chr_eqb c newline
  end.

Definition at_eol (multiline : bool) (s : str) : bool :=
  match s with
  | [] => true
  | c :: s' =>
      chr_eqb c newline &&
      (multiline || match s' with [] => true | _ => false end)
  end.

(** [fuel] bounds the iterations of a repetition; an iteration has to
    consume a character, so the length of the text is enough. *)
Fixpoint run (R : Type) (r : regex) (fuel : nat) (prev : option ascii)
    (s : str) (cs : caps) (k : option ascii -> str -> caps -> option R)
    {struct r} : option R :=
  match r with
  | Eps => k prev s cs
  | Cls p =>
      match s with
      | c :: s' => if p c then k (Some c) s' cs else None
      | [] => None
      end
  | Cat r1 r2 =>
      run r1 fuel prev s cs (fun prev' s' cs' => run r2 fuel prev' s' cs' k)
  | Alt r1 r2 =>
      orelse (run r1 fuel prev s cs k) (fun _ => run r2 fuel prev s cs k)
  | Star lazy r' =>
      (fix star (n : nat) (prev : option ascii) (s : str) (cs : caps)
         {struct n} : option R :=
         let more (_ : unit) :=
           match n with
           | O => None
           | S n' =>
               run r' n prev s cs
                 (fun prev' s' cs' =>
                    if List.length s' <? List.length s
                    then star n' prev' s' cs' else None)
           end in
         if lazy
         then orelse (k prev s cs) more
         else orelse (more tt) (fun _ => k prev s cs)) fuel prev s cs
  | Grp i r' =>
      run r' fuel prev s cs
        (fun prev' s' cs' =>
           k prev' s'
             ((i, firstn (List.length s - List.length s') s) :: cs'))
  | Bol ml => if at_bol ml prev then k prev s cs else None
  | Eol ml => if at_eol ml s then k prev s cs else None
  | Ahead r' =>
      match run r' fuel prev s cs (fun _ _ _ => Some tt) with
      | Some _ => k prev s cs
      | None => None
      end
  end.

Definition run_at (r : regex) (prev : option ascii) (s : str) : option mres :=
  run r (List.length s) prev s []
    (fun prev' s' cs' => Some (MRes prev' s' cs')).

(** [re.match(r, s)] *)
Definition rmatch (r : regex) (s : str) : option mres := run_at r None s.

(** [re.search(r, s)]: the first position, left to right, with a match;
    the second component is the text from that position on. *)
Fixpoint search_from (r : regex) (prev : option ascii) (s : str)
  : option (mres * str) :=
  match run_at r prev s with
  | Some x => Some (x, s)
  | None =>
      match s with
      | [] => None
      | c :: s' => search_from r (Some c) s'
      end
  end.

Definition search (r : regex) (s : str) : option mres :=
  option_map fst (search_from r None s).

(** [m.group(i)]; the empty string stands for a group that took no part
    (every group read below takes part in every match). *)
Fixpoint lookup_cap (i : nat) (cs : caps) : str :=
  match cs with
  | [] => []
  | (j, t) :: cs' => if i =? j then t else lookup_cap i cs'
  end.

Definition group (i : nat) (x : mres) : str := lookup_cap i (m_caps x).

(** [re.findall(r, s)] for a pattern with two groups: scanning resumes
    where the previous match ended (one character further after an
    empty match). *)
Fixpoint findall2_from (fuel : nat) (r : regex) (prev : option ascii)
    (s : str) : list (str * str) :=
  match fuel with
  | O => []
  | S fuel' =>
      match search_from r prev s with
      | None => []
      | Some (x, from) =>
          (group 1 x, group 2 x) ::
          (if List.length (m_rest x) <? List.length from
           then findall2_from fuel' r (m_prev x) (m_rest x)
           else match m_rest x with
                | [] => []
                | c :: s' => findall2_from fuel' r (Some c) s'
                end)
      end
  end.

Definition findall2 (r : regex) (s : str) : list (str * str) :=
  findall2_from (S (List.length s)) r None s.

(** Pattern combinators. *)
Definition Plus (r : regex) : regex := Cat r (Star false r).
Definition PlusLazy (r : regex) : regex := Cat r (Star true r).
Definition Opt (r : regex) : regex := Alt r Eps.

Fixpoint Times (n : nat) (r : regex) : regex :=
  match n with
  | O => Eps
  | S n' => Cat r (Times n' r)
  end.

Fixpoint Lit (s : str) : regex :=
  match s with
  | [] => Eps
  | c :: s' => Cat (Cls (chr_eqb c)) (Lit s')
  end.

(** A literal under [re.IGNORECASE]. *)
Fixpoint LitI (s : str) : regex :=
  match s with
  | [] => Eps
  | c :: s' =>
      Cat (Cls (fun d => chr_eqb (lower_chr d) (lower_chr c))) (LitI s')
  end.

Definition one_of (s : str) (c : ascii) : bool := existsb (chr_eqb c) s.

(** [\d], [\s], [.] (without DOTALL) and a few classes of the sources. *)
Definition Digit : regex := Cls is_digit.
Definition Space : regex := Cls is_space.
Definition Dot : regex := Cls (fun c => negb (chr_eqb c newline)).
Definition AnyChr : regex := Cls (fun _ => true).
Definition colon_or_space (c : ascii) : bool :=
  chr_eqb c ":"%char || is_space c.
Definition digit_or_dot (c : ascii) : bool :=
  is_digit c || chr_eqb c "."%char.

End Regex.

(** ** Python dictionaries, in insertion order *)

Module Dict.
Import PyStr.

Definition dict (V : Type) := list (str * V).

Fixpoint get {V : Type} (k : str) (d : dict V) : option V :=
  match d with
  | [] => None
  | (k', v) :: d' => if str_eqb k k' then Some v else get k d'
  end.

(** [k in d] *)
Definition mem {V : Type} (k : str) (d : dict V) : bool :=
  match get k d with
  | Some _ => true
  | None => false
  end.

(** [d[k] = v]: an existing key keeps its position, a new one goes last. *)
Fixpoint set {V : Type} (k : str) (v : V) (d : dict V) : dict V :=
  match d with
  | [] => [(k, v)]
  | (k', v') :: d' =>
      if str_eqb k k' then (k', v) :: d' else (k', v') :: set k v d'
  end.

(** [d.update(e)] *)
Definition update {V : Type} (d e : dict V) : dict V :=
  fold_left (fun acc kv => set (fst kv) (snd kv) acc) e d.


(** Apply [f] to the value stored under [k], when there is one. *)
Fixpoint modify {V : Type} (k : str) (f : V -> V) (d : dict V) : dict V :=
  match d with
  | [] => []
  | (k', v) :: d' =>
      if str_eqb k k' then (k', f v) :: d' else (k', v) :: modify k f d'
  end.

Definition keys {V : Type} (d : dict V) : list str := map fst d.

End Dict.

(** ** adaptive_pdf_to_json.py *)

Module Adaptive.
Import PyStr Regex Dict.

Definition is_nil {A : Type} (l : list A) : bool :=
  match l with
  | [] => true
  | _ => false
  end.

(** The key clean-up shared by both patterns of [extract_key_value_pairs]:
    [re.sub(r'[^\w\s]', '', key).strip().lower().replace(' ', '_')]. *)
Definition clean_key (key : str) : str :=
  replace_chr space underscore
    (lower (strip (filter (fun c => is_word c || is_space c) key))).

(** [([^:\n]+?)\s*:\s*([^\n]+?)(?=\n|$)], MULTILINE *)
Definition pattern1 : regex :=
  Cat (Grp 1 (PlusLazy
               (Cls (fun c => negb (chr_eqb c ":"%char || chr_eqb c newline)))))
 (Cat (Star false Space)
 (Cat (Lit (lit ":"))
 (Cat (Star false Space)
 (Cat (Grp 2 (PlusLazy Dot))
      (Ahead (Alt (Cls (chr_eqb newline)) (Eol true))))))).

(** [([^-\n]+?)\s+-\s+([^\n]+?)(?=\n|$)], MULTILINE *)
Definition pattern2 : regex :=
  Cat (Grp 1 (PlusLazy
               (Cls (fun c => negb (chr_eqb c "-"%char || chr_eqb c newline)))))
 (Cat (Plus Space)
 (Cat (Lit (lit "-"))
 (Cat (Plus Space)
 (Cat (Grp 2 (PlusLazy Dot))
      (Ahead (Alt (Cls (chr_eqb newline)) (Eol true))))))).

Definition kv_step (only_new : bool) (kv_pairs : dict str) (m : str * str)
  : dict str :=
  let key := strip (fst m) in
  let value := strip (snd m) in
  if negb (is_nil key) && negb (is_nil value) && (List.length key <? 100)
  then
    let ck := clean_key key in
    if negb (is_nil ck) && negb (only_new && mem ck kv_pairs)
    then set ck value kv_pairs
    else kv_pairs
  else kv_pairs.

Definition extract_key_value_pairs (text : str) : dict str :=
  let kv1 := fold_left (kv_step false) (findall2 pattern1 text) [] in
  fold_left (kv_step true) (findall2 pattern2 text) kv1.

Definition Qltb (a b : Q) : bool := negb (Qle_bool b a).

(** A Python float used as a condition: false exactly for zero. *)
Definition truthy (f : Q) : bool := negb (Qeq_bool f 0).

Definition detect_heading (text : str) (font_size : option Q)
    (is_bold : bool) : bool :=
  let text := strip text in
  if is_nil text then false
  else if List.length text <? 80 then
    if isupper text && (3 <? List.length text) then true
    else if is_bold then true
    else match font_size with
         | Some f => truthy f && Qltb 12 f
         | None => false
         end
  else false.

Definition unnamed_section : str := lit "unnamed_section".

Definition normalize_section_name (heading : str) : str :=
  let clean := filter (fun c => is_word c || is_space c) heading in
  let clean := replace_chr space underscore (strip (lower clean)) in
  let clean := collapse_runs (fun c => chr_eqb c underscore) underscore clean in
  let clean := strip_by (fun c => chr_eqb c underscore) clean in
  if is_nil clean then unnamed_section else clean.

(** *** Tables *)

Inductive Row : Type :=
| RowDict (d : dict str)
| RowList (l : list str).

Record Table : Type := mkTable {
  t_page_number : nat;
  table_index : nat;
  has_header : bool;
  data : list Row;
  row_count : nat
}.

(** A raw cell of the table segmenter: a string or [None]. *)
Definition cell := option str.

Definition cell_truthy (c : cell) : bool :=
  match c with
  | Some s => negb (is_nil s)
  | None => false
  end.

(** [^\d+[.,]?\d*$] *)
Definition number_re : regex :=
  Cat (Bol false)
 (Cat (Plus Digit)
 (Cat (Opt (Cls (fun c => chr_eqb c "."%char || chr_eqb c ","%char)))
 (Cat (Star false Digit) (Eol false)))).

Definition is_some {A : Type} (o : option A) : bool :=
  match o with
  | Some _ => true
  | None => false
  end.

(** The condition under [all(...)]: a non-empty string, shorter than 50
    once trimmed, that is not a number. *)
Definition header_like (c : cell) : bool :=
  match c with
  | Some s =>
      negb (is_nil s) && (List.length (strip s) <? 50) &&
      negb (is_some (rmatch number_re (strip s)))
  | None => false
  end.

(** [all(header_like(cell) for cell in first_row[:5] if cell)], under the
    guards [len(table) > 1] and [first_row]. *)
Definition first_row_is_header (table : list (list cell)) : bool :=
  (1 <? List.length table) &&
  match table with
  | first_row :: _ =>
      negb (is_nil first_row) &&
      forallb header_like (filter cell_truthy (firstn 5 first_row))
  | [] => false
  end.

Definition nat_str (n : nat) : str :=
  lit (DecimalString.NilEmpty.string_of_uint (Nat.to_uint n)).

Definition col_label (i : nat) : str := lit "col_" ++ nat_str i.

Definition cell_text (c : cell) : str :=
  match c with
  | Some s => if is_nil s then [] else strip s
  | None => []
  end.

Fixpoint enumerate_from {A : Type} (i : nat) (l : list A) : list (nat * A) :=
  match l with
  | [] => []
  | x :: l' => (i, x) :: enumerate_from (S i) l'
  end.

Definition enumerate {A : Type} (l : list A) : list (nat * A) :=
  enumerate_from 0 l.

Definition header_names (first_row : list cell) : list str :=
  map (fun ic => if cell_truthy (snd ic) then cell_text (snd ic)
                 else col_label (fst ic))
      (enumerate first_row).

Definition row_kept (row : list cell) : bool :=
  negb (is_nil row) && existsb cell_truthy row.

Definition row_dict (headers : list str) (row : list cell) : dict str :=
  fold_left
    (fun d ic =>
       let key := match nth_error headers (fst ic) with
                  | Some h => h
                  | None => col_label (fst ic)
                  end in
       set key (cell_text (snd ic)) d)
    (enumerate row) [].

Definition table_data (table : list (list cell)) : list Row :=
  if 1 <? List.length table then
    if first_row_is_header table then
      match table with
      | first_row :: rest =>
          map (fun row => RowDict (row_dict (header_names first_row) row))
              (filter row_kept rest)
      | [] => []
      end
    else map (fun row => RowList (map cell_text row)) (filter row_kept table)
  else [].

(** The body of the table loop of [extract_tables_pdfplumber]: nothing
    is recorded for an empty grid. *)
Definition classify_table (page_num table_idx : nat)
    (table : list (list cell)) : option Table :=
  if is_nil table then None
  else
    let td := table_data table in
    Some (mkTable page_num table_idx (first_row_is_header table) td
                  (List.length td)).

(** *** Lines and their tags *)

(** A line as the text layer delivers it. *)
Record TextLine : Type := mkTextLine {
  tl_text : str;
  tl_y_position : Q;
  tl_font_size : option Q;
  tl_is_bold : bool
}.

(** The dictionary stored per line in [lines_data]: the trimmed text and
    the heading flag computed by [detect_heading]. *)
Record LineInfo : Type := mkLineInfo {
  l_text : str;
  l_y_position : Q;
  l_font_size : option Q;
  l_is_bold : bool;
  l_is_heading : bool
}.

Definition line_info (l : TextLine) : LineInfo :=
  mkLineInfo (strip (tl_text l)) (tl_y_position l) (tl_font_size l)
             (tl_is_bold l)
             (detect_heading (tl_text l) (tl_font_size l) (tl_is_bold l)).

Inductive LineTag : Type :=
| Heading
| KeyValue
| ListItem
| Paragraph.

(** U+2192, the arrow, and U+2022, the bullet, in UTF-8. *)
Definition arrow : str := [ascii_of_nat 226; ascii_of_nat 134; ascii_of_nat 146].
Definition bullet : str := [ascii_of_nat 226; ascii_of_nat 128; ascii_of_nat 162].

(** [":" in text or " - " in text or arrow in text] *)
Definition looks_key_value (text : str) : bool :=
  contains (lit ":") text || contains (lit " - ") text || contains arrow text.

(** [^[\s]*[bullet\-\*\d+\.]\s+] *)
Definition list_re : regex :=
  Cat (Bol false)
 (Cat (Star false Space)
 (Cat (Alt (Cls (fun c => one_of (lit "-*+.") c || is_digit c)) (Lit bullet))
      (Plus Space))).

Definition looks_list_item (text : str) : bool :=
  is_some (rmatch list_re text) || startswith (lit "- ") text ||
  startswith bullet text.

(** The if/elif chain of the line loop of [build_json_structure]; a line
    whose trimmed text is empty is skipped ([continue]) and has no tag. *)
Definition classify (line : LineInfo) : option LineTag :=
  let text := strip (l_text line) in
  if is_nil text then None
  else if l_is_heading line then Some Heading
  else if looks_key_value text then Some KeyValue
  else if looks_list_item text then Some ListItem
  else Some Paragraph.

(** *** The hierarchical record *)

Record Section : Type := mkSection {
  heading : str;
  content : list str;
  s_key_value_pairs : dict str;
  tables : list Table
}.

Record PageContent : Type := mkPageContent {
  page_number : nat;
  headings : list str;
  p_key_value_pairs : dict str;
  paragraphs : list str;
  lists : list (list str)
}.

Record PageData : Type := mkPageData {
  pd_page_number : nat;
  pd_lines : list LineInfo
}.

Record Document : Type := mkDocument {
  source_file : str;
  extracted_pages : list PageContent;
  raw_text_by_page : list str;
  detected_tables : list Table;
  key_value_pairs : dict str;
  sections : dict Section;
  unstructured_text : list (nat * str);
  total_pages : nat;
  is_scanned : bool
}.

(** The state of the page loop: the record under construction and
    [current_section], a reference into [sections], held as its key
    ([current_section_key]); sections are never removed. *)
Record Asm : Type := mkAsm {
  result : Document;
  current_section_key : option str
}.

(** The state of the line loop within a page. *)
Record PageSt : Type := mkPageSt {
  page_content : PageContent;
  current_paragraph : list str;
  current_list : list str;
  in_list : bool
}.

Definition set_sections (d : Document) (ss : dict Section) : Document :=
  mkDocument (source_file d) (extracted_pages d) (raw_text_by_page d)
    (detected_tables d) (key_value_pairs d) ss (unstructured_text d)
    (total_pages d) (is_scanned d).

Definition set_key_value_pairs (d : Document) (kv : dict str) : Document :=
  mkDocument (source_file d) (extracted_pages d) (raw_text_by_page d)
    (detected_tables d) kv (sections d) (unstructured_text d)
    (total_pages d) (is_scanned d).

Definition set_unstructured (d : Document) (u : list (nat * str)) : Document :=
  mkDocument (source_file d) (extracted_pages d) (raw_text_by_page d)
    (detected_tables d) (key_value_pairs d) (sections d) u
    (total_pages d) (is_scanned d).

Definition set_extracted_pages (d : Document) (ps : list PageContent)
  : Document :=
  mkDocument (source_file d) ps (raw_text_by_page d)
    (detected_tables d) (key_value_pairs d) (sections d) (unstructured_text d)
    (total_pages d) (is_scanned d).

Definition add_content (para : str) (s : Section) : Section :=
  mkSection (heading s) (content s ++ [para]) (s_key_value_pairs s) (tables s).

Definition add_kv (k v : str) (s : Section) : Section :=
  mkSection (heading s) (content s) (set k v (s_key_value_pairs s)) (tables s).

Definition add_table (t : Table) (s : Section) : Section :=
  mkSection (heading s) (content s) (s_key_value_pairs s) (tables s ++ [t]).

(** [if current_paragraph: paragraphs.append(" ".join(current_paragraph))] *)
Definition flush_paragraph (ps : PageSt) : PageSt :=
  if is_nil (current_paragraph ps) then ps
  else
    let pc := page_content ps in
    mkPageSt
      (mkPageContent (page_number pc) (headings pc) (p_key_value_pairs pc)
         (paragraphs pc ++ [join [space] (current_paragraph ps)]) (lists pc))
      [] (current_list ps) (in_list ps).

(** [if current_list: lists.append(current_list)] *)
Definition flush_list (ps : PageSt) : PageSt :=
  if is_nil (current_list ps) then ps
  else
    let pc := page_content ps in
    mkPageSt
      (mkPageContent (page_number pc) (headings pc) (p_key_value_pairs pc)
         (paragraphs pc) (lists pc ++ [current_list ps]))
      (current_paragraph ps) [] (in_list ps).

Definition set_in_list (b : bool) (ps : PageSt) : PageSt :=
  mkPageSt (page_content ps) (current_paragraph ps) (current_list ps) b.

Definition add_heading (h : str) (ps : PageSt) : PageSt :=
  let pc := page_content ps in
  mkPageSt
    (mkPageContent (page_number pc) (headings pc ++ [h]) (p_key_value_pairs pc)
       (paragraphs pc) (lists pc))
    (current_paragraph ps) (current_list ps) (in_list ps).

Definition add_page_kv (k v : str) (ps : PageSt) : PageSt :=
  let pc := page_content ps in
  mkPageSt
    (mkPageContent (page_number pc) (headings pc)
       (set k v (p_key_value_pairs pc)) (paragraphs pc) (lists pc))
    (current_paragraph ps) (current_list ps) (in_list ps).

Definition new_section (text : str) : Section := mkSection text [] [] [].

(** One pair of a key-value line: into the active section if there is
    one, else into the top-level pairs; always into the page's pairs. *)
Definition store_kv (st : Asm * PageSt) (kv : str * str) : Asm * PageSt :=
  let '(a, ps) := st in
  let '(k, v) := kv in
  let r := result a in
  let r' := match current_section_key a with
            | Some key => set_sections r (modify key (add_kv k v) (sections r))
            | None => set_key_value_pairs r (set k v (key_value_pairs r))
            end in
  (mkAsm r' (current_section_key a), add_page_kv k v ps).

(** The body of [for line_info in lines]. *)
Definition line_step (st : Asm * PageSt) (line : LineInfo) : Asm * PageSt :=
  let '(a, ps) := st in
  let text := strip (l_text line) in
  match classify line with
  | None => st
  | Some Heading =>
      let ps := set_in_list false (flush_list (flush_paragraph ps)) in
      let section_key := normalize_section_name text in
      let r := result a in
      let ss := if mem section_key (sections r) then sections r
                else set section_key (new_section text) (sections r) in
      (mkAsm (set_sections r ss) (Some section_key), add_heading text ps)
  | Some KeyValue =>
      fold_left store_kv (extract_key_value_pairs text) st
  | Some ListItem =>
      let ps := mkPageSt (page_content ps) (current_paragraph ps)
                  (current_list ps ++ [text]) true in
      (a, flush_paragraph ps)
  | Some Paragraph =>
      let ps := if in_list ps then flush_list ps else ps in
      (a, mkPageSt (page_content ps) (current_paragraph ps ++ [text])
            (current_list ps) false)
  end.

(** [for para in page_content["paragraphs"]], after the line loop: the
    section tested is the one current at that point. *)
Definition place_paragraph (page_num : nat) (a : Asm) (para : str) : Asm :=
  let r := result a in
  match current_section_key a with
  | Some key =>
      mkAsm (set_sections r (modify key (add_content para) (sections r)))
            (current_section_key a)
  | None =>
      mkAsm (set_unstructured r (unstructured_text r ++ [(page_num, para)]))
            (current_section_key a)
  end.

Definition empty_page (page_num : nat) : PageContent :=
  mkPageContent page_num [] [] [] [].

(** What follows the line loop of a page: the pending paragraph and list
    are flushed, the page's paragraphs are placed, the page is recorded. *)
Definition page_finish (page_num : nat) (st : Asm * PageSt) : Asm :=
  let '(a, ps) := st in
  let ps := flush_list (flush_paragraph ps) in
  let a := fold_left (place_paragraph page_num)
             (paragraphs (page_content ps)) a in
  mkAsm (set_extracted_pages (result a)
           (extracted_pages (result a) ++ [page_content ps]))
        (current_section_key a).

Definition page_start (page_num : nat) : PageSt :=
  mkPageSt (empty_page page_num) [] [] false.

(** The body of [for page_data in structured_data]. *)
Definition page_step (a : Asm) (pd : PageData) : Asm :=
  let page_num := pd_page_number pd in
  page_finish page_num
    (fold_left line_step (pd_lines pd) (a, page_start page_num)).

(** The inner loop [for section_key, section in result["sections"].items()]
    for one table: the first section visited finds [table_added] false,
    takes the table and the loop breaks. *)
Fixpoint offer_table (t : Table) (table_added : bool) (ss : dict Section)
  : dict Section :=
  match ss with
  | [] => []
  | (k, s) :: rest =>
      if negb table_added
      then (k, add_table t s) :: rest      (* table_added = True; break *)
      else (k, s) :: offer_table t table_added rest
  end.

(** [for table in tables]: [table_added] starts false for every table. *)
Definition associate_tables (ts : list Table) (ss : dict Section)
  : dict Section :=
  fold_left (fun ss t => offer_table t false ss) ts ss.

Definition initial_document (pdf_name : str) (raw : list str)
    (ts : list Table) (scanned : bool) : Document :=
  mkDocument pdf_name [] raw ts [] [] [] (List.length raw) scanned.

(** The state before the first page: no section is current. *)
Definition initial_asm (pdf_name : str) (raw : list str) (ts : list Table)
    (scanned : bool) : Asm :=
  mkAsm (initial_document pdf_name raw ts scanned) None.

Definition build_json_structure (pdf_name : str) (raw_text : list str)
    (structured_data : list PageData) (ts : list Table) (scanned : bool)
  : Document :=
  let a := fold_left page_step structured_data
             (initial_asm pdf_name raw_text ts scanned) in
  set_sections (result a) (associate_tables ts (sections (result a))).

End Adaptive.

(** ** extract_project_data.py *)

Module Extract.
Import PyStr Regex Dict.
Import Adaptive.

(** [clean_text]: trim, then [re.sub(r'\s+', ' ', ...)]. *)
Definition clean_text (text : str) : str :=
  if is_nil text then []
  else collapse_runs is_space space (strip text).

Definition digit_val (c : ascii) : Z := Z.of_nat (code c - 48).

(** [int(s)] on a string of decimal digits. *)
Definition int_of (s : str) : Z :=
  fold_left (fun acc c => 10 * acc + digit_val c)%Z s 0%Z.

Fixpoint take_while (p : ascii -> bool) (s : str) : str :=
  match s with
  | [] => []
  | c :: s' => if p c then c :: take_while p s' else []
  end.

(** [float(s)] on a string of digits and dots, as [[\d.]+] delivers it:
    at most one dot and at least one digit, else [ValueError].  The
    value is kept in lowest terms. *)
Definition float_of (s : str) : outcome Q :=
  let ip := take_while is_digit s in
  match lstrip_by is_digit s with
  | [] => if is_nil ip then Raise ValueError else Ok (inject_Z (int_of ip))
  | c :: fp =>
      if chr_eqb c "."%char && forallb is_digit fp &&
         negb (is_nil ip && is_nil fp)
      then Ok (Qred (Qmake (int_of (ip ++ fp))
                           (Z.to_pos (10 ^ Z.of_nat (List.length fp)))))
      else Raise ValueError
  end.

(** [extract_number]: the first run of digits, commas removed. *)
Definition extract_number (text : str) : option Z :=
  if is_nil text then None
  else option_map (fun x => int_of (group 1 x))
         (search (Grp 1 (Plus Digit)) (remove_chr ","%char text)).

(** [extract_float]: the first run of digits and dots. *)
Definition extract_float (text : str) : outcome (option Q) :=
  if is_nil text then Ok None
  else match search (Grp 1 (Plus (Cls digit_or_dot))) text with
       | Some x => v <- float_of (group 1 x) ;; Ok (Some v)
       | None => Ok None
       end.

(** [(\d{2}-\d{2}-\d{4})] *)
Definition date_re : regex :=
  Grp 1 (Cat (Times 2 Digit) (Cat (Lit (lit "-"))
        (Cat (Times 2 Digit) (Cat (Lit (lit "-")) (Times 4 Digit))))).

Definition extract_date (text : str) : option str :=
  if is_nil text then None
  else option_map (group 1) (search date_re text).

(** [x or default] on an optional string, integer or float. *)
Definition str_or (o : option str) (default : str) : str :=
  match o with
  | Some s => if is_nil s then default else s
  | None => default
  end.

Definition int_or (o : option Z) (default : Z) : Z :=
  match o with
  | Some n => if (n =? 0)%Z then default else n
  | None => default
  end.

Definition float_or (o : option Q) (default : Q) : Q :=
  match o with
  | Some f => if truthy f then f else default
  | None => default
  end.

(** *** Coordinates *)

(** The nested function [is_valid_coord]. *)
Definition is_valid_coord (value : Q) (coord_type : str) : bool :=
  if negb (truthy value) || Qeq_bool value 0 then false
  else if str_eqb coord_type (lit "lat") then
    Qltb 10 value && Qltb value 17
  else if str_eqb coord_type (lit "lon") then
    Qltb 73 value && Qltb value 79
  else false.

Record Boundary : Type := mkBoundary {
  north_lat : option Q; north_lon : option Q;
  east_lat : option Q;  east_lon : option Q;
  west_lat : option Q;  west_lon : option Q;
  south_lat : option Q; south_lon : option Q
}.

Definition no_boundary : Boundary :=
  mkBoundary None None None None None None None None.

Inductive Dir : Type := North | East | West | South.

Definition set_lat (d : Dir) (v : Q) (b : Boundary) : Boundary :=
  match d with
  | North => mkBoundary (Some v) (north_lon b) (east_lat b) (east_lon b)
               (west_lat b) (west_lon b) (south_lat b) (south_lon b)
  | East => mkBoundary (north_lat b) (north_lon b) (Some v) (east_lon b)
              (west_lat b) (west_lon b) (south_lat b) (south_lon b)
  | West => mkBoundary (north_lat b) (north_lon b) (east_lat b) (east_lon b)
              (Some v) (west_lon b) (south_lat b) (south_lon b)
  | South => mkBoundary (north_lat b) (north_lon b) (east_lat b) (east_lon b)
               (west_lat b) (west_lon b) (Some v) (south_lon b)
  end.

Definition set_lon (d : Dir) (v : Q) (b : Boundary) : Boundary :=
  match d with
  | North => mkBoundary (north_lat b) (Some v) (east_lat b) (east_lon b)
               (west_lat b) (west_lon b) (south_lat b) (south_lon b)
  | East => mkBoundary (north_lat b) (north_lon b) (east_lat b) (Some v)
              (west_lat b) (west_lon b) (south_lat b) (south_lon b)
  | West => mkBoundary (north_lat b) (north_lon b) (east_lat b) (east_lon b)
              (west_lat b) (Some v) (south_lat b) (south_lon b)
  | South => mkBoundary (north_lat b) (north_lon b) (east_lat b) (east_lon b)
               (west_lat b) (west_lon b) (south_lat b) (Some v)
  end.

(** [if val and is_valid_coord(val, t): ...] on an optional float. *)
Definition accepted (val : option Q) (coord_type : str) : option Q :=
  match val with
  | Some v => if truthy v && is_valid_coord v coord_type then Some v else None
  | None => None
  end.

Definition set_lat_if (d : Dir) (val : option Q) (b : Boundary) : Boundary :=
  match accepted val (lit "lat") with
  | Some v => set_lat d v b
  | None => b
  end.

Definition set_lon_if (d : Dir) (val : option Q) (b : Boundary) : Boundary :=
  match accepted val (lit "lon") with
  | Some v => set_lon d v b
  | None => b
  end.

Definition compass : regex :=
  Alt (LitI (lit "North")) (Alt (LitI (lit "East"))
      (Alt (LitI (lit "West")) (LitI (lit "South")))).

(** [^([\d.]+)\s*(?:North|East|West|South)\s*Longitude[:\s]*([\d.]+)],
    IGNORECASE *)
Definition combined_re : regex :=
  Cat (Bol false)
 (Cat (Grp 1 (Plus (Cls digit_or_dot)))
 (Cat (Star false Space)
 (Cat compass
 (Cat (Star false Space)
 (Cat (LitI (lit "Longitude"))
 (Cat (Star false (Cls colon_or_space))
      (Grp 2 (Plus (Cls digit_or_dot))))))))).

(** Which boundary a key of the combined format names: the first of
    north, east, west, south it contains, provided it contains
    "latitude". *)
Definition combined_dir (key : str) : option Dir :=
  let k := lower key in
  if contains (lit "north") k && contains (lit "latitude") k then Some North
  else if contains (lit "east") k && contains (lit "latitude") k then Some East
  else if contains (lit "west") k && contains (lit "latitude") k then Some West
  else if contains (lit "south") k && contains (lit "latitude") k then Some South
  else None.

(** The if/elif chain over the separate [*_latitude] / [*_longitude]
    keys: the direction and whether it is a latitude. *)
Definition separate_field (key : str) : option (Dir * bool) :=
  let k := lower key in
  if contains (lit "north_latitude") k then Some (North, true)
  else if contains (lit "north_longitude") k then Some (North, false)
  else if contains (lit "east_latitude") k then Some (East, true)
  else if contains (lit "east_longitude") k then Some (East, false)
  else if contains (lit "west_latitude") k then Some (West, true)
  else if contains (lit "west_longitude") k then Some (West, false)
  else if contains (lit "south_latitude") k then Some (South, true)
  else if contains (lit "south_longitude") k then Some (South, false)
  else None.

(** The body of [for key, value in kv.items()]. *)
Definition boundary_step (b : Boundary) (kv : str * str) : outcome Boundary :=
  let '(key, value) := kv in
  if is_nil value then Ok b
  else
    b1 <- (if contains (lit "longitude") (lower value) then
             match search combined_re value with
             | Some x =>
                 lat_val <- extract_float (group 1 x) ;;
                 lon_val <- extract_float (group 2 x) ;;
                 match combined_dir key with
                 | Some d => Ok (set_lon_if d lon_val (set_lat_if d lat_val b))
                 | None => Ok b
                 end
             | None => Ok b
             end
           else Ok b) ;;
    match separate_field key with
    | Some (d, is_lat) =>
        val <- extract_float value ;;
        Ok (if is_lat then set_lat_if d val b1 else set_lon_if d val b1)
    | None => Ok b1
    end.

Fixpoint boundary_loop (b : Boundary) (kv : dict str) : outcome Boundary :=
  match kv with
  | [] => Ok b
  | item :: kv' => b' <- boundary_step b item ;; boundary_loop b' kv'
  end.

(** [[v for v in [...] if v]] *)
Definition present (l : list (option Q)) : list Q :=
  flat_map (fun o => match o with
                     | Some v => if truthy v then [v] else []
                     | None => []
                     end) l.

Definition lats_of (b : Boundary) : list Q :=
  present [north_lat b; south_lat b; east_lat b; west_lat b].

Definition lons_of (b : Boundary) : list Q :=
  present [north_lon b; south_lon b; east_lon b; west_lon b].

Definition qmin (a b : Q) : Q := if Qltb b a then b else a.
Definition qmax (a b : Q) : Q := if Qltb a b then b else a.

(** [(min(l) + max(l)) / 2] for a non-empty [l], in lowest terms. *)
Definition center (l : list Q) : option Q :=
  match l with
  | [] => None
  | x :: l' =>
      Some (Qred ((fold_left qmin l' x + fold_left qmax l' x) / 2))
  end.

(** The centre of the boundary points, when there is at least one
    latitude and one longitude and both midpoints pass the range check. *)
Definition centroid (b : Boundary) : option (Q * Q) :=
  match center (lats_of b), center (lons_of b) with
  | Some center_lat, Some center_lon =>
      if is_valid_coord center_lat (lit "lat") &&
         is_valid_coord center_lon (lit "lon")
      then Some (center_lat, center_lon)
      else None
  | _, _ => None
  end.

(** [not project["latitude"]] *)
Definition absent (o : option Q) : bool :=
  match o with
  | Some v => negb (truthy v)
  | None => true
  end.

(** [(?:^|\s)Latitude[:\s]+([\d.]+)] and the same for Longitude,
    IGNORECASE and MULTILINE *)
Definition simple_re (name : str) : regex :=
  Cat (Alt (Bol true) Space)
 (Cat (LitI name)
 (Cat (Plus (Cls colon_or_space))
      (Grp 1 (Plus (Cls digit_or_dot))))).

(** [North\s+Latitude[:\s]+([\d.]+)] and its seven siblings, IGNORECASE *)
Definition boundary_re (dir name : str) : regex :=
  Cat (LitI dir)
 (Cat (Plus Space)
 (Cat (LitI name)
 (Cat (Plus (Cls colon_or_space))
      (Grp 1 (Plus (Cls digit_or_dot)))))).

Definition dir_name (d : Dir) : str :=
  match d with
  | North => lit "North"
  | East => lit "East"
  | West => lit "West"
  | South => lit "South"
  end.

(** [boundary_patterns], in the order of the source. *)
Definition boundary_patterns : list (Dir * bool) :=
  [(North, true); (North, false); (East, true); (East, false);
   (West, true); (West, false); (South, true); (South, false)].

Definition text_boundary_step (all_text : str) (b : Boundary)
    (p : Dir * bool) : outcome Boundary :=
  let '(d, is_lat) := p in
  let name := if is_lat then lit "Latitude" else lit "Longitude" in
  match search (boundary_re (dir_name d) name) all_text with
  | Some x =>
      val <- extract_float (group 1 x) ;;
      Ok (if is_lat then set_lat_if d val b else set_lon_if d val b)
  | None => Ok b
  end.

Fixpoint text_boundary_loop (all_text : str) (b : Boundary)
    (ps : list (Dir * bool)) : outcome Boundary :=
  match ps with
  | [] => Ok b
  | p :: ps' =>
      b' <- text_boundary_step all_text b p ;;
      text_boundary_loop all_text b' ps'
  end.

(** The successive values of [project["latitude"], project["longitude"]]. *)
Definition coords := (option Q * option Q)%type.

(** Step 1: the direct fields, each on its own. *)
Definition direct_field (name coord_type : str) (kv : dict str)
  : outcome (option Q) :=
  match get name kv with
  | Some value => v <- extract_float value ;; Ok (accepted v coord_type)
  | None => Ok None
  end.

(** Step 4: [if lats and lons and not project["latitude"]]. *)
Definition centroid_step (b : Boundary) (c : coords) : coords :=
  if negb (is_nil (lats_of b)) && negb (is_nil (lons_of b)) && absent (fst c)
  then match centroid b with
       | Some (clat, clon) => (Some clat, Some clon)
       | None => c
       end
  else c.

(** The text fallback for one plain coordinate, guarded by
    [if not project[...]]. *)
Definition simple_text_step (name coord_type : str) (all_text : str)
    (cur : option Q) : outcome (option Q) :=
  if absent cur then
    match search (simple_re name) all_text with
    | Some x =>
        v <- float_of (group 1 x) ;;
        Ok (if is_valid_coord v coord_type then Some v else cur)
    | None => Ok cur
    end
  else Ok cur.

(** The boundary fallback from the text:
    [if not project["latitude"] or not project["longitude"]]. *)
Definition text_centroid_step (all_text : str) (b : Boundary) (c : coords)
  : outcome coords :=
  if absent (fst c) || absent (snd c) then
    b' <- text_boundary_loop all_text b boundary_patterns ;;
    Ok (if negb (is_nil (lats_of b')) && negb (is_nil (lons_of b'))
        then match centroid b' with
             | Some (clat, clon) => (Some clat, Some clon)
             | None => c
             end
        else c)
  else Ok c.

(** The coordinate block of [parse_project_from_json]. *)
Definition resolve_coordinates (kv : dict str) (all_text : str)
  : outcome coords :=
  lat <- direct_field (lit "latitude") (lit "lat") kv ;;
  lon <- direct_field (lit "longitude") (lit "lon") kv ;;
  b <- boundary_loop no_boundary kv ;;
  let c := centroid_step b (lat, lon) in
  lat' <- simple_text_step (lit "Latitude") (lit "lat") all_text (fst c) ;;
  lon' <- simple_text_step (lit "Longitude") (lit "lon") all_text (snd c) ;;
  text_centroid_step all_text b (lat', lon').

(** *** Fields with several sources *)

(** [Project Description[:\s]+(.*?)(?:Project Type|Project Status|$)],
    IGNORECASE and DOTALL *)
Definition description_re : regex :=
  Cat (LitI (lit "Project Description"))
 (Cat (Plus (Cls colon_or_space))
 (Cat (Grp 1 (Star true AnyChr))
      (Alt (LitI (lit "Project Type"))
      (Alt (LitI (lit "Project Status")) (Eol false))))).

(** [Project Type[:\s]+(.*?)(?:Project Status|$)], IGNORECASE *)
Definition type_re : regex :=
  Cat (LitI (lit "Project Type"))
 (Cat (Plus (Cls colon_or_space))
 (Cat (Grp 1 (Star true Dot))
      (Alt (LitI (lit "Project Status")) (Eol false)))).

(** [Project Status[:\s]+(.*?)(?:Start Date|Proposed|$)], IGNORECASE *)
Definition status_re : regex :=
  Cat (LitI (lit "Project Status"))
 (Cat (Plus (Cls colon_or_space))
 (Cat (Grp 1 (Star true Dot))
      (Alt (LitI (lit "Start Date"))
      (Alt (LitI (lit "Proposed")) (Eol false))))).

(** [Start Date[:\s]+(?:At the time of Registration[:\s]+)?(\d{2}-\d{2}-\d{4})],
    IGNORECASE *)
Definition start_re : regex :=
  Cat (LitI (lit "Start Date"))
 (Cat (Plus (Cls colon_or_space))
 (Cat (Opt (Cat (LitI (lit "At the time of Registration"))
                (Plus (Cls colon_or_space))))
      date_re)).

(** [Proposed Completion Date[:\s]+(\d{2}-\d{2}-\d{4})], IGNORECASE *)
Definition completion_re : regex :=
  Cat (LitI (lit "Proposed Completion Date"))
 (Cat (Plus (Cls colon_or_space)) date_re).

(** [Source of Water[:\s]+(.*?)(?:,|\n|$)], IGNORECASE *)
Definition water_re : regex :=
  Cat (LitI (lit "Source of Water"))
 (Cat (Plus (Cls colon_or_space))
 (Cat (Grp 1 (Star true Dot))
      (Alt (Lit (lit ","))
      (Alt (Cls (chr_eqb newline)) (Eol false))))).

(** [Total Number of Sites/Plots[:\s]*(\d+)], IGNORECASE *)
Definition plots_re : regex :=
  Cat (LitI (lit "Total Number of Sites/Plots"))
 (Cat (Star false (Cls colon_or_space))
      (Grp 1 (Plus Digit))).

(** [Cost of Land[^0-9]*\(C1\)[:\s]*(\d+)], IGNORECASE *)
Definition cost_land_re : regex :=
  Cat (LitI (lit "Cost of Land"))
 (Cat (Star false (Cls (fun c => negb (is_digit c))))
 (Cat (LitI (lit "(C1)"))
 (Cat (Star false (Cls colon_or_space))
      (Grp 1 (Plus Digit))))).

(** The merged key-value pairs: the top-level ones, then every page's. *)
Definition collect_kv (d : Document) : dict str :=
  fold_left (fun kv page => update kv (p_key_value_pairs page))
    (extracted_pages d) (update [] (key_value_pairs d)).

(** [all_text]: the raw pages, then every page's paragraphs. *)
Definition collect_text (d : Document) : str :=
  fold_left
    (fun t page => t ++ [newline] ++ join [newline] (paragraphs page))
    (extracted_pages d) (join [newline] (raw_text_by_page d)).

Definition description_of (kv : dict str) (all_text : str) : str :=
  match search description_re all_text with
  | Some m => clean_text (group 1 m)
  | None =>
      match get (lit "description") kv with
      | Some v => clean_text v
      | None => []
      end
  end.

Definition type_of (kv : dict str) (all_text : str) : str :=
  match search type_re all_text with
  | Some m => clean_text (group 1 m)
  | None =>
      match get (lit "project_type") kv with
      | Some v => strip (before_first (lit "Project Status") (clean_text v))
      | None => []
      end
  end.

Definition status_of (kv : dict str) (all_text : str) : str :=
  match search status_re all_text with
  | Some m => clean_text (group 1 m)
  | None =>
      match get (lit "project_status") kv with
      | Some v => clean_text v
      | None => []
      end
  end.

Definition completion_marker : str := lit "Proposed Completion Date".

(** The start and completion dates: the key-value entry is written
    first, then each regex match, when there is one, is written over it. *)
Definition dates_of (kv : dict str) (all_text : str) : str * str :=
  let '(start0, completion0) :=
    match get (lit "project_start_date") kv with
    | Some date_str =>
        (str_or (extract_date date_str) [],
         str_or (extract_date
                   (if contains completion_marker date_str
                    then after_last completion_marker date_str else []))
                [])
    | None => ([], [])
    end in
  let start1 := match search start_re all_text with
                | Some m => group 1 m
                | None => start0
                end in
  let completion1 := match search completion_re all_text with
                     | Some m => group 1 m
                     | None => completion0
                     end in
  (start1, completion1).

Definition is_comma (c : ascii) : bool := chr_eqb c ","%char.

(** [clean_text(...).rstrip(',').strip()] *)
Definition tidy_water (s : str) : str :=
  strip (rstrip_by is_comma (clean_text s)).

Definition water_source_of (kv : dict str) (all_text : str) : str :=
  let w0 := match get (lit "source_of_water") kv with
            | Some v => tidy_water v
            | None => []
            end in
  match search water_re all_text with
  | Some m => if is_nil w0 then tidy_water (group 1 m) else w0
  | None => w0
  end.

Definition total_plots_of (kv : dict str) (all_text : str) : Z :=
  match search plots_re all_text with
  | Some m => int_of (group 1 m)
  | None =>
      match get (lit "number_of_plots") kv with
      | Some v => int_or (extract_number v) 0
      | None => 0%Z
      end
  end.

(** The scan of the sections for the cost of land: the first section
    whose key contains "cost_of_land" and whose joined content holds a
    non-zero integer. *)
Fixpoint cost_land_from_sections (ss : dict Section) : Z :=
  match ss with
  | [] => 0%Z
  | (section_key, section) :: rest =>
      if contains (lit "cost_of_land") (lower section_key) then
        match extract_number (join [space] (content section)) with
        | Some num => if (num =? 0)%Z then cost_land_from_sections rest
                      else num
        | None => cost_land_from_sections rest
        end
      else cost_land_from_sections rest
  end.

Definition cost_land_of (d : Document) (all_text : str) : Z :=
  match search cost_land_re all_text with
  | Some m => int_of (group 1 m)
  | None => cost_land_from_sections (sections d)
  end.

(** *** Rows derived from tables *)

Record PlotType : Type := mkPlotType {
  pt_sl_no : str;
  pt_type : str;
  pt_number : Z;
  pt_area : Z
}.

Record Plot : Type := mkPlot {
  pl_sl_no : str;
  pl_plot_no : str;
  pl_type : str;
  pl_size : str;
  pl_area : Q;
  pl_north : str;
  pl_south : str;
  pl_east : str;
  pl_west : str
}.

(** [row.get(k1, row.get(k2, ... default))]: the first alias present. *)
Fixpoint get_first (aliases : list str) (default : str) (row : dict str)
  : str :=
  match aliases with
  | [] => default
  | k :: rest =>
      match get k row with
      | Some v => v
      | None => get_first rest default row
      end
  end.

(** [list(table["data"][0].keys())]; a row that is a list has no keys. *)
Definition headers_of (t : Table) : outcome (list str) :=
  match data t with
  | RowDict d :: _ => Ok (keys d)
  | RowList _ :: _ => Raise AttributeError
  | [] => Ok []
  end.

Definition any_header (p : str -> bool) (headers : list str) : bool :=
  existsb (fun h => p (lower h)) headers.

Definition is_plot_type_table (headers : list str) : bool :=
  any_header (fun h => contains (lit "plot") h || contains (lit "type") h ||
                       contains (lit "dimension") h) headers.

Definition is_plot_table (headers : list str) : bool :=
  any_header (contains (lit "plot no")) headers &&
  any_header (fun h => contains (lit "north") h ||
                       contains (lit "schedule") h) headers.

Definition plot_type_of_row (row : dict str) : PlotType :=
  mkPlotType
    (get_first [lit "Sl No."; lit "sl_no"] [] row)
    (get_first [lit "Plot Type"; lit "type"; lit "Site Dimension"] [] row)
    (int_or (extract_number
               (get_first [lit "Number of Sites"; lit "number"; lit "Number"]
                          (lit "0") row)) 0)
    (int_or (extract_number
               (get_first [lit "Total Area"; lit "area"; lit "Area"]
                          (lit "0") row)) 0).

(** [table["data"][1:]] *)
Definition rows_after_first (t : Table) : list Row := tl (data t).

(** The rows one table contributes to [plot_types]. *)
Definition plot_types_of_table (t : Table) : outcome (list PlotType) :=
  if has_header t && negb (is_nil (data t)) then
    headers <- headers_of t ;;
    Ok (if is_plot_type_table headers then
          flat_map
            (fun row =>
               match row with
               | RowDict d =>
                   let pt := plot_type_of_row d in
                   if negb (is_nil (pt_type pt)) && (0 <? pt_number pt)%Z
                   then [pt] else []
               | RowList _ => []
               end)
            (rows_after_first t)
        else [])
  else Ok [].

Definition plot_of_row (row : dict str) : outcome Plot :=
  area <- extract_float
            (get_first [lit "Plot Area"; lit "area"; lit "Area"] (lit "0") row) ;;
  Ok (mkPlot
        (get_first [lit "Sl No."; lit "sl_no"] [] row)
        (get_first [lit "Plot No."; lit "plot_no"; lit "Plot No"] [] row)
        (get_first [lit "Plot Type"; lit "type"] [] row)
        (get_first [lit "Plot Size"; lit "size"; lit "Plot Size"] [] row)
        (float_or area 0)
        (get_first [lit "North Schedule"; lit "north"; lit "North"] [] row)
        (get_first [lit "South Schedule"; lit "south"; lit "South"] [] row)
        (get_first [lit "East Schedule"; lit "east"; lit "East"] [] row)
        (get_first [lit "West Schedule"; lit "west"; lit "West"] [] row)).

Fixpoint plots_of_rows (rows : list Row) : outcome (list Plot) :=
  match rows with
  | [] => Ok []
  | RowDict d :: rest =>
      p <- plot_of_row d ;;
      ps <- plots_of_rows rest ;;
      Ok (if is_nil (pl_plot_no p) then ps else p :: ps)
  | RowList _ :: rest => plots_of_rows rest
  end.

(** The rows one table contributes to [plots]. *)
Definition plots_of_table (t : Table) : outcome (list Plot) :=
  if has_header t && negb (is_nil (data t)) then
    headers <- headers_of t ;;
    if is_plot_table headers then plots_of_rows (rows_after_first t)
    else Ok []
  else Ok [].

Fixpoint concat_outcomes {A B : Type} (f : A -> outcome (list B))
    (l : list A) : outcome (list B) :=
  match l with
  | [] => Ok []
  | x :: l' =>
      ys <- f x ;;
      zs <- concat_outcomes f l' ;;
      Ok (ys ++ zs)
  end.

(** The fields of the project record that have more than one source or
    come from tables, and the coordinates. *)
Record Project : Type := mkProject {
  filename : str;
  description : str;
  type : str;
  status : str;
  start_date : str;
  completion_date : str;
  latitude : option Q;
  longitude : option Q;
  water_source : str;
  total_plots : Z;
  cost_land : Z;
  plot_types : list PlotType;
  plots : list Plot
}.

Definition parse_project_from_json (json_data : Document) : outcome Project :=
  let kv := collect_kv json_data in
  let all_text := collect_text json_data in
  c <- resolve_coordinates kv all_text ;;
  pts <- concat_outcomes plot_types_of_table (detected_tables json_data) ;;
  pls <- concat_outcomes plots_of_table (detected_tables json_data) ;;
  Ok (mkProject
        (source_file json_data)
        (description_of kv all_text)
        (type_of kv all_text)
        (status_of kv all_text)
        (fst (dates_of kv all_text))
        (snd (dates_of kv all_text))
        (fst c) (snd c)
        (water_source_of kv all_text)
        (total_plots_of kv all_text)
        (cost_land_of json_data all_text)
        pts pls).

End Extract.

(** ** Relations between two states of the record under construction *)

Module Inv.
Import PyStr Dict Adaptive.

(** Every key of [r] is still a key of [r']. *)
Definition keeps_keys (r r' : Document) : Prop :=
  forall k, mem k (sections r) = true -> mem k (sections r') = true.

(** Every section of [r] is still there in [r'], under the same key and
    with the same heading, and its content has only grown at its end. *)
Definition extends (r r' : Document) : Prop :=
  forall key s, get key (sections r) = Some s ->
    exists s', get key (sections r') = Some s' /\
               heading s' = heading s /\
               exists more, content s' = (content s ++ more)%list.

(** No key occurs twice in the section mapping. *)
Definition distinct_keys (r : Document) : Prop :=
  NoDup (keys (sections r)).

(** No section holds a table. *)
Definition no_tables (r : Document) : Prop :=
  Forall (fun ks => tables (snd ks) = []) (sections r).

(** Nothing is written to a content list or to [unstructured_text]:
    the sections of [r] keep their content, the new ones have none. *)
Definition same_content (r r' : Document) : Prop :=
  unstructured_text r' = unstructured_text r /\
  extracted_pages r' = extracted_pages r /\
  (forall key s, get key (sections r) = Some s ->
     exists s', get key (sections r') = Some s' /\ content s' = content s) /\
  (forall key s', get key (sections r') = Some s' ->
     get key (sections r) = None -> content s' = []).

(** The section [s] with [paras] added at the end of its content. *)
Definition add_contents (paras : list str) (s : Section) : Section :=
  mkSection (heading s) (content s ++ paras) (s_key_value_pairs s) (tables s).

(** A property of the record that a write keeps. *)
Definition preserves (P : Document -> Prop) (r r' : Document) : Prop :=
  P r -> P r'.

(** The current section, when there is one, is a section of the record. *)
Definition current_is_key (a : Asm) : Prop :=
  forall k, current_section_key a = Some k ->
            mem k (sections (result a)) = true.

(** The document-level table list is untouched. *)
Definition same_detected (r r' : Document) : Prop :=
  detected_tables r' = detected_tables r.

(** The closure conditions of a relation that every write of the line
    loop respects. *)
Record line_stable (R : Document -> Document -> Prop) : Prop := {
  st_refl : forall r, R r r;
  st_trans : forall r1 r2 r3, R r1 r2 -> R r2 r3 -> R r1 r3;
  st_new_section : forall r key text,
    get key (sections r) = None ->
    R r (set_sections r (set key (new_section text) (sections r)));
  st_add_kv : forall r key k v,
    R r (set_sections r (modify key (add_kv k v) (sections r)));
  st_top_kv : forall r k v,
    R r (set_key_value_pairs r (set k v (key_value_pairs r)))
}.

(** And those of the writes that end a page. *)
Record page_stable (R : Document -> Document -> Prop) : Prop := {
  st_lines : line_stable R;
  st_add_content : forall r key para,
    R r (set_sections r (modify key (add_content para) (sections r)));
  st_unstructured : forall r n para,
    R r (set_unstructured r (unstructured_text r ++ [(n, para)]));
  st_pages : forall r ps, R r (set_extracted_pages r ps)
}.

End Inv.

(** ** Statements worded by the specification

    Each definition below follows the words of the specification, to be
    compared with the definition taken from the source. *)

Module Spec.
Import PyStr Regex Dict Adaptive Extract.

(** The table classifier as specified: every one of the first row's
    leading cells (up to five) is header-like, whatever the number of
    rows of the grid. *)
Definition spec_has_header (table : list (list cell)) : bool :=
  match table with
  | first_row :: _ => forallb header_like (firstn 5 first_row)
  | [] => false
  end.

(** What the header test asks of a cell that is not skipped: once
    trimmed it is shorter than 50 characters and not a number. *)
Definition header_cell (c : cell) : Prop :=
  forall s, c = Some s -> s <> [] ->
    (List.length (strip s) < 50)%nat /\ rmatch number_re (strip s) = None.

(** The salience signals of a heading: the text is upper-case and longer
    than 3 characters, or the line is bold, or its font size exceeds 12. *)
Definition salient (text : str) (font_size : option Q) (is_bold : bool)
  : Prop :=
  (isupper text = true /\ (3 < List.length text)%nat) \/
  is_bold = true \/
  (exists f, font_size = Some f /\ 12 < f).

(** The conditions of a heading, on the trimmed text of a line. *)
Definition heading_conditions (text : str) (font_size : option Q)
    (is_bold : bool) : Prop :=
  text <> [] /\ (List.length text < 80)%nat /\ salient text font_size is_bold.

(** The shape of a section key as specified, [^[a-z0-9_]+$] with no
    leading, trailing or doubled underscore. *)
Definition key_char (c : ascii) : bool :=
  is_lower c || is_digit c || chr_eqb c underscore.

Definition key_char_or_space (c : ascii) : Prop :=
  key_char c = true \/ c = space.

Fixpoint doubled_underscore (k : str) : bool :=
  match k with
  | a :: ((b :: _) as k') =>
      (chr_eqb a underscore && chr_eqb b underscore) || doubled_underscore k'
  | _ => false
  end.

Definition spec_key_shape (k : str) : bool :=
  negb (is_nil k) && forallb key_char k &&
  negb (startswith [underscore] k) && negb (startswith [underscore] (rev k)) &&
  negb (doubled_underscore k).


(** The table association as specified: a table goes to the first
    section, in iteration order, that holds no table yet; with no such
    section it stays in the document-level list only. *)
Fixpoint spec_offer_table (t : Table) (ss : dict Section) : dict Section :=
  match ss with
  | [] => []
  | (k, s) :: rest =>
      if is_nil (tables s) then (k, add_table t s) :: rest
      else (k, s) :: spec_offer_table t rest
  end.

Definition spec_associate_tables (ts : list Table) (ss : dict Section)
  : dict Section :=
  fold_left (fun ss t => spec_offer_table t ss) ts ss.

(** A line of plain text, not bold and with no font information, as it
    is stored in [lines_data]. *)
Definition plain_line (s : string) : LineInfo :=
  line_info (mkTextLine (lit s) 0 None false).

(** The same for a bold line. *)
Definition bold_line (s : string) : LineInfo :=
  line_info (mkTextLine (lit s) 0 None true).

(** A row of a raw grid whose cells are all strings. *)
Definition cells (row : list string) : list cell :=
  map (fun s => Some (lit s)) row.

End Spec.

(** ** Predicates used to state further properties *)

Module Facts.
Import PyStr Regex Dict Adaptive Extract.

(** An optional coordinate is absent or passes the range check. *)
Definition in_range (coord_type : str) (o : option Q) : Prop :=
  forall v, o = Some v -> is_valid_coord v coord_type = true.

(** No two adjacent characters of [k] both satisfy [p]. *)
Fixpoint doubled (p : ascii -> bool) (k : str) : bool :=
  match k with
  | a :: ((b :: _) as k') => (p a && p b) || doubled p k'
  | _ => false
  end.

(** [k] neither starts nor ends with a character satisfying [p]. *)
Definition trimmed (p : ascii -> bool) (k : str) : Prop :=
  (forall c t, k = c :: t -> p c = false) /\
  (forall t c, k = (t ++ [c])%list -> p c = false).

(** Text as [clean_text] leaves it: trimmed, its only whitespace the
    space character, and no two spaces in a row. *)
Definition clean (s : str) : Prop :=
  trimmed is_space s /\
  (forall c, In c s -> is_space c = true -> c = space) /\
  doubled is_space s = false.

(** A character of a cleaned key: a lower-case letter, a digit, an
    underscore, or a whitespace character other than the space. *)
Definition clean_key_char (c : ascii) : Prop :=
  Spec.key_char c = true \/ (is_space c = true /\ c <> space).

(** A pair as [extract_key_value_pairs] stores it. *)
Definition stored_pair (kv : str * str) : Prop :=
  fst kv <> [] /\ (List.length (fst kv) < 100)%nat /\
  Forall clean_key_char (fst kv) /\
  snd kv <> [] /\ trimmed is_space (snd kv).

(** The pairs the colon pattern alone gives. *)
Definition colon_pairs (text : str) : dict str :=
  fold_left (kv_step false) (findall2 pattern1 text) [].

Definition is_dict_row (r : Row) : bool :=
  match r with
  | RowDict _ => true
  | RowList _ => false
  end.

(** A table as [extract_tables_pdfplumber] records it for some grid. *)
Definition classified (t : Table) : Prop :=
  exists page_num idx grid, classify_table page_num idx grid = Some t.

(** The only exception a computation can raise is [ValueError]. *)
Definition only_value_error {A : Type} (c : outcome A) : Prop :=
  forall e, c = Raise e -> e = ValueError.

(** The lines of a page that the line loop tags Heading, and their
    trimmed texts in order. *)
Definition is_heading_line (l : LineInfo) : bool :=
  match classify l with
  | Some Heading => true
  | _ => false
  end.

Definition heading_texts (lines : list LineInfo) : list str :=
  map (fun l => strip (l_text l)) (filter is_heading_line lines).

(** A line whose trimmed text is empty. *)
Definition is_blank (l : LineInfo) : bool := is_nil (strip (l_text l)).

(** A page without its blank lines. *)
Definition drop_blank (pd : PageData) : PageData :=
  mkPageData (pd_page_number pd)
             (filter (fun l => negb (is_blank l)) (pd_lines pd)).

(** The fields of the record that the assembler only copies. *)
Definition same_frame (r r' : Document) : Prop :=
  source_file r' = source_file r /\
  raw_text_by_page r' = raw_text_by_page r /\
  total_pages r' = total_pages r /\
  is_scanned r' = is_scanned r.

(** A section stored under the key of its own heading, the heading
    being a non-empty trimmed line. *)
Definition keyed_by_heading (ks : str * Section) : Prop :=
  fst ks = normalize_section_name (heading (snd ks)) /\
  heading (snd ks) <> [] /\
  trimmed is_space (heading (snd ks)).

(** The part of a page record that identifies the page: its number and
    its headings. *)
Definition page_view (pc : PageContent) : nat * list str :=
  (page_number pc, headings pc).

(** The top-level pairs and the unstructured text of the record. *)
Definition loose_ends (r : Document) : dict str * list (nat * str) :=
  (key_value_pairs r, unstructured_text r).

(** The character before a position reached by reading [pre]. *)
Definition last_or (prev : option ascii) (pre : str) : option ascii :=
  fold_left (fun _ c => Some c) pre prev.

(** The first maximal run of characters satisfying [p]. *)
Definition first_run (p : ascii -> bool) (s : str) : str :=
  take_while p (lstrip_by (fun c => negb (p c)) s).

(** The number of dots of a string. *)
Definition dots (s : str) : nat :=
  List.length (filter (fun c => chr_eqb c "."%char) s).

(** Text made of ASCII characters only.  On such text [lower], [strip]
    and the classes [\w] and [\s] are those of Python. *)
Definition is_ascii (c : ascii) : bool := code c <? 128.

Definition ascii_text (s : str) : bool := forallb is_ascii s.

(** [sys.get_int_max_str_digits()] as CPython sets it by default since
    3.11: [int] raises [ValueError] on a run of more digits. *)
Definition int_max_str_digits : nat := 4300.

(** A string starts with characters of the given classes, one each. *)
Fixpoint prefix_ok (ps : list (ascii -> bool)) (s : str) : bool :=
  match ps, s with
  | [], _ => true
  | p :: ps', c :: s' => p c && prefix_ok ps' s'
  | _ :: _, [] => false
  end.

(** Two digits, a hyphen, two digits, a hyphen, four digits. *)
Definition date_classes : list (ascii -> bool) :=
  [is_digit; is_digit; chr_eqb "-"%char; is_digit; is_digit;
   chr_eqb "-"%char; is_digit; is_digit; is_digit; is_digit].

Definition is_date (d : str) : bool :=
  (List.length d =? 10)%nat && prefix_ok date_classes d.

(** The regex that reads one character of each class in turn. *)
Fixpoint Seq (ps : list (ascii -> bool)) : regex :=
  match ps with
  | [] => Eps
  | p :: ps' => Cat (Cls p) (Seq ps')
  end.

End Facts.

(** ** The text layer and the OCR layer

    What [adaptive_pdf_to_json] reads before it calls
    [build_json_structure].  The libraries are taken as they answer: a
    page is what pdfplumber shows of it, the OCR of a page is a text or
    a failure.  The runs modelled are those in which pdfplumber itself
    raises nothing. *)

Module Reader.
Import PyStr Regex Dict Adaptive.

(** A character as pdfplumber reports it. *)
Record PdfChar : Type := mkPdfChar {
  c_text : str;
  c_top : Q;
  c_size : Q;
  c_fontname : option str
}.

(** A page: [extract_text()], [chars] and [extract_tables()]. *)
Record PdfPage : Type := mkPdfPage {
  pg_text : option str;
  pg_chars : list PdfChar;
  pg_tables : list (list (list cell))
}.

(** [text and len(text.strip()) > 50] *)
Definition has_text (t : option str) : bool :=
  match t with
  | Some s => negb (is_nil s) && (50 <? List.length (strip s))
  | None => false
  end.

(** The loop [for i in range(pages_to_check)], left at the first page
    with text. *)
Fixpoint text_found (pages_to_check : nat) (pages : list PdfPage) : bool :=
  match pages_to_check, pages with
  | S n, p :: rest => if has_text (pg_text p) then true else text_found n rest
  | _, _ => false
  end.

Definition is_scanned_pdf (pages : list PdfPage) : bool :=
  negb (text_found (Nat.min 3 (List.length pages)) pages).

(** [c.get('fontname', '').lower().find('bold') >= 0] *)
Definition is_bold_char (c : PdfChar) : bool :=
  contains (lit "bold")
    (lower (match c_fontname c with Some f => f | None => [] end)).

(** The dictionary appended to [lines_data] for the characters of
    [current_line], read at height [current_y]. *)
Definition line_of (current_y : Q) (current_line : list PdfChar) : LineInfo :=
  line_info (mkTextLine (List.concat (map c_text current_line)) current_y
               (option_map c_size (hd_error current_line))
               (existsb is_bold_char current_line)).

(** The state of the loop over the characters of a page. *)
Record GroupSt : Type := mkGroupSt {
  lines_data : list LineInfo;
  current_line : list PdfChar;
  current_y : option Q
}.

(** [if current_line: lines_data.append(...)] *)
Definition flush_line (st : GroupSt) (y : Q) : list LineInfo :=
  if is_nil (current_line st) then lines_data st
  else (lines_data st ++ [line_of y (current_line st)])%list.

Section Grouping.

(** [round(top, 1)] and [abs(char_y - current_y) > 2] on floats. *)
Variable round1 : Q -> Q.
Variable far : Q -> Q -> bool.

(** The body of [for char in chars]. *)
Definition char_step (st : GroupSt) (char : PdfChar) : GroupSt :=
  let char_y := round1 (c_top char) in
  let cy := match current_y st with Some y => y | None => char_y end in
  if far char_y cy
  then mkGroupSt (flush_line st cy) [char] (Some char_y)
  else mkGroupSt (lines_data st) (current_line st ++ [char]) (Some cy).

(** The lines of a page; the last line is added after the loop.  The
    height is set as soon as a character has been read. *)
Definition group_lines (chars : list PdfChar) : list LineInfo :=
  let st := fold_left char_step chars (mkGroupSt [] [] None) in
  flush_line st (match current_y st with Some y => y | None => 0 end).

(** A page without characters gets no entry in [structured_data]. *)
Definition page_lines (np : nat * PdfPage) : list PageData :=
  if is_nil (pg_chars (snd np)) then []
  else [mkPageData (fst np) (group_lines (pg_chars (snd np)))].

Definition extract_text_with_structure_pdfplumber (pages : list PdfPage)
  : list str * list PageData :=
  (map (fun p => match pg_text p with Some t => t | None => [] end) pages,
   flat_map page_lines (enumerate_from 1 pages)).

End Grouping.

(** The tables of one page, numbered from 0 within the page. *)
Definition page_tables (np : nat * PdfPage) : list Table :=
  flat_map
    (fun it => match classify_table (fst np) (fst it) (snd it) with
               | Some t => [t]
               | None => []
               end)
    (enumerate (pg_tables (snd np))).

Definition extract_tables_pdfplumber (pages : list PdfPage) : list Table :=
  flat_map page_tables (enumerate_from 1 pages).

(** [text.split(sep)] for a single character *)
Fixpoint split_on (sep : ascii) (s : str) : list str :=
  match s with
  | [] => [[]]
  | c :: s' =>
      if chr_eqb c sep then [] :: split_on sep s'
      else match split_on sep s' with
           | l :: ls => (c :: l) :: ls
           | [] => [[c]]
           end
  end.

(** [[line.strip() for line in text.split('\n') if line.strip()]] *)
Definition ocr_lines (text : str) : list str :=
  map strip
    (filter (fun line => negb (is_nil (strip line))) (split_on newline text)).

Definition ocr_line (line : str) : LineInfo :=
  mkLineInfo line 0 None false (detect_heading line None false).

(** [extract_with_ocr]: one entry per page, numbered from 1; a page
    whose OCR fails has the empty text. *)
Definition extract_with_ocr (images : list (option str)) : list (nat * str) :=
  map (fun it => (fst it, match snd it with Some t => t | None => [] end))
      (enumerate_from 1 images).

Definition ocr_page (page_data : nat * str) : PageData :=
  mkPageData (fst page_data) (map ocr_line (ocr_lines (snd page_data))).

(** [adaptive_pdf_to_json] with every library installed.  [ocr] is what
    [extract_with_ocr] meets: nothing when opening the file raises,
    else per page the text read or a failure.  The result is absent
    when the function raises. *)
Definition adaptive_pdf_to_json (round1 : Q -> Q) (far : Q -> Q -> bool)
    (pdf_name : str) (pages : list PdfPage) (ocr : option (list (option str)))
  : option Document :=
  let is_scanned := is_scanned_pdf pages in
  let raw_text_by_page :=
    if negb is_scanned
    then fst (extract_text_with_structure_pdfplumber round1 far pages)
    else [] in
  let structured_data :=
    if negb is_scanned
    then snd (extract_text_with_structure_pdfplumber round1 far pages)
    else [] in
  let tables :=
    if negb is_scanned then extract_tables_pdfplumber pages else [] in
  if is_scanned || is_nil raw_text_by_page then
    match ocr with
    | Some images =>
        let ocr_pages := extract_with_ocr images in
        Some (build_json_structure pdf_name (map snd ocr_pages)
                (structured_data ++ map ocr_page ocr_pages) tables is_scanned)
    | None => None
    end
  else
    Some (build_json_structure pdf_name raw_text_by_page structured_data
            tables is_scanned).

End Reader.

(** ** Predicates on what the reader delivers *)

Module ReaderFacts.
Import PyStr Regex Dict Adaptive Reader.

(** The characters that are not whitespace, in order. *)
Definition visible (s : str) : str := filter (fun c => negb (is_space c)) s.

Section Groups.
Variable round1 : Q -> Q.
Variable far : Q -> Q -> bool.

(** The runs of characters read at one height: a run is closed by the
    first character that is far from the height of the run's first
    character. *)
Fixpoint groups_from (y : Q) (cur : list PdfChar) (chars : list PdfChar)
  : list (Q * list PdfChar) :=
  match chars with
  | [] => [(y, cur)]
  | c :: cs =>
      if far (round1 (c_top c)) y
      then (y, cur) :: groups_from (round1 (c_top c)) [c] cs
      else groups_from y (cur ++ [c]) cs
  end.

Definition groups_of (chars : list PdfChar) : list (Q * list PdfChar) :=
  match chars with
  | [] => []
  | c :: cs => groups_from (round1 (c_top c)) [c] cs
  end.

(** A run has a first character, is read at that character's height,
    and none of its other characters is far from that height. *)
Definition group_ok (g : Q * list PdfChar) : Prop :=
  match snd g with
  | [] => False
  | c :: rest =>
      fst g = round1 (c_top c) /\
      Forall (fun c' => far (round1 (c_top c')) (fst g) = false) rest
  end.

(** Each run starts far from the height of the run before it. *)
Fixpoint chained (gs : list (Q * list PdfChar)) : Prop :=
  match gs with
  | g1 :: ((g2 :: _) as rest) => far (fst g2) (fst g1) = true /\ chained rest
  | _ => True
  end.

End Groups.

(** The 1-based positions of the pages that have characters. *)
Definition pages_with_chars (pages : list PdfPage) : list nat :=
  map fst (filter (fun np => negb (is_nil (pg_chars (snd np))))
             (enumerate_from 1 pages)).

(** The heading rule left on the OCR path, where no font is known. *)
Definition upper_case_heading (text : str) : bool :=
  isupper text && (3 <? List.length text) && (List.length text <? 80).

End ReaderFacts.

(** ** The batch drivers

    A folder of JSON files is a mapping from file stems to records.  Of
    a PDF the drivers see its stem and what [adaptive_pdf_to_json] does
    on it: a record, or an exception.  Writing a file is taken to
    succeed, and a record read back from its file to be the record
    written. *)

Module Batch.
Import PyStr Regex Dict Adaptive Extract.

Record PdfFile : Type := mkPdfFile {
  stem : str;
  converted : option Document
}.

(** *** batch_convert_with_progress.py *)

Record Counts : Type := mkCounts {
  successful : nat;
  failed : nat;
  skipped : nat
}.

(** The body of [for idx, pdf_file in enumerate(pdf_files, 1)]. *)
Definition convert_step (skip_existing : bool)
    (st : dict Document * Counts) (pdf_file : PdfFile)
  : dict Document * Counts :=
  let '(folder_out, n) := st in
  if skip_existing && mem (stem pdf_file) folder_out
  then (folder_out, mkCounts (successful n) (failed n) (S (skipped n)))
  else match converted pdf_file with
       | Some json_data =>
           (set (stem pdf_file) json_data folder_out,
            mkCounts (S (successful n)) (failed n) (skipped n))
       | None =>
           (folder_out, mkCounts (successful n) (S (failed n)) (skipped n))
       end.

(** The output folder and the three counters after the loop; with no
    PDF the function returns at once, the folder unchanged. *)
Definition batch_convert_with_progress (skip_existing : bool)
    (folder_out : dict Document) (pdf_files : list PdfFile)
  : dict Document * Counts :=
  fold_left (convert_step skip_existing) pdf_files
            (folder_out, mkCounts 0 0 0).

(** *** process_rera_pdfs.py *)

Record Stats : Type := mkStats {
  pdfs_found : nat;
  pdfs_processed : nat;
  pdfs_skipped : nat;
  pdfs_failed : nat;
  projects_extracted : nat;
  projects_with_coords : nat;
  projects_missing_coords : nat
}.

(** [RERAPDFProcessor]: the two output folders and the counters. *)
Record Processor : Type := mkProcessor {
  outputs : dict Document;
  projects : dict Project;
  stats : Stats
}.

Definition set_stats (s : Processor) (st : Stats) : Processor :=
  mkProcessor (outputs s) (projects s) st.

(** [convert_pdf_to_json]: the JSON file of the PDF, when there is one
    afterwards. *)
Definition convert_pdf_to_json (skip_existing : bool) (pdf_file : PdfFile)
    (s : Processor) : Processor * option Document :=
  let st := stats s in
  match (if skip_existing then get (stem pdf_file) (outputs s) else None) with
  | Some existing =>
      (set_stats s
         (mkStats (pdfs_found st) (pdfs_processed st) (S (pdfs_skipped st))
            (pdfs_failed st) (projects_extracted st)
            (projects_with_coords st) (projects_missing_coords st)),
       Some existing)
  | None =>
      match converted pdf_file with
      | Some json_data =>
          (mkProcessor (set (stem pdf_file) json_data (outputs s))
             (projects s)
             (mkStats (pdfs_found st) (S (pdfs_processed st))
                (pdfs_skipped st) (pdfs_failed st) (projects_extracted st)
                (projects_with_coords st) (projects_missing_coords st)),
           Some json_data)
      | None =>
          (set_stats s
             (mkStats (pdfs_found st) (pdfs_processed st) (pdfs_skipped st)
                (S (pdfs_failed st)) (projects_extracted st)
                (projects_with_coords st) (projects_missing_coords st)),
           None)
      end
  end.

(** [project.get('latitude') and project.get('longitude')] *)
Definition has_coords (p : Project) : bool :=
  match latitude p, longitude p with
  | Some lat, Some lon => truthy lat && truthy lon
  | _, _ => false
  end.

(** [extract_project_data]: an exception of the parser is logged and
    gives no project. *)
Definition extract_project_data (json_data : Document) (s : Processor)
  : Processor * option Project :=
  let st := stats s in
  match parse_project_from_json json_data with
  | Ok project =>
      (set_stats s
         (mkStats (pdfs_found st) (pdfs_processed st) (pdfs_skipped st)
            (pdfs_failed st) (S (projects_extracted st))
            (if has_coords project then S (projects_with_coords st)
             else projects_with_coords st)
            (if has_coords project then projects_missing_coords st
             else S (projects_missing_coords st))),
       Some project)
  | Raise _ => (s, None)
  end.

(** [s.endswith(p)] *)
Definition endswith (p s : str) : bool := startswith (rev p) (rev s).

(** The stem of the project file: the file name without a final [.pdf]. *)
Definition project_stem (p : Project) : str :=
  if endswith (lit ".pdf") (filename p)
  then firstn (List.length (filename p) - 4) (filename p)
  else filename p.

Definition save_project_file (p : Project) (s : Processor) : Processor :=
  mkProcessor (outputs s) (set (project_stem p) p (projects s)) (stats s).

Definition process_single_pdf (skip_existing : bool) (pdf_file : PdfFile)
    (s : Processor) : Processor * bool :=
  let '(s1, json_file) := convert_pdf_to_json skip_existing pdf_file s in
  match json_file with
  | None => (s1, false)
  | Some json_data =>
      let '(s2, project) := extract_project_data json_data s1 in
      match project with
      | None => (s2, false)
      | Some p => (save_project_file p s2, true)
      end
  end.

(** [find_pdf_files] records the number of PDFs, then each is processed. *)
Definition process_all_pdfs (skip_existing : bool) (pdf_files : list PdfFile)
    (s : Processor) : Processor :=
  let st := stats s in
  let s0 := set_stats s
              (mkStats (List.length pdf_files) (pdfs_processed st)
                 (pdfs_skipped st) (pdfs_failed st) (projects_extracted st)
                 (projects_with_coords st) (projects_missing_coords st)) in
  fold_left (fun s pdf_file => fst (process_single_pdf skip_existing pdf_file s))
            pdf_files s0.

(** A fresh processor on given folders: every counter is 0. *)
Definition new_processor (outputs : dict Document) (projects : dict Project)
  : Processor :=
  mkProcessor outputs projects (mkStats 0 0 0 0 0 0 0).

End Batch.

(** ** process_rera_pdfs_s3.py

    The bucket is seen as two folders of JSON files, by file stem.  Of
    a PDF the processor sees whether the download and the upload of the
    JSON succeed, what [adaptive_pdf_to_json] does on the downloaded
    file, and how the upload of the project ends.  [head_object] is
    taken to answer (found or 404) and the removal of the downloaded
    file to succeed.  A download that fails, with whatever exception,
    is counted as failed once, by [process_single_pdf] or by the loop
    of [process_filtered_files]; so is an upload of the JSON that
    fails. *)

Module S3.
Import PyStr Regex Dict Adaptive Extract.

(** An entry of [file_list]; [last_modified] as a point on the time
    line. *)
Record FileInfo : Type := mkFileInfo {
  key : str;
  filename : str;
  size : Z;
  last_modified : Z;
  serial_number : option Z
}.

(** [sno[_\s]*(\d+)], [^(\d+)] and [_(\d{3,})], each under
    [re.IGNORECASE]. *)
Definition sno_re : regex :=
  Cat (LitI (lit "sno"))
 (Cat (Star false (Cls (fun c => chr_eqb c underscore || is_space c)))
      (Grp 1 (Plus Digit))).

Definition leading_re : regex := Cat (Bol false) (Grp 1 (Plus Digit)).

Definition long_re : regex :=
  Cat (Lit (lit "_")) (Grp 1 (Cat (Times 3 Digit) (Star false Digit))).

(** The first pattern of the list that is found anywhere in the name
    gives the number; [int] of a run of digits does not raise. *)
Definition _extract_serial_number (filename : str) : option Z :=
  match search sno_re filename with
  | Some m => Some (int_of (group 1 m))
  | None =>
      match search leading_re filename with
      | Some m => Some (int_of (group 1 m))
      | None =>
          match search long_re filename with
          | Some m => Some (int_of (group 1 m))
          | None => None
          end
      end
  end.

(** [filtered.sort(key=lambda x: x['last_modified'], reverse=True)]:
    the sort is stable, files modified at the same time keep their
    order. *)
Fixpoint insert_newest (x : FileInfo) (l : list FileInfo) : list FileInfo :=
  match l with
  | [] => [x]
  | y :: l' =>
      if (last_modified y <=? last_modified x)%Z then x :: y :: l'
      else y :: insert_newest x l'
  end.

Definition sort_newest (l : list FileInfo) : list FileInfo :=
  fold_right insert_newest [] l.

(** [l[:n]] *)
Definition slice_to {A : Type} (n : Z) (l : list A) : list A :=
  if (0 <=? n)%Z then firstn (Z.to_nat n) l
  else firstn (List.length l - Z.to_nat (- n)) l.

Definition in_serial_range (range : Z * Z) (f : FileInfo) : bool :=
  match serial_number f with
  | Some n => (fst range <=? n)%Z && (n <=? snd range)%Z
  | None => false
  end.

Definition when {A B : Type} (o : option A) (f : A -> list B -> list B)
    (l : list B) : list B :=
  match o with
  | Some a => f a l
  | None => l
  end.

Section Filter.

(** [datetime.now(timezone.utc) - timedelta(hours=h)] at the time of
    the call. *)
Variable cutoff : Q -> Z.

(** [filter_files]; a criterion that is [None], or is given as 0 or as
    the empty pattern, is not applied.  The pattern is seen by what
    [pattern.search] answers on a file name. *)
Definition filter_files (file_list : list FileInfo)
    (serial_range : option (Z * Z)) (updated_after : option Z)
    (updated_in_last_hours : option Q) (last_n_files : option Z)
    (filename_pattern : option (str -> bool)) : list FileInfo :=
  if is_nil file_list then []
  else
    let filtered := file_list in
    let filtered :=
      when serial_range (fun r => filter (in_serial_range r)) filtered in
    let filtered :=
      when updated_after
           (fun t => filter (fun f => (t <? last_modified f)%Z)) filtered in
    let filtered :=
      when updated_in_last_hours
           (fun h l => if truthy h
                       then filter (fun f => (cutoff h <? last_modified f)%Z) l
                       else l) filtered in
    let filtered :=
      when filename_pattern
           (fun p => filter (fun f => p (filename f))) filtered in
    when last_n_files
         (fun n l => if (n =? 0)%Z then l else slice_to n (sort_newest l))
         filtered.

End Filter.

(** How [upload_json] ends: the object is stored and [True] returned; a
    [ClientError] is caught and [False] returned; or [put_object] raises
    another exception, which [upload_json] does not catch. *)
Inductive Upload : Type :=
| Stored
| Refused
| Broken.

(** What the processor meets on one PDF. *)
Record S3Pdf : Type := mkS3Pdf {
  stem : str;
  downloads : bool;
  converted : option Document;
  uploads : bool;
  project_uploads : Upload
}.

Record Stats : Type := mkStats {
  pdfs_processed : nat;
  pdfs_skipped : nat;
  pdfs_failed : nat;
  projects_extracted : nat;
  projects_with_coords : nat;
  projects_missing_coords : nat
}.

Record Bucket : Type := mkBucket {
  json_files : dict Document;
  project_files : dict Project;
  stats : Stats
}.

Definition failed_one (b : Bucket) : Bucket :=
  let st := stats b in
  mkBucket (json_files b) (project_files b)
    (mkStats (pdfs_processed st) (pdfs_skipped st) (S (pdfs_failed st))
       (projects_extracted st) (projects_with_coords st)
       (projects_missing_coords st)).

(** [project.get('latitude') and project.get('longitude')] *)
Definition has_coords (p : Project) : bool :=
  match latitude p, longitude p with
  | Some lat, Some lon => truthy lat && truthy lon
  | _, _ => false
  end.

(** [process_single_pdf]: the bucket afterwards and the value returned. *)
Definition process_single_pdf (skip_existing : bool) (f : S3Pdf) (b : Bucket)
  : Bucket * bool :=
  let st := stats b in
  if skip_existing && mem (stem f) (json_files b) then
    (mkBucket (json_files b) (project_files b)
       (mkStats (pdfs_processed st) (S (pdfs_skipped st)) (pdfs_failed st)
          (projects_extracted st) (projects_with_coords st)
          (projects_missing_coords st)),
     true)
  else if negb (downloads f) then (failed_one b, false)
  else
    match converted f with
    | None => (failed_one b, false)
    | Some json_data =>
        if negb (uploads f) then (failed_one b, false)
        else
          let b1 := mkBucket (set (stem f) json_data (json_files b))
                      (project_files b) st in
          match parse_project_from_json json_data with
          | Raise _ => (failed_one b1, false)
          | Ok project =>
              (* the project is counted before it is uploaded; an
                 exception of that upload reaches [except Exception],
                 where the PDF is counted as failed *)
              let with_coords :=
                if has_coords project then S (projects_with_coords st)
                else projects_with_coords st in
              let missing_coords :=
                if has_coords project then projects_missing_coords st
                else S (projects_missing_coords st) in
              match project_uploads f with
              | Stored =>
                  (mkBucket (json_files b1)
                     (set (stem f) project (project_files b1))
                     (mkStats (S (pdfs_processed st)) (pdfs_skipped st)
                        (pdfs_failed st) (S (projects_extracted st))
                        with_coords missing_coords),
                   true)
              | Refused =>
                  (mkBucket (json_files b1) (project_files b1)
                     (mkStats (S (pdfs_processed st)) (pdfs_skipped st)
                        (pdfs_failed st) (S (projects_extracted st))
                        with_coords missing_coords),
                   true)
              | Broken =>
                  (mkBucket (json_files b1) (project_files b1)
                     (mkStats (pdfs_processed st) (pdfs_skipped st)
                        (S (pdfs_failed st)) (S (projects_extracted st))
                        with_coords missing_coords),
                   false)
              end
          end
    end.

Definition process_filtered_files (skip_existing : bool)
    (filtered_files : list S3Pdf) (b : Bucket) : Bucket :=
  fold_left (fun b f => fst (process_single_pdf skip_existing f b))
            filtered_files b.

(** The bucket before any processing: every counter is 0. *)
Definition fresh (json_files : dict Document) (project_files : dict Project)
  : Bucket :=
  mkBucket json_files project_files (mkStats 0 0 0 0 0 0).

(** A time at which every file of [kept] was modified no earlier than
    [g]. *)
Definition not_newer_than_all (kept : list FileInfo) (g : FileInfo) : Prop :=
  Forall (fun f => (last_modified g <= last_modified f)%Z) kept.

(** The criteria other than the limit on the number of files. *)
Definition passes (cutoff : Q -> Z) (serial_range : option (Z * Z))
    (updated_after : option Z) (updated_in_last_hours : option Q)
    (filename_pattern : option (str -> bool)) (f : FileInfo) : bool :=
  match serial_range with Some r => in_serial_range r f | None => true end &&
  match updated_after with
  | Some t => (t <? last_modified f)%Z
  | None => true
  end &&
  match updated_in_last_hours with
  | Some h => if truthy h then (cutoff h <? last_modified f)%Z else true
  | None => true
  end &&
  match filename_pattern with Some p => p (filename f) | None => true end.

End S3.

(** * Properties *)

Unset Implicit Arguments.

(** ** Coordinate acceptance *)

Section CoordinateRange.
Import PyStr Adaptive Extract.

Lemma Qltb_lt (a b : Q) : Qltb a b = true <-> a < b.
Proof.
  unfold Qltb. rewrite negb_true_iff.
  split; intro H.
  - apply Qnot_le_lt. intro Hle.
    apply Qle_bool_iff in Hle. congruence.
  - destruct (Qle_bool b a) eqn:E; [|reflexivity].
    apply Qle_bool_iff in E. exfalso. exact (Qlt_not_le _ _ H E).
Qed.

Lemma truthy_nonzero (v : Q) : truthy v = true <-> ~ v == 0.
Proof.
  unfold truthy. rewrite negb_true_iff.
  split; intro H.
  - intro E. apply Qeq_bool_iff in E. congruence.
  - destruct (Qeq_bool v 0) eqn:E; [|reflexivity].
    apply Qeq_bool_iff in E. contradiction.
Qed.

Lemma is_valid_coord_range (v lo hi : Q) :
  0 <= lo ->
  (negb (negb (truthy v) || Qeq_bool v 0) && (Qltb lo v && Qltb v hi) = true
   <-> lo < v /\ v < hi).
Proof.
  intro Hlo.
  rewrite !andb_true_iff, negb_true_iff, orb_false_iff, negb_false_iff.
  rewrite !Qltb_lt, truthy_nonzero.
  split.
  - intros [_ H]. exact H.
  - intros [H1 H2]. split; [|split; assumption].
    assert (Hnz : ~ v == 0).
    { intro E. rewrite E in H1. exact (Qlt_not_le _ _ H1 Hlo). }
    split; [exact Hnz|].
    destruct (Qeq_bool v 0) eqn:E; [|reflexivity].
    apply Qeq_bool_iff in E. contradiction.
Qed.

Lemma is_valid_coord_lat (v : Q) :
  is_valid_coord v (lit "lat") = true <-> 10 < v /\ v < 17.
Proof.
  rewrite <- (is_valid_coord_range v 10 17) by discriminate.
  unfold is_valid_coord.
  change (str_eqb (lit "lat") (lit "lat")) with true.
  destruct (negb (truthy v) || Qeq_bool v 0); simpl; tauto.
Qed.

Lemma is_valid_coord_lon (v : Q) :
  is_valid_coord v (lit "lon") = true <-> 73 < v /\ v < 79.
Proof.
  rewrite <- (is_valid_coord_range v 73 79) by discriminate.
  unfold is_valid_coord.
  change (str_eqb (lit "lon") (lit "lat")) with false.
  change (str_eqb (lit "lon") (lit "lon")) with true.
  destruct (negb (truthy v) || Qeq_bool v 0); simpl; tauto.
Qed.

Lemma is_valid_coord_zero (d : positive) (coord_type : str) :
  is_valid_coord (0 # d) coord_type = false.
Proof. reflexivity. Qed.

(** C9. The validity check accepts a latitude exactly inside the open
    interval (10, 17) and a longitude exactly inside (73, 79); zero is
    rejected whatever the coordinate type.  Hence 13.25 is an accepted
    latitude and 77.5 an accepted longitude, while the latitudes 0.0
    and 20.0 are rejected. *)
Theorem is_valid_coord_spec :
  (forall v : Q, is_valid_coord v (lit "lat") = true <-> 10 < v /\ v < 17) /\
  (forall v : Q, is_valid_coord v (lit "lon") = true <-> 73 < v /\ v < 79) /\
  (forall (d : positive) (coord_type : str),
      is_valid_coord (0 # d) coord_type = false) /\
  is_valid_coord (1325 # 100) (lit "lat") = true /\
  is_valid_coord (775 # 10) (lit "lon") = true /\
  is_valid_coord 0 (lit "lat") = false /\
  is_valid_coord 20 (lit "lat") = false.
Proof.
  split; [exact is_valid_coord_lat|].
  split; [exact is_valid_coord_lon|].
  split; [exact is_valid_coord_zero|].
  repeat split; reflexivity.
Qed.

End CoordinateRange.

(** ** The table classifier *)

Section TableClassifier.
Import PyStr Regex Adaptive Spec.

Lemma forallb_filter_Forall {A : Type} (f g : A -> bool) (l : list A) :
  forallb f (filter g l) = true <->
  Forall (fun c => g c = true -> f c = true) l.
Proof.
  induction l as [|a l IH]; simpl.
  - split; [constructor | reflexivity].
  - destruct (g a) eqn:G; simpl.
    + rewrite andb_true_iff, IH. split.
      * intros [Ha Hl]. constructor; [intros _; exact Ha | exact Hl].
      * intro H. inversion H; subst. split; [auto | assumption].
    + rewrite IH. split.
      * intro Hl. constructor; [congruence | exact Hl].
      * intro H. inversion H; subst. assumption.
Qed.

Lemma is_nil_false {A : Type} (l : list A) : is_nil l = false <-> l <> [].
Proof. destruct l; simpl; split; congruence. Qed.

Lemma is_nil_true {A : Type} (l : list A) : is_nil l = true <-> l = [].
Proof. destruct l; simpl; split; congruence. Qed.

Lemma header_cell_iff (c : cell) :
  (cell_truthy c = true -> header_like c = true) <-> header_cell c.
Proof.
  unfold header_cell. destruct c as [[|a s]|]; simpl.
  - split; [intros _ s' E H | intros _ H]; congruence.
  - split.
    + intros H s' E _. inversion E; subst s'.
      apply andb_true_iff in H; [|reflexivity].
      destruct H as [H1 H2]. apply Nat.ltb_lt in H1. split; [exact H1|].
      destruct (rmatch number_re (strip (a :: s))); [discriminate|reflexivity].
    + intros H _. destruct (H (a :: s) eq_refl) as [H1 H2]; [congruence|].
      rewrite H2. apply Nat.ltb_lt in H1. rewrite H1. reflexivity.
  - split; [intros _ s E; discriminate | intros _ H; discriminate].
Qed.

Lemma first_row_is_header_iff (first_row : list cell)
    (rest : list (list cell)) :
  first_row_is_header (first_row :: rest) = true <->
  rest <> [] /\ first_row <> [] /\ Forall header_cell (firstn 5 first_row).
Proof.
  unfold first_row_is_header.
  rewrite !andb_true_iff, negb_true_iff, is_nil_false, forallb_filter_Forall.
  rewrite Nat.ltb_lt. simpl List.length.
  assert (Hrest : (1 < S (List.length rest))%nat <-> rest <> []).
  { destruct rest; simpl; split; intro H; try congruence; lia. }
  rewrite Hrest.
  assert (HF : Forall (fun c => cell_truthy c = true -> header_like c = true)
                 (firstn 5 first_row) <->
               Forall header_cell (firstn 5 first_row)).
  { rewrite !Forall_forall. split; intros H c Hc; apply header_cell_iff; auto. }
  rewrite HF. tauto.
Qed.

(** C4, as the specification states it, fails: a first row with an
    empty leading cell is still taken for a header (empty cells are
    skipped by the test), and a grid of a single row never has a header
    whatever that row holds. *)
Lemma has_header_differs_from_spec :
  (let grid := [[Some (lit "Plot Type"); Some []; None];
                [Some (lit "Villa"); Some (lit "5"); None]] in
   first_row_is_header grid = true /\ spec_has_header grid = false) /\
  (let grid := [[Some (lit "Plot Type"); Some (lit "Number of Sites")]] in
   first_row_is_header grid = false /\ spec_has_header grid = true).
Proof. repeat split; reflexivity. Qed.

(** C4, amended.  For every non-empty grid the classifier records a
    table, and its [has_header] is true exactly when the grid has more
    than one row, the first row is not empty, and every cell among the
    first five of the first row that is a non-empty string is, once
    trimmed, shorter than 50 characters and not a decimal number; empty
    and missing cells are skipped. *)
Theorem has_header_spec (page_num table_idx : nat) (first_row : list cell)
    (rest : list (list cell)) :
  exists t,
    classify_table page_num table_idx (first_row :: rest) = Some t /\
    (has_header t = true <->
     rest <> [] /\ first_row <> [] /\
     Forall header_cell (firstn 5 first_row)).
Proof.
  eexists. split; [reflexivity|].
  cbn [has_header]. apply first_row_is_header_iff.
Qed.

End TableClassifier.

(** ** Trimming *)

Section Trimming.
Import PyStr.

Variable p : ascii -> bool.

Lemma lstrip_by_idem (s : str) : lstrip_by p (lstrip_by p s) = lstrip_by p s.
Proof.
  induction s as [|c s IH]; simpl; [reflexivity|].
  destruct (p c) eqn:E; [exact IH|].
  simpl. rewrite E. reflexivity.
Qed.

Lemma lstrip_by_head (c : ascii) (s : str) :
  p c = false -> lstrip_by p (c :: s) = c :: s.
Proof. intro E. simpl. rewrite E. reflexivity. Qed.

Lemma lstrip_by_snoc (s : str) (c : ascii) :
  p c = false -> lstrip_by p (s ++ [c]) = lstrip_by p s ++ [c].
Proof.
  intro E. induction s as [|a s IH]; simpl.
  - rewrite E. reflexivity.
  - destruct (p a); [exact IH | reflexivity].
Qed.

Lemma rstrip_by_cons (c : ascii) (s : str) :
  p c = false -> rstrip_by p (c :: s) = c :: rstrip_by p s.
Proof.
  intro E. unfold rstrip_by. simpl rev.
  rewrite lstrip_by_snoc by exact E.
  rewrite rev_app_distr. reflexivity.
Qed.

(** The result of [lstrip_by] is empty or starts with a kept character. *)
Lemma lstrip_by_cases (s : str) :
  lstrip_by p s = [] \/
  exists c t, lstrip_by p s = c :: t /\ p c = false.
Proof.
  induction s as [|c s IH]; simpl; [left; reflexivity|].
  destruct (p c) eqn:E; [exact IH|].
  right. exists c, s. split; [reflexivity | exact E].
Qed.

Lemma rstrip_by_idem (s : str) : rstrip_by p (rstrip_by p s) = rstrip_by p s.
Proof.
  unfold rstrip_by. rewrite rev_involutive, lstrip_by_idem. reflexivity.
Qed.

Lemma strip_by_idem (s : str) : strip_by p (strip_by p s) = strip_by p s.
Proof.
  unfold strip_by.
  destruct (lstrip_by_cases s) as [E | (c & t & E & Hc)]; rewrite E.
  - reflexivity.
  - rewrite rstrip_by_cons by exact Hc.
    rewrite lstrip_by_head by exact Hc.
    rewrite <- rstrip_by_cons by exact Hc.
    apply rstrip_by_idem.
Qed.

(** A trimmed string neither starts nor ends with a trimmed character. *)
Lemma strip_by_first (s : str) (c : ascii) (t : str) :
  strip_by p s = c :: t -> p c = false.
Proof.
  unfold strip_by.
  destruct (lstrip_by_cases s) as [E | (a & u & E & Ha)]; rewrite E.
  - discriminate.
  - rewrite rstrip_by_cons by exact Ha. intro H. inversion H; subst. exact Ha.
Qed.

Lemma rstrip_by_last (s t : str) (c : ascii) :
  rstrip_by p s = t ++ [c] -> p c = false.
Proof.
  unfold rstrip_by. intro H.
  apply (f_equal (@rev ascii)) in H.
  rewrite rev_involutive, rev_app_distr in H. simpl in H.
  destruct (lstrip_by_cases (rev s)) as [E | (a & u & E & Ha)];
    rewrite E in H; [discriminate|].
  inversion H; subst. exact Ha.
Qed.

Lemma strip_by_last (s t : str) (c : ascii) :
  strip_by p s = t ++ [c] -> p c = false.
Proof. unfold strip_by. apply rstrip_by_last. Qed.

End Trimming.

(** ** The line classifier *)

Section LineClassifier.
Import PyStr Regex Adaptive Spec.

Lemma strip_idem (s : str) : strip (strip s) = strip s.
Proof. apply strip_by_idem. Qed.

(** [detect_heading] holds exactly under the conditions of a heading. *)
Lemma detect_heading_iff (text : str) (font_size : option Q) (is_bold : bool) :
  detect_heading text font_size is_bold = true <->
  heading_conditions (strip text) font_size is_bold.
Proof.
  unfold detect_heading, heading_conditions, salient.
  destruct (strip text) as [|c t] eqn:E.
  - simpl. split; [discriminate | intros [H _]; congruence].
  - cbn [is_nil].
    destruct (List.length (c :: t) <? 80) eqn:L.
    + apply Nat.ltb_lt in L.
      destruct (isupper (c :: t) && (3 <? List.length (c :: t))) eqn:U.
      * apply andb_true_iff in U. destruct U as [U1 U2].
        apply Nat.ltb_lt in U2.
        split; [intros _ | reflexivity].
        split; [discriminate|]. split; [exact L|]. left. split; assumption.
      * destruct is_bold.
        { split; [intros _ | reflexivity].
          split; [discriminate|]. split; [exact L|]. right. left. reflexivity. }
        destruct font_size as [f|].
        { rewrite andb_true_iff, truthy_nonzero, Qltb_lt. split.
          - intros [_ H]. split; [discriminate|]. split; [exact L|].
            right. right. exists f. split; [reflexivity | exact H].
          - intros (_ & _ & [[U1 U2] | [B | (f' & F & H)]]).
            + apply Nat.ltb_lt in U2. rewrite U1, U2 in U. discriminate.
            + discriminate.
            + inversion F; subst f'. split; [|exact H].
              intro Z. rewrite Z in H. discriminate H. }
        { split; [discriminate|].
          intros (_ & _ & [[U1 U2] | [B | (f' & F & H)]]).
          - apply Nat.ltb_lt in U2. rewrite U1, U2 in U. discriminate.
          - discriminate.
          - discriminate. }
    + apply Nat.ltb_ge in L. split; [discriminate|].
      intros (_ & L' & _). lia.
Qed.

(** C10, as the specification states it, fails: the classifier is not
    total.  A line whose trimmed text is empty is skipped by the line
    loop and is given no tag at all, Paragraph included. *)
Lemma classify_not_total :
  let blank := mkTextLine (lit "   ") 0 None true in
  classify (line_info blank) = None /\
  ~ (exists tag, classify (line_info blank) = Some tag).
Proof.
  split; [reflexivity|].
  intros [tag H]. discriminate H.
Qed.

(** C10, amended.  A line has no tag exactly when its trimmed text is
    empty.  It is tagged Heading exactly when its trimmed text is
    non-empty, shorter than 80 characters, and upper-case and longer
    than 3 characters, or bold, or of font size above 12.  On every
    other line with a non-empty trimmed text the tests run in the order
    KeyValue, ListItem, with Paragraph as the default, and the first
    that holds gives the tag. *)
Theorem classify_spec (l : TextLine) :
  let text := strip (tl_text l) in
  let is_heading :=
    heading_conditions text (tl_font_size l) (tl_is_bold l) in
  (classify (line_info l) = None <-> text = []) /\
  (classify (line_info l) = Some Heading <-> is_heading) /\
  (classify (line_info l) = Some KeyValue <->
   text <> [] /\ ~ is_heading /\ looks_key_value text = true) /\
  (classify (line_info l) = Some ListItem <->
   text <> [] /\ ~ is_heading /\ looks_key_value text = false /\
   looks_list_item text = true) /\
  (classify (line_info l) = Some Paragraph <->
   text <> [] /\ ~ is_heading /\ looks_key_value text = false /\
   looks_list_item text = false).
Proof.
  intros text is_heading.
  pose proof (detect_heading_iff (tl_text l) (tl_font_size l) (tl_is_bold l))
    as D.
  fold text in D. fold is_heading in D.
  unfold classify, line_info. cbn [l_text l_is_heading].
  rewrite strip_idem. fold text.
  assert (Hempty : is_heading -> text <> []) by (intros [H _]; exact H).
  destruct text as [|c t] eqn:E.
  - cbn [is_nil].
    (split; [|split; [|split; [|split]]]);
        (split; intro; intuition (try congruence)).
  - cbn [is_nil].
    destruct (detect_heading (tl_text l) (tl_font_size l) (tl_is_bold l)).
    + assert (Hh : is_heading) by (apply D; reflexivity).
      (split; [|split; [|split; [|split]]]);
        (split; intro; intuition (try congruence)).
    + assert (Hn : ~ is_heading) by (intro Hh; apply D in Hh; discriminate).
      destruct (looks_key_value (c :: t)); destruct (looks_list_item (c :: t));
        (split; [|split; [|split; [|split]]]);
        (split; intro; intuition (try congruence)).
Qed.

End LineClassifier.

(** ** Section keys *)

Section SectionKeys.
Import PyStr Regex Dict Adaptive Spec.

(** C7.  The heading [PLOT<TAB>DETAILS] is upper-case, so it is taken
    for a heading; its key keeps the tab, which is neither a lower-case
    letter, a digit nor an underscore.  The key fails the shape
    [^[a-z0-9_]+$], and it is stored as such in the section mapping. *)
Theorem normalize_section_name_keeps_tab :
  let heading := (lit "PLOT" ++ [tab] ++ lit "DETAILS")%list in
  let line := line_info (mkTextLine heading 0 None false) in
  l_is_heading line = true /\
  normalize_section_name heading = (lit "plot" ++ [tab] ++ lit "details")%list /\
  spec_key_shape (normalize_section_name heading) = false /\
  keys (sections (build_json_structure (lit "a.pdf") [] [mkPageData 1 [line]]
                    [] false))
  = [(lit "plot" ++ [tab] ++ lit "details")%list].
Proof. repeat split; reflexivity. Qed.

(** The two headings of the specification share one key. *)
Lemma normalize_project_description :
  normalize_section_name (lit "Project Description!!") = lit "project_description" /\
  normalize_section_name (lit "PROJECT DESCRIPTION") = lit "project_description" /\
  normalize_section_name (lit "!!") = lit "unnamed_section" /\
  spec_key_shape (lit "project_description") = true.
Proof. repeat split; reflexivity. Qed.

(** A key is never empty. *)
Lemma normalize_section_name_nonempty (heading : str) :
  normalize_section_name heading <> [].
Proof.
  unfold normalize_section_name.
  match goal with |- (if is_nil ?c then _ else _) <> _ =>
    destruct c eqn:E end; simpl; discriminate.
Qed.

Lemma startswith_one (a c : ascii) (k : str) :
  startswith [a] (c :: k) = chr_eqb c a.
Proof.
  cbn [startswith]. rewrite andb_true_r. apply Ascii.eqb_sym.
Qed.

(** A key neither starts nor ends with an underscore. *)
Lemma normalize_section_name_no_outer_underscore (heading : str) :
  startswith [underscore] (normalize_section_name heading) = false /\
  startswith [underscore] (rev (normalize_section_name heading)) = false.
Proof.
  unfold normalize_section_name.
  match goal with |- context [is_nil ?c] => remember c as k eqn:E end.
  destruct k as [|c k]; [split; reflexivity|].
  cbn [is_nil]. symmetry in E. split.
  - apply strip_by_first in E. rewrite startswith_one. exact E.
  - destruct (rev (c :: k)) as [|d r] eqn:R; [reflexivity|].
    assert (Hk : c :: k = (rev r ++ [d])%list).
    { rewrite <- (rev_involutive (c :: k)), R. reflexivity. }
    rewrite Hk in E. apply strip_by_last in E.
    rewrite startswith_one. exact E.
Qed.

End SectionKeys.

(** ** Rows derived from tables *)

Section TableRows.
Import PyStr Regex Dict Adaptive Extract Spec.
Local Open Scope string_scope.

(** C6.  A table read from a grid with a header row and two data rows
    keeps the two data rows (the header row is already removed), yet
    only the second one reaches [plot_types]: the row loop drops the
    first row of the data.  A table with a single data row contributes
    nothing, whatever the row holds.  The same holds for [plots]. *)
Theorem first_data_row_is_dropped :
  (let grid := [cells ["Plot Type"; "Number of Sites"; "Total Area"];
                cells ["Villa"; "5"; "1200"];
                cells ["Row House"; "3"; "900"]] in
   exists t, classify_table 1 0 grid = Some t /\
     has_header t = true /\ row_count t = 2%nat /\
     plot_types_of_table t
     = Ok [mkPlotType [] (lit "Row House") 3%Z 900%Z]) /\
  (forall (page_num idx rc : nat) (row : dict str),
     plot_types_of_table (mkTable page_num idx true [RowDict row] rc)
     = Ok []) /\
  (let grid := [cells ["Plot No."; "North Schedule"];
                cells ["12"; "Road"];
                cells ["13"; "Park"]] in
   exists t, classify_table 1 0 grid = Some t /\
     has_header t = true /\ row_count t = 2%nat /\
     option_map (map pl_plot_no)
       (match plots_of_table t with Ok ps => Some ps | Raise _ => None end)
     = Some [lit "13"]) /\
  (forall (page_num idx rc : nat) (row : dict str),
     plots_of_table (mkTable page_num idx true [RowDict row] rc) = Ok []).
Proof.
  split; [eexists; repeat split; reflexivity|].
  split.
  { intros. unfold plot_types_of_table. cbn.
    destruct (is_plot_type_table (keys row)); reflexivity. }
  split; [eexists; repeat split; reflexivity|].
  intros. unfold plots_of_table. cbn.
  destruct (is_plot_table (keys row)); reflexivity.
Qed.

End TableRows.

(** ** The sources of a field *)

Section FieldSources.
Import PyStr Regex Dict Adaptive Extract Spec.
Local Open Scope string_scope.




End FieldSources.

(** ** The coordinate resolver *)

Section CoordinateResolver.
Import PyStr Regex Dict Adaptive Extract Spec.
Local Open Scope string_scope.







(** The exception of a boundary field is not held back by an accepted
    pair: here both direct fields are accepted and the resolver raises. *)
Lemma malformed_boundary_field_raises :
  let kv := [(lit "latitude", lit "13.25"); (lit "longitude", lit "77.5");
             (lit "north_latitude", lit "1.2.3")] in
  direct_field (lit "latitude") (lit "lat") kv = Ok (Some (53 # 4)) /\
  direct_field (lit "longitude") (lit "lon") kv = Ok (Some (155 # 2)) /\
  resolve_coordinates kv [] = Raise ValueError.
Proof. repeat split; reflexivity. Qed.

End CoordinateResolver.

(** ** Dictionaries *)

Section DictFacts.
Import PyStr Dict Adaptive.

Lemma str_eqb_eq (s t : str) : str_eqb s t = true <-> s = t.
Proof.
  revert t. induction s as [|a s IH]; intros [|b t]; simpl;
    try (split; congruence).
  unfold chr_eqb. rewrite andb_true_iff, Ascii.eqb_eq, IH.
  split; [intros [-> ->]; reflexivity | intro H; inversion H; auto].
Qed.

Lemma str_eqb_refl (s : str) : str_eqb s s = true.
Proof. apply str_eqb_eq. reflexivity. Qed.

Lemma str_eqb_neq (s t : str) : str_eqb s t = false <-> s <> t.
Proof.
  rewrite <- str_eqb_eq. destruct (str_eqb s t); split; congruence.
Qed.

Context {V : Type}.

Lemma get_set_same (k : str) (v : V) (d : dict V) :
  get k (set k v d) = Some v.
Proof.
  induction d as [|[k' v'] d IH]; simpl.
  - rewrite str_eqb_refl. reflexivity.
  - destruct (str_eqb k k') eqn:E; simpl; rewrite E; [reflexivity | exact IH].
Qed.

Lemma get_set_other (k k' : str) (v : V) (d : dict V) :
  k <> k' -> get k (set k' v d) = get k d.
Proof.
  intro N. induction d as [|[k2 v2] d IH]; simpl.
  - apply str_eqb_neq in N. rewrite N. reflexivity.
  - destruct (str_eqb k' k2) eqn:E; simpl.
    + apply str_eqb_eq in E. subst k2.
      apply str_eqb_neq in N. rewrite N. reflexivity.
    + rewrite IH. reflexivity.
Qed.

Lemma get_modify_same (k : str) (f : V -> V) (d : dict V) :
  get k (modify k f d) = option_map f (get k d).
Proof.
  induction d as [|[k' v'] d IH]; simpl; [reflexivity|].
  destruct (str_eqb k k') eqn:E; simpl; rewrite E; [reflexivity | exact IH].
Qed.

Lemma get_modify_other (k k' : str) (f : V -> V) (d : dict V) :
  k <> k' -> get k (modify k' f d) = get k d.
Proof.
  intro N. induction d as [|[k2 v2] d IH]; simpl; [reflexivity|].
  destruct (str_eqb k' k2) eqn:E; simpl.
  - apply str_eqb_eq in E. subst k2.
    apply str_eqb_neq in N. rewrite N. reflexivity.
  - rewrite IH. reflexivity.
Qed.

Lemma keys_modify (k : str) (f : V -> V) (d : dict V) :
  keys (modify k f d) = keys d.
Proof.
  unfold keys. induction d as [|[k' v'] d IH]; simpl; [reflexivity|].
  destruct (str_eqb k k'); simpl; [reflexivity | rewrite IH; reflexivity].
Qed.

Lemma get_none_not_in (k : str) (d : dict V) :
  get k d = None <-> ~ In k (keys d).
Proof.
  unfold keys. induction d as [|[k' v'] d IH]; simpl; [tauto|].
  destruct (str_eqb k k') eqn:E.
  - apply str_eqb_eq in E. subst. split; [discriminate | intro H; tauto].
  - apply str_eqb_neq in E. rewrite IH. split; [intros H [H'|H']; auto | tauto].
Qed.

Lemma keys_set_new (k : str) (v : V) (d : dict V) :
  get k d = None -> keys (set k v d) = (keys d ++ [k])%list.
Proof.
  unfold keys. induction d as [|[k' v'] d IH]; simpl; [reflexivity|].
  destruct (str_eqb k k'); [discriminate|].
  intro H. simpl. rewrite IH by exact H. reflexivity.
Qed.

Lemma mem_get (k : str) (d : dict V) :
  mem k d = true <-> exists v, get k d = Some v.
Proof.
  unfold mem. destruct (get k d) as [v|].
  - split; [intros _; exists v; reflexivity | reflexivity].
  - split; [discriminate | intros [v H]; discriminate].
Qed.

Lemma mem_false_get (k : str) (d : dict V) :
  mem k d = false <-> get k d = None.
Proof. unfold mem. destruct (get k d); split; congruence. Qed.

Lemma Forall_modify (P : V -> Prop) (k : str) (f : V -> V) (d : dict V) :
  (forall v, P v -> P (f v)) ->
  Forall (fun kv => P (snd kv)) d ->
  Forall (fun kv => P (snd kv)) (modify k f d).
Proof.
  intros Hf. induction 1 as [|[k' v'] d Hv Hd IH]; simpl; [constructor|].
  simpl in Hv. destruct (str_eqb k k'); constructor; simpl; auto.
Qed.

Lemma Forall_set (P : V -> Prop) (k : str) (v : V) (d : dict V) :
  P v ->
  Forall (fun kv => P (snd kv)) d ->
  Forall (fun kv => P (snd kv)) (set k v d).
Proof.
  intros Hv. induction 1 as [|[k' v'] d Hv' Hd IH]; simpl.
  - constructor; [exact Hv | constructor].
  - simpl in Hv'. destruct (str_eqb k k'); constructor; simpl; auto.
Qed.

End DictFacts.

(** ** The section assembler *)

Section Assembler.
Import PyStr Regex Dict Adaptive Spec Inv.
Local Open Scope string_scope.

Lemma fold_left_rel {S A : Type} (R : S -> S -> Prop) (f : S -> A -> S) :
  (forall s, R s s) ->
  (forall s1 s2 s3, R s1 s2 -> R s2 s3 -> R s1 s3) ->
  (forall s x, R s (f s x)) ->
  forall l s, R s (fold_left f l s).
Proof.
  intros Hr Ht Hf l. induction l as [|x l IH]; intro s; simpl.
  - apply Hr.
  - eapply Ht; [apply Hf | apply IH].
Qed.

Lemma set_sections_same (r : Document) : set_sections r (sections r) = r.
Proof. destruct r. reflexivity. Qed.

Section Stable.
Variable R : Document -> Document -> Prop.

Lemma store_kv_stable (HR : line_stable R) (st : Asm * PageSt)
    (kv : str * str) :
  R (result (fst st)) (result (fst (store_kv st kv))).
Proof.
  destruct st as [a ps], kv as [k v]. simpl.
  destruct (current_section_key a); simpl.
  - apply (st_add_kv HR).
  - apply (st_top_kv HR).
Qed.

Lemma line_step_stable (HR : line_stable R) (st : Asm * PageSt)
    (line : LineInfo) :
  R (result (fst st)) (result (fst (line_step st line))).
Proof.
  destruct st as [a ps]. unfold line_step.
  destruct (classify line) as [[| | |]|]; cbn [fst result].
  - destruct (mem _ (sections (result a))) eqn:M.
    + rewrite set_sections_same. apply (st_refl HR).
    + apply (st_new_section HR). apply mem_false_get. exact M.
  - refine (fold_left_rel
              (fun s s' => R (result (fst s)) (result (fst s')))
              store_kv _ _ _ _ (a, ps)).
    + intro s. apply (st_refl HR).
    + intros s1 s2 s3. apply (st_trans HR).
    + intros s x. apply store_kv_stable. exact HR.
  - apply (st_refl HR).
  - apply (st_refl HR).
  - apply (st_refl HR).
Qed.

Lemma lines_stable (HR : line_stable R) (lines : list LineInfo)
    (st : Asm * PageSt) :
  R (result (fst st)) (result (fst (fold_left line_step lines st))).
Proof.
  refine (fold_left_rel (fun s s' => R (result (fst s)) (result (fst s')))
            line_step _ _ _ lines st).
  - intro s. apply (st_refl HR).
  - intros s1 s2 s3. apply (st_trans HR).
  - intros s x. apply line_step_stable. exact HR.
Qed.

Lemma place_paragraph_stable (HR : page_stable R) (n : nat) (a : Asm)
    (para : str) :
  R (result a) (result (place_paragraph n a para)).
Proof.
  unfold place_paragraph. destruct (current_section_key a); simpl.
  - apply (st_add_content HR).
  - apply (st_unstructured HR).
Qed.

Lemma page_finish_stable (HR : page_stable R) (n : nat) (st : Asm * PageSt) :
  R (result (fst st)) (result (page_finish n st)).
Proof.
  destruct st as [a ps]. unfold page_finish. cbn [fst result].
  eapply (st_trans (st_lines HR)); [|apply (st_pages HR)].
  refine (fold_left_rel (fun x y => R (result x) (result y))
            (place_paragraph n) _ _ _ _ a).
  - intro s. apply (st_refl (st_lines HR)).
  - intros s1 s2 s3. apply (st_trans (st_lines HR)).
  - intros s x. apply place_paragraph_stable. exact HR.
Qed.

Lemma page_step_stable (HR : page_stable R) (a : Asm) (pd : PageData) :
  R (result a) (result (page_step a pd)).
Proof.
  unfold page_step.
  eapply (st_trans (st_lines HR)); [|apply page_finish_stable; exact HR].
  apply (lines_stable (st_lines HR) (pd_lines pd)
           (a, page_start (pd_page_number pd))).
Qed.

Lemma pages_stable (HR : page_stable R) (pages : list PageData) (a : Asm) :
  R (result a) (result (fold_left page_step pages a)).
Proof.
  refine (fold_left_rel (fun x y => R (result x) (result y))
            page_step _ _ _ pages a).
  - intro s. apply (st_refl (st_lines HR)).
  - intros s1 s2 s3. apply (st_trans (st_lines HR)).
  - intros s x. apply page_step_stable. exact HR.
Qed.

End Stable.

Lemma keeps_keys_modify (r : Document) (key : str) (f : Section -> Section) :
  keeps_keys r (set_sections r (modify key f (sections r))).
Proof.
  intros k M. destruct r; cbn [sections set_sections] in *.
  apply mem_get in M. destruct M as [v G]. apply mem_get.
  destruct (str_eqb k key) eqn:E.
  - apply str_eqb_eq in E. subst key.
    rewrite get_modify_same, G. eexists; reflexivity.
  - apply str_eqb_neq in E. rewrite get_modify_other by exact E.
    exists v. exact G.
Qed.

Lemma keeps_keys_stable : page_stable keeps_keys.
Proof.
  split; [split|..].
  - intros r k M. exact M.
  - intros r1 r2 r3 H1 H2 k M. auto.
  - intros r key text _ k M. destruct r; cbn [sections set_sections] in *.
    apply mem_get in M. destruct M as [v G]. apply mem_get.
    destruct (str_eqb k key) eqn:E.
    + apply str_eqb_eq in E. subst key. rewrite get_set_same.
      eexists; reflexivity.
    + apply str_eqb_neq in E. rewrite get_set_other by exact E.
      exists v. exact G.
  - intros r key k v. apply keeps_keys_modify.
  - intros r k v k0 M. destruct r; exact M.
  - intros r key para. apply keeps_keys_modify.
  - intros r n para k M. destruct r; exact M.
  - intros r ps k M. destruct r; exact M.
Qed.

Lemma extends_refl (r : Document) : extends r r.
Proof.
  intros key s G. exists s. split; [exact G|]. split; [reflexivity|].
  exists []. rewrite app_nil_r. reflexivity.
Qed.

Lemma extends_same_sections (r r' : Document) :
  sections r' = sections r -> extends r r'.
Proof.
  intros E key s G. exists s. rewrite E.
  split; [exact G|]. split; [reflexivity|].
  exists []. rewrite app_nil_r. reflexivity.
Qed.

Lemma extends_trans (r1 r2 r3 : Document) :
  extends r1 r2 -> extends r2 r3 -> extends r1 r3.
Proof.
  intros H1 H2 key s G.
  destruct (H1 key s G) as (s2 & G2 & Hh2 & m2 & Hc2).
  destruct (H2 key s2 G2) as (s3 & G3 & Hh3 & m3 & Hc3).
  exists s3. split; [exact G3|]. split; [congruence|].
  exists (m2 ++ m3)%list. rewrite Hc3, Hc2, app_assoc. reflexivity.
Qed.

Lemma extends_modify (r : Document) (key : str) (f : Section -> Section) :
  (forall s, heading (f s) = heading s /\
             exists more, content (f s) = (content s ++ more)%list) ->
  extends r (set_sections r (modify key f (sections r))).
Proof.
  intros Hf k s G. destruct r; cbn [sections set_sections] in *.
  destruct (str_eqb k key) eqn:E.
  - apply str_eqb_eq in E. subst key.
    exists (f s). rewrite get_modify_same, G. split; [reflexivity|].
    apply Hf.
  - apply str_eqb_neq in E. rewrite get_modify_other by exact E.
    exists s. split; [exact G|]. split; [reflexivity|].
    exists []. rewrite app_nil_r. reflexivity.
Qed.

Lemma extends_stable : page_stable extends.
Proof.
  split; [split|..].
  - apply extends_refl.
  - apply extends_trans.
  - intros r key text N k s G. destruct r; cbn [sections set_sections] in *.
    assert (Hne : k <> key) by (intro; subst; congruence).
    rewrite get_set_other by exact Hne.
    exists s. split; [exact G|]. split; [reflexivity|].
    exists []. rewrite app_nil_r. reflexivity.
  - intros r key k v. apply extends_modify.
    intro s. split; [reflexivity|]. exists []. simpl.
    rewrite app_nil_r. reflexivity.
  - intros r k v. apply extends_same_sections. destruct r; reflexivity.
  - intros r key para. apply extends_modify.
    intro s. split; [reflexivity|]. exists [para]. reflexivity.
  - intros r n para. apply extends_same_sections. destruct r; reflexivity.
  - intros r ps. apply extends_same_sections. destruct r; reflexivity.
Qed.

Lemma distinct_keys_stable : page_stable (preserves distinct_keys).
Proof.
  unfold preserves, distinct_keys.
  split; [split|..]; try (intros; destruct r; assumption).
  - intros r1 r2 r3 H1 H2 H. auto.
  - intros r key text N H. destruct r; cbn [sections set_sections] in *.
    rewrite keys_set_new by exact N.
    apply NoDup_app; [exact H | constructor; [intros [] | constructor] |].
    intros a Ha [<-|[]]. apply get_none_not_in in N. contradiction.
  - intros r key k v H. destruct r; cbn [sections set_sections] in *.
    rewrite keys_modify. exact H.
  - intros r key para H. destruct r; cbn [sections set_sections] in *.
    rewrite keys_modify. exact H.
Qed.

Lemma no_tables_stable : page_stable (preserves no_tables).
Proof.
  unfold preserves, no_tables.
  split; [split|..]; try (intros; destruct r; assumption).
  - intros r1 r2 r3 H1 H2 H. auto.
  - intros r key text N H. destruct r; cbn [sections set_sections] in *.
    apply (Forall_set (fun s => tables s = [])); [reflexivity | exact H].
  - intros r key k v H. destruct r; cbn [sections set_sections] in *.
    apply (Forall_modify (fun s => tables s = [])); [|exact H].
    intros s Hs. exact Hs.
  - intros r key para H. destruct r; cbn [sections set_sections] in *.
    apply (Forall_modify (fun s => tables s = [])); [|exact H].
    intros s Hs. exact Hs.
Qed.

Lemma same_detected_stable : page_stable same_detected.
Proof.
  unfold same_detected.
  split; [split|..]; try (intros; destruct r; reflexivity).
  intros r1 r2 r3 H1 H2. congruence.
Qed.

(** *** Tables and sections *)

Lemma associate_tables_nil (ts : list Table) : associate_tables ts [] = [].
Proof. induction ts as [|t ts IH]; [reflexivity | exact IH]. Qed.

(** Every table goes to the first section of the mapping. *)
Lemma associate_tables_first (ts : list Table) (k : str) (s : Section)
    (rest : dict Section) :
  associate_tables ts ((k, s) :: rest)
  = (k, mkSection (heading s) (content s) (s_key_value_pairs s)
          (tables s ++ ts)) :: rest.
Proof.
  revert s. induction ts as [|t ts IH]; intro s.
  - destruct s. simpl. rewrite app_nil_r. reflexivity.
  - unfold associate_tables in *. cbn [fold_left offer_table negb].
    rewrite IH. cbn [add_table heading content s_key_value_pairs tables].
    rewrite <- app_assoc. reflexivity.
Qed.

Lemma keys_associate_tables (ts : list Table) (ss : dict Section) :
  keys (associate_tables ts ss) = keys ss.
Proof.
  destruct ss as [|[k s] rest].
  - rewrite associate_tables_nil. reflexivity.
  - rewrite associate_tables_first. reflexivity.
Qed.

Lemma mem_associate_tables (ts : list Table) (ss : dict Section) (k : str) :
  mem k (associate_tables ts ss) = mem k ss.
Proof.
  destruct ss as [|[k0 s] rest].
  - rewrite associate_tables_nil. reflexivity.
  - rewrite associate_tables_first. unfold mem. simpl.
    destruct (str_eqb k k0); reflexivity.
Qed.

Lemma sections_set_sections (r : Document) (ss : dict Section) :
  sections (set_sections r ss) = ss.
Proof. reflexivity. Qed.

(** C1, as the specification states it, fails.  With two sections and
    two tables the first section receives both tables and the second
    none, where the specified rule gives each section one. *)
Lemma first_section_takes_every_table :
  let t1 := mkTable 1 0 false [] 0 in
  let t2 := mkTable 2 0 false [] 0 in
  let pages := [mkPageData 1 [plain_line "FIRST PART"; plain_line "SECOND PART"]] in
  let d := build_json_structure (lit "a.pdf") [] pages [t1; t2] false in
  let before :=
    sections (result (fold_left page_step pages
                        (initial_asm (lit "a.pdf") [] [t1; t2] false))) in
  map (fun ks => (fst ks, tables (snd ks))) (sections d)
  = [(lit "first_part", [t1; t2]); (lit "second_part", [])] /\
  map (fun ks => (fst ks, tables (snd ks)))
      (spec_associate_tables [t1; t2] before)
  = [(lit "first_part", [t1]); (lit "second_part", [t2])].
Proof. split; reflexivity. Qed.

(** C1, amended.  Every table stays in the document-level list, and
    when the document has a section, every table is also appended, in
    order, to the first section of the mapping's iteration order; no
    other section receives a table.  With no section the tables stay in
    the document-level list only. *)
Theorem tables_go_to_first_section (pdf_name : str) (raw : list str)
    (pages : list PageData) (ts : list Table) (scanned : bool) :
  let d := build_json_structure pdf_name raw pages ts scanned in
  detected_tables d = ts /\
  match sections d with
  | [] => True
  | (k, s) :: rest =>
      tables s = ts /\ Forall (fun ks => tables (snd ks) = []) rest
  end.
Proof.
  intro d. subst d. unfold build_json_structure.
  set (a0 := initial_asm pdf_name raw ts scanned).
  pose proof (pages_stable _ same_detected_stable pages a0) as HD.
  pose proof (pages_stable _ no_tables_stable pages a0) as HT.
  unfold same_detected in HD. unfold preserves, no_tables in HT.
  specialize (HT (Forall_nil _)).
  set (a := fold_left page_step pages a0) in *.
  split.
  - destruct (result a). exact HD.
  - rewrite sections_set_sections.
    destruct (sections (result a)) as [|[k s] rest].
    + rewrite associate_tables_nil. exact I.
    + rewrite associate_tables_first. inversion HT as [|x l Hs Hrest]; subst.
      simpl in Hs. cbn [tables]. rewrite Hs. split; [reflexivity | exact Hrest].
Qed.

(** *** One section per key *)

Lemma line_step_heading (a : Asm) (ps : PageSt) (line : LineInfo) :
  classify line = Some Heading ->
  let key := normalize_section_name (strip (l_text line)) in
  let st' := line_step (a, ps) line in
  mem key (sections (result (fst st'))) = true /\
  current_section_key (fst st') = Some key /\
  (mem key (sections (result a)) = true ->
   sections (result (fst st')) = sections (result a)).
Proof.
  intros H key st'. subst st'. unfold line_step. rewrite H.
  cbn [fst result current_section_key]. fold key.
  rewrite sections_set_sections.
  destruct (mem key (sections (result a))) eqn:M.
  - repeat split; auto.
  - split; [|split; [reflexivity | discriminate]].
    apply mem_get. rewrite get_set_same. eexists; reflexivity.
Qed.

Lemma heading_key_after_page (a : Asm) (pd : PageData) (line : LineInfo) :
  In line (pd_lines pd) -> classify line = Some Heading ->
  mem (normalize_section_name (strip (l_text line)))
      (sections (result (page_step a pd))) = true.
Proof.
  intros Hin Hc. unfold page_step.
  destruct (in_split _ _ Hin) as (l1 & l2 & E). rewrite E.
  rewrite fold_left_app. cbn [fold_left].
  set (st1 := fold_left line_step l1 (a, page_start (pd_page_number pd))).
  destruct st1 as [a1 ps1] eqn:E1.
  destruct (line_step_heading a1 ps1 line Hc) as (M & _ & _).
  apply (page_finish_stable _ keeps_keys_stable).
  apply (lines_stable _ (st_lines keeps_keys_stable) l2).
  exact M.
Qed.

(** *** Where the paragraphs of a page go *)

Lemma same_content_stable : line_stable same_content.
Proof.
  split.
  - intro r. split; [reflexivity|]. split; [reflexivity|]. split.
    + intros key s G. exists s. split; [exact G | reflexivity].
    + intros key s G N. cbn [sections set_sections set_key_value_pairs] in *. congruence.
  - intros r1 r2 r3 (U1 & P1 & K1 & N1) (U2 & P2 & K2 & N2).
    split; [congruence|]. split; [congruence|]. split.
    + intros key s G. destruct (K1 key s G) as (s2 & G2 & C2).
      destruct (K2 key s2 G2) as (s3 & G3 & C3).
      exists s3. split; [exact G3 | congruence].
    + intros key s3 G3 N.
      destruct (get key (sections r2)) as [s2|] eqn:G2.
      * destruct (K2 key s2 G2) as (s3' & G3' & C3).
        rewrite G3 in G3'. inversion G3'; subst s3'.
        rewrite C3. exact (N1 key s2 G2 N).
      * exact (N2 key s3 G3 G2).
  - intros r key text N. destruct r; cbn [sections set_sections] in *.
    split; [reflexivity|]. split; [reflexivity|]. split.
    + intros k s G. cbn [sections set_sections set_key_value_pairs] in *.
      assert (Hne : k <> key) by (intro; subst; congruence).
      rewrite get_set_other by exact Hne.
      exists s. split; [exact G | reflexivity].
    + intros k s' G' N'. cbn [sections set_sections set_key_value_pairs] in *.
      destruct (str_eqb k key) eqn:E.
      * apply str_eqb_eq in E. subst k. rewrite get_set_same in G'.
        inversion G'. reflexivity.
      * apply str_eqb_neq in E. rewrite get_set_other in G' by exact E.
        congruence.
  - intros r key k v. destruct r; cbn [sections set_sections] in *.
    split; [reflexivity|]. split; [reflexivity|]. cbn [sections]. split.
    + intros k0 s G. cbn [sections set_sections set_key_value_pairs] in *. destruct (str_eqb k0 key) eqn:E.
      * apply str_eqb_eq in E. subst k0. rewrite get_modify_same, G.
        eexists. split; reflexivity.
      * apply str_eqb_neq in E. rewrite get_modify_other by exact E.
        exists s. split; [exact G | reflexivity].
    + intros k0 s' G' N'. cbn [sections set_sections set_key_value_pairs] in *.
      destruct (str_eqb k0 key) eqn:E.
      * apply str_eqb_eq in E. subst k0. rewrite get_modify_same, N' in G'.
        discriminate.
      * apply str_eqb_neq in E. rewrite get_modify_other in G' by exact E.
        congruence.
  - intros r k v. destruct r.
    split; [reflexivity|]. split; [reflexivity|]. cbn [sections set_key_value_pairs].
    split.
    + intros key s G. exists s. split; [exact G | reflexivity].
    + intros key s G N. cbn [sections set_sections set_key_value_pairs] in *. congruence.
Qed.

Lemma add_contents_nil (s : Section) : add_contents [] s = s.
Proof. destruct s. unfold add_contents. simpl. rewrite app_nil_r. reflexivity. Qed.

Lemma add_contents_cons (p : str) (ps : list str) (s : Section) :
  add_contents ps (add_content p s) = add_contents (p :: ps) s.
Proof.
  unfold add_contents, add_content. simpl. rewrite <- app_assoc. reflexivity.
Qed.

(** With a current section, the paragraphs all go to its content. *)
Lemma place_all_some (n : nat) (paras : list str) (a : Asm) (key : str) :
  current_section_key a = Some key ->
  let a' := fold_left (place_paragraph n) paras a in
  current_section_key a' = Some key /\
  unstructured_text (result a') = unstructured_text (result a) /\
  extracted_pages (result a') = extracted_pages (result a) /\
  get key (sections (result a'))
  = option_map (add_contents paras) (get key (sections (result a))) /\
  (forall k, k <> key ->
     get k (sections (result a')) = get k (sections (result a))).
Proof.
  revert a. induction paras as [|p paras IH]; intros a Hc; cbn [fold_left].
  - repeat split; auto.
    destruct (get key (sections (result a))); simpl;
      [rewrite add_contents_nil|]; reflexivity.
  - assert (Hc' : current_section_key (place_paragraph n a p) = Some key).
    { unfold place_paragraph. rewrite Hc. reflexivity. }
    destruct (IH _ Hc') as (I1 & I2 & I3 & I4 & I5).
    assert (Hr : result (place_paragraph n a p)
                 = set_sections (result a)
                     (modify key (add_content p) (sections (result a)))).
    { unfold place_paragraph. rewrite Hc. reflexivity. }
    rewrite Hr in I2, I3, I4, I5.
    split; [exact I1|].
    split; [rewrite I2; destruct (result a); reflexivity|].
    split; [rewrite I3; destruct (result a); reflexivity|].
    rewrite sections_set_sections in I4, I5. split.
    + rewrite I4, get_modify_same.
      destruct (get key (sections (result a))); simpl;
        [rewrite add_contents_cons|]; reflexivity.
    + intros k Hk. rewrite (I5 k Hk). apply get_modify_other. exact Hk.
Qed.

(** With no current section, they all go to [unstructured_text]. *)
Lemma place_all_none (n : nat) (paras : list str) (a : Asm) :
  current_section_key a = None ->
  let a' := fold_left (place_paragraph n) paras a in
  current_section_key a' = None /\
  unstructured_text (result a')
  = (unstructured_text (result a) ++ map (fun p => (n, p)) paras)%list /\
  extracted_pages (result a') = extracted_pages (result a) /\
  sections (result a') = sections (result a).
Proof.
  revert a. induction paras as [|p paras IH]; intros a Hc; cbn [fold_left].
  - repeat split; auto. simpl. rewrite app_nil_r. reflexivity.
  - assert (Hc' : current_section_key (place_paragraph n a p) = None).
    { unfold place_paragraph. rewrite Hc. reflexivity. }
    destruct (IH _ Hc') as (I1 & I2 & I3 & I4).
    assert (Hr : result (place_paragraph n a p)
                 = set_unstructured (result a)
                     (unstructured_text (result a) ++ [(n, p)])).
    { unfold place_paragraph. rewrite Hc. reflexivity. }
    rewrite Hr in I2, I3, I4.
    split; [exact I1|].
    split; [rewrite I2; destruct (result a); simpl;
            rewrite <- app_assoc; reflexivity|].
    split; [rewrite I3; destruct (result a); reflexivity|].
    rewrite I4. destruct (result a); reflexivity.
Qed.




(** *** Reopening a section *)

Lemma store_kvs_current (kvs : list (str * str)) (st : Asm * PageSt) :
  current_section_key (fst (fold_left store_kv kvs st))
  = current_section_key (fst st).
Proof.
  revert st. induction kvs as [|[k v] kvs IH]; intro st; [reflexivity|].
  cbn [fold_left]. rewrite IH. destruct st as [a ps]. reflexivity.
Qed.

Lemma line_step_current (st : Asm * PageSt) (line : LineInfo) :
  current_section_key (fst (line_step st line))
  = if Facts.is_heading_line line
    then Some (normalize_section_name (strip (l_text line)))
    else current_section_key (fst st).
Proof.
  destruct st as [a ps]. unfold line_step, Facts.is_heading_line.
  destruct (classify line) as [[| | |]|]; try reflexivity.
  apply store_kvs_current.
Qed.

Lemma lines_current (lines : list LineInfo) (st : Asm * PageSt) :
  current_section_key (fst (fold_left line_step lines st))
  = fold_left (fun _ t => Some (normalize_section_name t))
      (Facts.heading_texts lines) (current_section_key (fst st)).
Proof.
  revert st. induction lines as [|l lines IH]; intro st; [reflexivity|].
  cbn [fold_left]. rewrite IH, line_step_current.
  unfold Facts.heading_texts. cbn [filter].
  destruct (Facts.is_heading_line l); reflexivity.
Qed.

Lemma line_step_current_is_key (st : Asm * PageSt) (line : LineInfo) :
  current_is_key (fst st) -> current_is_key (fst (line_step st line)).
Proof.
  intros W k Hk. rewrite line_step_current in Hk.
  destruct (Facts.is_heading_line line) eqn:E.
  - injection Hk as Hk. subst k. unfold Facts.is_heading_line in E.
    destruct (classify line) as [[| | |]|] eqn:C; try discriminate E.
    destruct st as [a ps]. exact (proj1 (line_step_heading a ps line C)).
  - apply (line_step_stable _ (st_lines keeps_keys_stable) st line).
    apply W. exact Hk.
Qed.

Lemma lines_current_is_key (lines : list LineInfo) (st : Asm * PageSt) :
  current_is_key (fst st) ->
  current_is_key (fst (fold_left line_step lines st)).
Proof.
  revert st. induction lines as [|l lines IH]; intros st W; [exact W|].
  cbn [fold_left]. apply IH, line_step_current_is_key, W.
Qed.

Lemma page_finish_current (n : nat) (st : Asm * PageSt) :
  current_section_key (page_finish n st) = current_section_key (fst st).
Proof.
  destruct st as [a ps]. unfold page_finish. cbn [current_section_key fst].
  destruct (current_section_key a) as [key|] eqn:Hc.
  - rewrite (proj1 (place_all_some n _ a key Hc)). reflexivity.
  - rewrite (proj1 (place_all_none n _ a Hc)). reflexivity.
Qed.

Lemma page_step_current_is_key (a : Asm) (pd : PageData) :
  current_is_key a -> current_is_key (page_step a pd).
Proof.
  intros W k Hk. unfold page_step in *. rewrite page_finish_current in Hk.
  apply (page_finish_stable _ keeps_keys_stable).
  exact (lines_current_is_key (pd_lines pd) (a, page_start (pd_page_number pd))
           W k Hk).
Qed.

Lemma pages_current_is_key (pages : list PageData) (a : Asm) :
  current_is_key a -> current_is_key (fold_left page_step pages a).
Proof.
  revert a. induction pages as [|pd pages IH]; intros a W; [exact W|].
  cbn [fold_left]. apply IH, page_step_current_is_key, W.
Qed.

(** The pairs of a key-value line all go to the current section. *)
Lemma store_kvs_section (kvs : list (str * str)) (a : Asm) (ps : PageSt)
    (key : str) (s : Section) :
  current_section_key a = Some key ->
  get key (sections (result a)) = Some s ->
  get key (sections (result (fst (fold_left store_kv kvs (a, ps)))))
  = Some (mkSection (heading s) (content s)
            (update (s_key_value_pairs s) kvs) (tables s)).
Proof.
  revert a ps s. induction kvs as [|[k v] kvs IH]; intros a ps s Hc G.
  - cbn [fold_left fst]. rewrite G. destruct s. reflexivity.
  - cbn [fold_left]. unfold store_kv at 2. rewrite Hc.
    rewrite (IH _ _ (add_kv k v s)); [reflexivity | reflexivity |].
    cbn [result]. rewrite sections_set_sections, get_modify_same, G.
    reflexivity.
Qed.

(** At the end of a page the paragraphs of the page are appended to the
    section that is current then, after what it held before the page;
    the other sections keep their content. *)
Lemma page_appends_paragraphs (a : Asm) (pd : PageData) (key : str) :
  current_is_key a ->
  current_section_key
    (fst (fold_left line_step (pd_lines pd)
            (a, page_start (pd_page_number pd)))) = Some key ->
  option_map content (get key (sections (result (page_step a pd))))
  = Some (match get key (sections (result a)) with
          | Some s => content s
          | None => []
          end ++
          paragraphs
            (page_content
               (flush_list
                  (flush_paragraph
                     (snd (fold_left line_step (pd_lines pd)
                             (a, page_start (pd_page_number pd))))))))%list /\
  (forall k s, k <> key -> get k (sections (result a)) = Some s ->
     option_map content (get k (sections (result (page_step a pd))))
     = Some (content s)).
Proof.
  intros W Hk. unfold page_step.
  pose proof (lines_stable _ same_content_stable (pd_lines pd)
                (a, page_start (pd_page_number pd))) as HS.
  pose proof (lines_current_is_key (pd_lines pd)
                (a, page_start (pd_page_number pd)) W) as W1.
  destruct (fold_left line_step (pd_lines pd)
              (a, page_start (pd_page_number pd))) as [a1 ps1].
  cbn [fst snd] in *. destruct HS as (_ & _ & K & N).
  unfold page_finish. cbn [result].
  set (paras := paragraphs (page_content (flush_list (flush_paragraph ps1)))).
  destruct (place_all_some (pd_page_number pd) paras a1 key Hk)
    as (_ & _ & _ & I4 & I5).
  change (sections (set_extracted_pages ?r ?p)) with (sections r).
  pose proof (W1 key Hk) as M. apply mem_get in M. destruct M as [s1 G1].
  split.
  - rewrite I4, G1. cbn [option_map]. unfold add_contents. cbn [content].
    destruct (get key (sections (result a))) as [s|] eqn:G.
    + destruct (K key s G) as (s' & G' & C). rewrite G1 in G'.
      injection G' as G'. subst s'. rewrite C. reflexivity.
    + rewrite (N key s1 G1 G). reflexivity.
  - intros k s Hne G. rewrite (I5 k Hne).
    destruct (K k s G) as (s' & G' & C). rewrite G', <- C. reflexivity.
Qed.

(** C8, as the specification states it, fails.  The two headings below
    have the same key, and the second reopens the one Section; the pair
    of the key-value line that follows it is stored in that Section.
    The paragraph that follows it, however, is not appended to it: a
    third heading comes before the end of the page, and the paragraph
    goes to the Section which that heading opens. *)
Lemma reopened_section_misses_paragraph :
  let pages := [mkPageData 1 [bold_line "Project Description!!";
                              plain_line "The first words."];
                mkPageData 2 [plain_line "PROJECT DESCRIPTION";
                              plain_line "Status: Ongoing";
                              plain_line "The second words.";
                              plain_line "OTHER PART"]] in
  let d := build_json_structure (lit "a.pdf") [] pages [] false in
  normalize_section_name (lit "Project Description!!")
  = lit "project_description" /\
  normalize_section_name (lit "PROJECT DESCRIPTION")
  = lit "project_description" /\
  map (fun ks => (fst ks, content (snd ks), s_key_value_pairs (snd ks)))
      (sections d)
  = [(lit "project_description", [lit "The first words."],
      [(lit "status", lit "Ongoing")]);
     (lit "other_part", [lit "The second words."], [])].
Proof. repeat split; reflexivity. Qed.

(** C8, amended.  Whatever the pages, the section mapping of the
    document has no key twice, and the key of every heading line of the
    document is one of its keys: two headings with the same normalized
    key denote the one Section stored under it.  A heading whose key is
    already there changes nothing in the mapping and makes that Section
    current again.  Across a page every Section already there keeps its
    key and its heading, and its content only grows at its end.  While
    a Section is current, the pairs of a key-value line are stored in
    it at once.  The Section current after the lines of a page is the
    one of the last heading read so far; at the end of the page it
    receives, after what it held before, the paragraphs of the page in
    order, and the other Sections keep their content: what follows a
    reopened heading is appended to the reopened Section when no other
    heading follows on that page, and content accumulates in page
    order. *)
Theorem same_key_same_section (pdf_name : str) (raw : list str)
    (pages : list PageData) (ts : list Table) (scanned : bool) :
  let d := build_json_structure pdf_name raw pages ts scanned in
  distinct_keys d /\
  (forall pd line,
     In pd pages -> In line (pd_lines pd) -> classify line = Some Heading ->
     mem (normalize_section_name (strip (l_text line))) (sections d) = true) /\
  (forall a ps line,
     classify line = Some Heading ->
     mem (normalize_section_name (strip (l_text line)))
         (sections (result a)) = true ->
     sections (result (fst (line_step (a, ps) line))) = sections (result a) /\
     current_section_key (fst (line_step (a, ps) line))
     = Some (normalize_section_name (strip (l_text line)))) /\
  (forall a pd, extends (result a) (result (page_step a pd))) /\
  (forall a ps line key s,
     classify line = Some KeyValue ->
     current_section_key a = Some key ->
     get key (sections (result a)) = Some s ->
     get key (sections (result (fst (line_step (a, ps) line))))
     = Some (mkSection (heading s) (content s)
               (update (s_key_value_pairs s)
                  (extract_key_value_pairs (strip (l_text line))))
               (tables s))) /\
  (forall before pd,
     let a := fold_left page_step before
                (initial_asm pdf_name raw ts scanned) in
     let st := fold_left line_step (pd_lines pd)
                 (a, page_start (pd_page_number pd)) in
     let paras :=
       paragraphs (page_content (flush_list (flush_paragraph (snd st)))) in
     current_section_key (fst st)
     = fold_left (fun _ t => Some (normalize_section_name t))
         (Facts.heading_texts (pd_lines pd)) (current_section_key a) /\
     current_section_key (page_step a pd) = current_section_key (fst st) /\
     forall key,
       current_section_key (fst st) = Some key ->
       option_map content (get key (sections (result (page_step a pd))))
       = Some (match get key (sections (result a)) with
               | Some s => content s
               | None => []
               end ++ paras)%list /\
       (forall k s, k <> key -> get k (sections (result a)) = Some s ->
          option_map content (get k (sections (result (page_step a pd))))
          = Some (content s))).
Proof.
  intro d. subst d. unfold build_json_structure.
  set (a0 := initial_asm pdf_name raw ts scanned).
  split; [|split; [|split; [|split; [|split]]]].
  - unfold distinct_keys. rewrite sections_set_sections, keys_associate_tables.
    apply (pages_stable _ distinct_keys_stable pages a0). exact (NoDup_nil _).
  - intros pd line Hpd Hline Hc.
    rewrite sections_set_sections, mem_associate_tables.
    destruct (in_split _ _ Hpd) as (p1 & p2 & E). rewrite E.
    rewrite fold_left_app. cbn [fold_left].
    apply (pages_stable _ keeps_keys_stable p2).
    apply heading_key_after_page; assumption.
  - intros a ps line Hc M.
    destruct (line_step_heading a ps line Hc) as (_ & Hcur & Hsame).
    split; [exact (Hsame M) | exact Hcur].
  - intros a pd. apply (page_step_stable _ extends_stable).
  - intros a ps line key s Hc Hk G. unfold line_step. rewrite Hc.
    apply store_kvs_section; assumption.
  - intros before pd. cbv zeta.
    set (a := fold_left page_step before a0).
    assert (W : current_is_key a).
    { apply pages_current_is_key. intros k Hk. discriminate Hk. }
    split; [apply lines_current|].
    split; [unfold page_step; apply page_finish_current|].
    intros key Hk. exact (page_appends_paragraphs a pd key W Hk).
Qed.

Lemma same_key_same_section_witness :
  let pages := [mkPageData 1 [bold_line "Project Description!!";
                              plain_line "The first words."];
                mkPageData 2 [plain_line "PROJECT DESCRIPTION";
                              plain_line "Status: Ongoing";
                              plain_line "The second words."]] in
  let d := build_json_structure (lit "a.pdf") [] pages [] false in
  mem (lit "project_description") (sections d) = true /\
  map (fun ks => (fst ks, content (snd ks), s_key_value_pairs (snd ks)))
      (sections d)
  = [(lit "project_description",
      [lit "The first words."; lit "The second words."],
      [(lit "status", lit "Ongoing")])] /\
  option_map content
    (get (lit "project_description")
       (sections
          (result
             (page_step
                (fold_left page_step [mkPageData 1
                                        [bold_line "Project Description!!";
                                         plain_line "The first words."]]
                   (initial_asm (lit "a.pdf") [] [] false))
                (mkPageData 2 [plain_line "PROJECT DESCRIPTION";
                               plain_line "Status: Ongoing";
                               plain_line "The second words."])))))
  = Some [lit "The first words."; lit "The second words."].
Proof.
  intros pages d.
  pose proof (same_key_same_section (lit "a.pdf") [] pages [] false) as H.
  cbv zeta in H. destruct H as (_ & H2 & _ & _ & _ & H6).
  split; [|split; [reflexivity|]].
  - refine (H2 (mkPageData 2 [plain_line "PROJECT DESCRIPTION";
                              plain_line "Status: Ongoing";
                              plain_line "The second words."])
               (plain_line "PROJECT DESCRIPTION") _ _ _).
    + right. left. reflexivity.
    + left. reflexivity.
    + reflexivity.
  - destruct (H6 [mkPageData 1 [bold_line "Project Description!!";
                                plain_line "The first words."]]
                 (mkPageData 2 [plain_line "PROJECT DESCRIPTION";
                                plain_line "Status: Ongoing";
                                plain_line "The second words."]))
      as (_ & _ & H).
    destruct (H (lit "project_description") eq_refl) as [Hc _].
    rewrite Hc. reflexivity.
Defined.

End Assembler.

(** ** The shape of a key when the heading has no whitespace but spaces *)

Section KeyShape.
Import PyStr Regex Dict Adaptive Spec.

Lemma lower_chr_key_char (c : ascii) :
  is_word c = true -> key_char (lower_chr c) = true.
Proof.
  destruct c as [[] [] [] [] [] [] [] []]; vm_compute; intro H;
    first [reflexivity | discriminate H].
Qed.

Lemma lower_chr_space (c : ascii) :
  c = space -> lower_chr c = space.
Proof. intros ->. reflexivity. Qed.

Lemma key_char_replace (c : ascii) :
  key_char c = true \/ c = space ->
  key_char (if chr_eqb c space then underscore else c) = true.
Proof.
  intros [H | ->]; [|reflexivity].
  destruct (chr_eqb c space); [reflexivity | exact H].
Qed.

Lemma Forall_lstrip_by (P : ascii -> Prop) (p : ascii -> bool) (s : str) :
  Forall P s -> Forall P (lstrip_by p s).
Proof.
  induction 1 as [|c s Hc Hs IH]; simpl; [constructor|].
  destruct (p c); [exact IH | constructor; assumption].
Qed.

Lemma Forall_strip_by (P : ascii -> Prop) (p : ascii -> bool) (s : str) :
  Forall P s -> Forall P (strip_by p s).
Proof.
  intro H. unfold strip_by, rstrip_by.
  apply Forall_rev, Forall_lstrip_by, Forall_rev, Forall_lstrip_by. exact H.
Qed.

Lemma Forall_collapse_from (P : ascii -> Prop) (p : ascii -> bool)
    (r : ascii) (b : bool) (s : str) :
  P r -> Forall P s -> Forall P (collapse_from p r b s).
Proof.
  intros Hr H. revert b. induction H as [|c s Hc Hs IH]; intro b; simpl.
  - constructor.
  - destruct (p c); [destruct b|]; try constructor; auto.
Qed.

Lemma doubled_underscore_cons (a : ascii) (k : str) :
  doubled_underscore (a :: k)
  = (chr_eqb a underscore && startswith [underscore] k) || doubled_underscore k.
Proof.
  destruct k as [|b k].
  - cbn [doubled_underscore startswith]. rewrite andb_false_r. reflexivity.
  - rewrite startswith_one. reflexivity.
Qed.

(** After the runs are collapsed no two underscores are adjacent. *)
Lemma collapse_from_not_doubled (b : bool) (s : str) :
  doubled_underscore
    (collapse_from (fun c => chr_eqb c underscore) underscore b s) = false /\
  (b = true ->
   startswith [underscore]
     (collapse_from (fun c => chr_eqb c underscore) underscore b s) = false).
Proof.
  revert b. induction s as [|c s IH]; intro b.
  - simpl. split; reflexivity.
  - cbn [collapse_from]. destruct (chr_eqb c underscore) eqn:E.
    + destruct b.
      * apply IH.
      * destruct (IH true) as [I1 I2]. split; [|discriminate].
        rewrite doubled_underscore_cons, I1, (I2 eq_refl).
        rewrite andb_false_r. reflexivity.
    + destruct (IH false) as [I1 _]. split.
      * rewrite doubled_underscore_cons, I1, E. reflexivity.
      * intros _. rewrite startswith_one. exact E.
Qed.

Lemma doubled_underscore_tail (a : ascii) (k : str) :
  doubled_underscore (a :: k) = false -> doubled_underscore k = false.
Proof.
  rewrite doubled_underscore_cons. intro H.
  apply orb_false_iff in H. tauto.
Qed.

Lemma doubled_underscore_lstrip (p : ascii -> bool) (s : str) :
  doubled_underscore s = false -> doubled_underscore (lstrip_by p s) = false.
Proof.
  induction s as [|c s IH]; intro H; [reflexivity|].
  simpl. destruct (p c); [|exact H].
  apply IH. exact (doubled_underscore_tail _ _ H).
Qed.

Lemma doubled_underscore_prefix (a b : str) :
  doubled_underscore (a ++ b) = false -> doubled_underscore a = false.
Proof.
  induction a as [|x a IH]; intro H; [reflexivity|].
  rewrite <- app_comm_cons in H.
  rewrite doubled_underscore_cons in *.
  apply orb_false_iff in H. destruct H as [H1 H2].
  rewrite (IH H2), orb_false_r.
  destruct a as [|y a]; [apply andb_false_r | exact H1].
Qed.

Lemma lstrip_by_suffix (p : ascii -> bool) (s : str) :
  exists d, s = (d ++ lstrip_by p s)%list.
Proof.
  induction s as [|c s [d IH]]; simpl.
  - exists []. reflexivity.
  - destruct (p c).
    + exists (c :: d). simpl. rewrite <- IH. reflexivity.
    + exists []. reflexivity.
Qed.

Lemma rstrip_by_prefix (p : ascii -> bool) (s : str) :
  exists d, s = (rstrip_by p s ++ d)%list.
Proof.
  unfold rstrip_by. destruct (lstrip_by_suffix p (rev s)) as [d E].
  exists (rev d). rewrite <- rev_app_distr, <- E, rev_involutive. reflexivity.
Qed.

Lemma doubled_underscore_strip (p : ascii -> bool) (s : str) :
  doubled_underscore s = false -> doubled_underscore (strip_by p s) = false.
Proof.
  intro H. unfold strip_by.
  destruct (rstrip_by_prefix p (lstrip_by p s)) as [d E].
  apply (doubled_underscore_prefix _ d). rewrite <- E.
  apply doubled_underscore_lstrip. exact H.
Qed.

(** On such a heading every character of the key is a lower-case letter,
    a digit or an underscore, and no two underscores are adjacent. *)
Lemma normalize_section_name_chars (heading : str) :
  (forall c, In c heading -> is_space c = true -> c = space) ->
  forallb key_char (normalize_section_name heading) = true /\
  doubled_underscore (normalize_section_name heading) = false.
Proof.
  intro Hs. unfold normalize_section_name.
  set (c1 := filter (fun c => is_word c || is_space c) heading).
  set (c2 := replace_chr space underscore (strip (lower c1))).
  set (c3 := collapse_runs (fun c => chr_eqb c underscore) underscore c2).
  set (c4 := strip_by (fun c => chr_eqb c underscore) c3).
  assert (F1 : Forall (fun c => is_word c = true \/ c = space) c1).
  { apply Forall_forall. intros c Hc. apply filter_In in Hc.
    destruct Hc as [Hin Hw]. apply orb_true_iff in Hw.
    destruct Hw as [Hw | Hsp]; [left; exact Hw | right; auto]. }
  assert (F2 : Forall key_char_or_space (lower c1)).
  { unfold lower. apply Forall_map. eapply Forall_impl; [|exact F1].
    intros c [Hw | ->]; [left; apply lower_chr_key_char; exact Hw
                        | right; reflexivity]. }
  assert (F3 : Forall (fun c => key_char c = true) c2).
  { unfold c2, replace_chr. apply Forall_map.
    eapply Forall_impl; [|apply Forall_strip_by; exact F2].
    intros c Hc. apply key_char_replace. exact Hc. }
  assert (F4 : Forall (fun c => key_char c = true) c4).
  { apply Forall_strip_by. apply Forall_collapse_from; [reflexivity | exact F3]. }
  assert (D4 : doubled_underscore c4 = false).
  { apply doubled_underscore_strip.
    apply (collapse_from_not_doubled false c2). }
  destruct (is_nil c4); [split; reflexivity|].
  split; [|exact D4].
  apply forallb_forall. apply Forall_forall. exact F4.
Qed.

(** The shape holds on every heading whose only whitespace is the space
    character: the tab above is the kind of input it takes to break it. *)
Lemma normalize_section_name_shape (heading : str) :
  (forall c, In c heading -> is_space c = true -> c = space) ->
  spec_key_shape (normalize_section_name heading) = true.
Proof.
  intro Hs.
  pose proof (normalize_section_name_nonempty heading) as Hne.
  destruct (normalize_section_name_no_outer_underscore heading) as [Hl Hr].
  destruct (normalize_section_name_chars heading Hs) as [Hc Hd].
  apply is_nil_false in Hne.
  unfold spec_key_shape. rewrite Hne, Hc, Hl, Hr, Hd. reflexivity.
Qed.

End KeyShape.

(** ** The worked examples of the specification *)

Section WorkedExamples.
Import PyStr Regex Dict Adaptive Extract Spec.
Local Open Scope string_scope.

(** One page with a heading, a key-value line, a paragraph and two list
    items: one section, keyed [project_details], with the pair, the
    paragraph as content, and the list in the page record. *)
Example end_to_end_page :
  let pages := [mkPageData 1
                  [plain_line "PROJECT DETAILS";
                   plain_line "Project Name: Example Gardens";
                   plain_line "This is a long descriptive paragraph about the layout.";
                   plain_line "- Plot 1";
                   plain_line "- Plot 2"]] in
  let d := build_json_structure (lit "a.pdf") [] pages [] false in
  sections d
  = [(lit "project_details",
      mkSection (lit "PROJECT DETAILS")
        [lit "This is a long descriptive paragraph about the layout."]
        [(lit "project_name", lit "Example Gardens")] [])] /\
  map lists (extracted_pages d) = [[[lit "- Plot 1"; lit "- Plot 2"]]].
Proof. split; reflexivity. Qed.

(** A first row of column titles is a header; a first row of numbers is
    not. *)
Example header_rows :
  first_row_is_header
    [cells ["Sl No."; "Plot Type"; "Number of Sites"; "Total Area"];
     cells ["1"; "30x40"; "12"; "1200"]] = true /\
  first_row_is_header
    [cells ["1"; "2"; "3.5"; "4,5"]; cells ["1"; "30x40"; "12"; "1200"]]
  = false.
Proof. split; reflexivity. Qed.

(** The combined boundary format: the first number is the latitude of
    the boundary named by the key, the second its longitude; zeros are
    rejected. *)
Example combined_boundary :
  boundary_step no_boundary
    (lit "north_latitude", lit "13.5North Longitude:77.5")
  = Ok (set_lon North (155 # 2) (set_lat North (27 # 2) no_boundary)) /\
  boundary_step no_boundary (lit "north_latitude", lit "0North Longitude:0")
  = Ok no_boundary.
Proof. split; reflexivity. Qed.

(** The centre of two boundary points, with no direct field. *)
Example centroid_of_two_points :
  resolve_coordinates
    [(lit "north_latitude", lit "13.5"); (lit "north_longitude", lit "77.75");
     (lit "south_latitude", lit "13.25"); (lit "south_longitude", lit "77.25")]
    []
  = Ok (Some (107 # 8), Some (155 # 2)).
Proof. reflexivity. Qed.

(** A number with two dots makes [float] raise, and the exception leaves
    [parse_project_from_json]. *)
Example malformed_number_raises :
  resolve_coordinates [(lit "latitude", lit "13.2.5")] [] = Raise ValueError.
Proof. reflexivity. Qed.

End WorkedExamples.

(** * Further properties of the sources *)

(** ** Returned coordinates are always in range *)

Section CoordinatesInRange.
Import PyStr Regex Dict Adaptive Extract Facts.
Local Open Scope string_scope.

Lemma accepted_valid (val : option Q) (coord_type : str) (v : Q) :
  accepted val coord_type = Some v -> is_valid_coord v coord_type = true.
Proof.
  unfold accepted. destruct val as [x|]; [|discriminate].
  destruct (truthy x); simpl; [|discriminate].
  destruct (is_valid_coord x coord_type) eqn:E; [|discriminate].
  intro H. inversion H; subst. exact E.
Qed.

Lemma centroid_valid (b : Boundary) (clat clon : Q) :
  centroid b = Some (clat, clon) ->
  is_valid_coord clat (lit "lat") = true /\
  is_valid_coord clon (lit "lon") = true.
Proof.
  unfold centroid.
  destruct (center (lats_of b)) as [x|]; [|discriminate].
  destruct (center (lons_of b)) as [y|]; [|discriminate].
  destruct (is_valid_coord x (lit "lat") && is_valid_coord y (lit "lon")) eqn:E;
    [|discriminate].
  intro H. inversion H; subst. apply andb_true_iff in E. exact E.
Qed.

Lemma bind_ok {A B : Type} (c : outcome A) (f : A -> outcome B) (b : B) :
  bind c f = Ok b -> exists a, c = Ok a /\ f a = Ok b.
Proof.
  destruct c as [a|e]; simpl; [|discriminate].
  intro H. exists a. split; [reflexivity | exact H].
Qed.

Lemma direct_field_valid (name coord_type : str) (kv : dict str)
    (o : option Q) :
  direct_field name coord_type kv = Ok o ->
  in_range coord_type o.
Proof.
  unfold direct_field, in_range. destruct (get name kv) as [value|].
  - intro H. apply bind_ok in H. destruct H as (v & _ & H).
    inversion H; subst. intros x Hx. exact (accepted_valid _ _ _ Hx).
  - intro H. inversion H; subst. intros x Hx. discriminate.
Qed.

Lemma simple_text_step_valid (name coord_type all_text : str)
    (cur o : option Q) :
  in_range coord_type cur ->
  simple_text_step name coord_type all_text cur = Ok o ->
  in_range coord_type o.
Proof.
  unfold simple_text_step, in_range. intros Hcur.
  destruct (absent cur).
  - destruct (search (simple_re name) all_text) as [m|].
    + intro H. apply bind_ok in H. destruct H as (v & _ & H).
      destruct (is_valid_coord v coord_type) eqn:E; inversion H; subst.
      * intros x Hx. inversion Hx; subst. exact E.
      * exact Hcur.
    + intro H. inversion H; subst. exact Hcur.
  - intro H. inversion H; subst. exact Hcur.
Qed.

Lemma centroid_or_keep_valid (b : Boundary) (c : coords) :
  in_range (lit "lat") (fst c) -> in_range (lit "lon") (snd c) ->
  let c' := match centroid b with
            | Some (clat, clon) => (Some clat, Some clon)
            | None => c
            end in
  in_range (lit "lat") (fst c') /\ in_range (lit "lon") (snd c').
Proof.
  intros H1 H2. destruct (centroid b) as [[clat clon]|] eqn:E; simpl.
  - destruct (centroid_valid _ _ _ E) as [V1 V2].
    split; intros x Hx; inversion Hx; subst; assumption.
  - split; assumption.
Qed.

(** Whatever the key-value pairs and the text, a latitude that the
    resolver returns lies strictly between 10 and 17 and a longitude
    strictly between 73 and 79: no step stores a value that did not pass
    the range check. *)
Theorem resolved_coordinates_in_range (kv : dict str) (all_text : str)
    (lat lon : option Q) :
  resolve_coordinates kv all_text = Ok (lat, lon) ->
  (forall v, lat = Some v -> 10 < v /\ v < 17) /\
  (forall v, lon = Some v -> 73 < v /\ v < 79).
Proof.
  unfold resolve_coordinates. intro H.
  apply bind_ok in H. destruct H as (lat0 & Hlat0 & H).
  apply bind_ok in H. destruct H as (lon0 & Hlon0 & H).
  apply bind_ok in H. destruct H as (b & _ & H).
  apply bind_ok in H. destruct H as (lat1 & Hlat1 & H).
  apply bind_ok in H. destruct H as (lon1 & Hlon1 & H).
  apply direct_field_valid in Hlat0. apply direct_field_valid in Hlon0.
  assert (Hc : in_range (lit "lat") (fst (centroid_step b (lat0, lon0))) /\
               in_range (lit "lon") (snd (centroid_step b (lat0, lon0)))).
  { unfold centroid_step.
    destruct (negb (is_nil (lats_of b)) && negb (is_nil (lons_of b)) &&
              absent (fst (lat0, lon0))).
    - apply centroid_or_keep_valid; assumption.
    - split; assumption. }
  destruct Hc as [Hc1 Hc2].
  pose proof (simple_text_step_valid _ _ _ _ _ Hc1 Hlat1) as V1.
  pose proof (simple_text_step_valid _ _ _ _ _ Hc2 Hlon1) as V2.
  assert (Hfin : in_range (lit "lat") lat /\ in_range (lit "lon") lon).
  { unfold text_centroid_step in H.
    destruct (absent (fst (lat1, lon1)) || absent (snd (lat1, lon1))).
    - apply bind_ok in H. destruct H as (b' & _ & H).
      destruct (negb (is_nil (lats_of b')) && negb (is_nil (lons_of b'))).
      + pose proof (centroid_or_keep_valid b' (lat1, lon1) V1 V2) as K.
        cbv zeta in K. inversion H as [E]. rewrite E in K. exact K.
      + inversion H; subst. split; assumption.
    - inversion H; subst. split; assumption. }
  destruct Hfin as [F1 F2]. split; intros v Hv.
  - apply is_valid_coord_lat. apply F1. exact Hv.
  - apply is_valid_coord_lon. apply F2. exact Hv.
Qed.

Lemma resolved_coordinates_in_range_witness :
  (10 < 27 # 2 /\ 27 # 2 < 17) /\ (73 < 78 /\ 78 < 79).
Proof.
  pose proof (resolved_coordinates_in_range
                [(lit "north_latitude", lit "13.5");
                 (lit "north_longitude", lit "78.0")] []
                (Some (27 # 2)) (Some 78) eq_refl) as [H1 H2].
  split; [apply H1 | apply H2]; reflexivity.
Defined.

End CoordinatesInRange.

(** ** Cleaning text *)

Section Cleaning.
Import PyStr Regex Dict Adaptive Extract Facts.

Variable p : ascii -> bool.

Lemma doubled_cons (a : ascii) (k : str) :
  doubled p (a :: k)
  = (p a && match k with b :: _ => p b | [] => false end) || doubled p k.
Proof.
  destruct k as [|b k]; [|reflexivity].
  cbn [doubled]. rewrite andb_false_r. reflexivity.
Qed.

Lemma trimmed_strip_by (s : str) : trimmed p (strip_by p s).
Proof.
  split.
  - intros c t E. exact (strip_by_first p s c t E).
  - intros t c E. exact (strip_by_last p s t c E).
Qed.

Lemma lstrip_by_fixed (s : str) :
  (forall c t, s = c :: t -> p c = false) -> lstrip_by p s = s.
Proof.
  destruct s as [|c t]; intro H; [reflexivity|].
  simpl. rewrite (H c t eq_refl). reflexivity.
Qed.

Lemma strip_by_fixed (s : str) : trimmed p s -> strip_by p s = s.
Proof.
  intros [H1 H2]. unfold strip_by. rewrite (lstrip_by_fixed s H1).
  unfold rstrip_by. rewrite lstrip_by_fixed; [apply rev_involutive|].
  intros c t E. apply (H2 (rev t) c).
  rewrite <- (rev_involutive s), E. reflexivity.
Qed.

Section Collapse.
Variable r : ascii.

(** Collapsing the runs leaves no two adjacent [p] characters when the
    replacement is itself a [p] character, and after a run the output
    does not start with one. *)
Lemma collapse_from_doubled (Hr : p r = true) (b : bool) (s : str) :
  doubled p (collapse_from p r b s) = false /\
  (b = true -> forall c t, collapse_from p r b s = c :: t -> p c = false).
Proof.
  revert b. induction s as [|c s IH]; intro b.
  - split; [reflexivity | intros _ c t E; discriminate E].
  - cbn [collapse_from]. destruct (p c) eqn:E.
    + destruct b.
      * apply IH.
      * destruct (IH true) as [I1 I2]. split; [|discriminate].
        rewrite doubled_cons, I1, Hr.
        destruct (collapse_from p r true s) as [|d u] eqn:C; [reflexivity|].
        rewrite (I2 eq_refl d u eq_refl). reflexivity.
    + destruct (IH false) as [I1 _]. split.
      * rewrite doubled_cons, I1, E. reflexivity.
      * intros _ d u Hd. inversion Hd; subst. exact E.
Qed.

Lemma collapse_from_chars (P : ascii -> Prop) (b : bool) (s : str) :
  P r -> (forall c, In c s -> p c = false -> P c) ->
  forall c, In c (collapse_from p r b s) -> P c.
Proof.
  intros Hr. revert b. induction s as [|a s IH]; intros b Hs c Hc.
  - destruct Hc.
  - cbn [collapse_from] in Hc. destruct (p a) eqn:E.
    + destruct b.
      * apply (IH true); [intros; apply Hs; [right|]; assumption | exact Hc].
      * destruct Hc as [<-|Hc]; [exact Hr|].
        apply (IH true); [intros; apply Hs; [right|]; assumption | exact Hc].
    + destruct Hc as [<-|Hc]; [apply Hs; [left; reflexivity | exact E]|].
      apply (IH false); [intros; apply Hs; [right|]; assumption | exact Hc].
Qed.

Lemma collapse_from_snoc (b : bool) (s : str) (c : ascii) :
  p c = false ->
  collapse_from p r b (s ++ [c]) = (collapse_from p r b s ++ [c])%list.
Proof.
  intro E. revert b. induction s as [|a s IH]; intro b; simpl.
  - rewrite E. reflexivity.
  - destruct (p a); [destruct b|]; rewrite IH; reflexivity.
Qed.

(** Collapsing keeps a trimmed string trimmed. *)
Lemma collapse_runs_trimmed (s : str) :
  trimmed p s -> trimmed p (collapse_runs p r s).
Proof.
  intros [H1 H2]. unfold collapse_runs. split.
  - destruct s as [|a s]; [intros c t E; discriminate E|].
    pose proof (H1 a s eq_refl) as Ea. cbn [collapse_from]. rewrite Ea.
    intros c t E. inversion E; subst. exact Ea.
  - destruct (rev s) as [|a u] eqn:R.
    + assert (s = []) as -> by (rewrite <- (rev_involutive s), R; reflexivity).
      intros t c E. destruct t; discriminate E.
    + assert (Es : s = (rev u ++ [a])%list)
        by (rewrite <- (rev_involutive s), R; reflexivity).
      pose proof (H2 (rev u) a Es) as Ea. rewrite Es.
      rewrite collapse_from_snoc by exact Ea.
      intros t c E. apply app_inj_tail in E. destruct E as [_ <-]. exact Ea.
Qed.

(** A string with no run longer than one, whose [p] characters are all
    [r], is left as it is. *)
Lemma collapse_from_fixed (b : bool) (s : str) :
  (forall c, In c s -> p c = true -> c = r) ->
  doubled p s = false ->
  (b = true -> forall c t, s = c :: t -> p c = false) ->
  collapse_from p r b s = s.
Proof.
  revert b. induction s as [|a s IH]; intros b Hc Hd Hb; [reflexivity|].
  cbn [collapse_from]. rewrite doubled_cons in Hd.
  apply orb_false_iff in Hd. destruct Hd as [Hd1 Hd2].
  assert (Hc' : forall c, In c s -> p c = true -> c = r)
    by (intros; apply Hc; [right|]; assumption).
  destruct (p a) eqn:E.
  - destruct b; [rewrite (Hb eq_refl a s eq_refl) in E; discriminate|].
    rewrite (Hc a (or_introl eq_refl) E). f_equal.
    apply IH; [exact Hc' | exact Hd2 |].
    intros _ c t Es. subst s. simpl in Hd1. exact Hd1.
  - f_equal. apply IH; [exact Hc' | exact Hd2 | discriminate].
Qed.

End Collapse.

End Cleaning.

Section CleanText.
Import PyStr Regex Dict Adaptive Extract Facts.
Local Open Scope string_scope.

Lemma clean_nil : clean [].
Proof.
  split; [split|split].
  - intros c t E. discriminate E.
  - intros t c E. destruct t; discriminate E.
  - intros c [].
  - reflexivity.
Qed.

(** The text [clean_text] returns is trimmed, holds no whitespace but
    single spaces, and cleaning it again changes nothing. *)
Theorem clean_text_clean (text : str) :
  clean (clean_text text) /\
  clean_text (clean_text text) = clean_text text.
Proof.
  assert (H : clean (clean_text text)).
  { unfold clean_text. destruct (is_nil text); [apply clean_nil|].
    split; [|split].
    - apply collapse_runs_trimmed. apply trimmed_strip_by.
    - intros c Hc Hs.
      refine (collapse_from_chars is_space space
                (fun c => is_space c = true -> c = space) false
                (strip text) (fun _ => eq_refl) _ c Hc Hs).
      intros d _ Hd Hd'. congruence.
    - apply (collapse_from_doubled is_space space eq_refl false). }
  split; [exact H|].
  remember (clean_text text) as o eqn:Eo. clear Eo.
  destruct H as (Ht & Hc & Hd).
  unfold clean_text. destruct o as [|a o]; [reflexivity|]. cbn [is_nil].
  unfold strip. rewrite (strip_by_fixed is_space _ Ht).
  apply collapse_from_fixed; [exact Hc | exact Hd | discriminate].
Qed.

End CleanText.

(** ** Section keys are stable *)

Section KeyStability.
Import PyStr Regex Dict Adaptive Extract Spec Facts.
Local Open Scope string_scope.

Lemma lower_chr_class (c : ascii) :
  is_word (lower_chr c) = is_word c /\
  is_space (lower_chr c) = is_space c /\
  lower_chr (lower_chr c) = lower_chr c.
Proof.
  destruct c as [[] [] [] [] [] [] [] []]; vm_compute; repeat split.
Qed.

Lemma key_char_facts (c : ascii) :
  key_char c = true ->
  is_word c = true /\ lower_chr c = c /\ is_space c = false /\
  chr_eqb c space = false.
Proof.
  destruct c as [[] [] [] [] [] [] [] []]; vm_compute; intro H;
    first [discriminate H | repeat split].
Qed.

Lemma filter_all {A : Type} (f : A -> bool) (l : list A) :
  (forall x, In x l -> f x = true) -> filter f l = l.
Proof.
  induction l as [|a l IH]; intro H; simpl; [reflexivity|].
  rewrite (H a (or_introl eq_refl)), IH; [reflexivity|].
  intros x Hx. apply H. right. exact Hx.
Qed.

Lemma map_id_on {A : Type} (f : A -> A) (l : list A) :
  (forall x, In x l -> f x = x) -> map f l = l.
Proof.
  induction l as [|a l IH]; intro H; simpl; [reflexivity|].
  rewrite (H a (or_introl eq_refl)), IH; [reflexivity|].
  intros x Hx. apply H. right. exact Hx.
Qed.

Lemma filter_lower (s : str) :
  filter (fun c => is_word c || is_space c) (lower s)
  = lower (filter (fun c => is_word c || is_space c) s).
Proof.
  unfold lower. induction s as [|c s IH]; simpl; [reflexivity|].
  destruct (lower_chr_class c) as (W & S & _). rewrite W, S.
  destruct (is_word c || is_space c); simpl; rewrite IH; reflexivity.
Qed.

Lemma lower_lower (s : str) : lower (lower s) = lower s.
Proof.
  unfold lower. rewrite map_map. apply map_ext.
  intro c. apply lower_chr_class.
Qed.

Lemma filter_filter {A : Type} (f : A -> bool) (l : list A) :
  filter f (filter f l) = filter f l.
Proof.
  apply filter_all. intros x Hx. apply filter_In in Hx. tauto.
Qed.

Lemma doubled_underscore_doubled (k : str) :
  doubled (fun c => chr_eqb c underscore) k = doubled_underscore k.
Proof.
  induction k as [|a k IH]; [reflexivity|].
  destruct k as [|b k]; [reflexivity|].
  cbn [doubled doubled_underscore] in *. rewrite IH. reflexivity.
Qed.

Lemma startswith_trimmed (p : ascii -> bool) (a : ascii) (k : str) :
  (forall c, p c = chr_eqb c a) ->
  startswith [a] k = false -> startswith [a] (rev k) = false ->
  trimmed p k.
Proof.
  intros Hp H1 H2. split.
  - intros c t E. subst k. rewrite startswith_one in H1. rewrite Hp. exact H1.
  - intros t c E. subst k. rewrite rev_app_distr in H2. cbn [rev app] in H2.
    rewrite (startswith_one a c (rev t)) in H2. rewrite Hp. exact H2.
Qed.

(** A key of the specified shape is its own key. *)
Lemma normalize_section_name_fixed (k : str) :
  spec_key_shape k = true -> normalize_section_name k = k.
Proof.
  unfold spec_key_shape. rewrite !andb_true_iff, !negb_true_iff.
  intros ((((Hn & Hc) & Hl) & Hr) & Hd).
  assert (Hk : forall c, In c k -> key_char c = true).
  { intros c Hin. exact (proj1 (forallb_forall _ _) Hc c Hin). }
  unfold normalize_section_name.
  rewrite filter_all
    by (intros c Hin; destruct (key_char_facts c (Hk c Hin)) as (W & _);
        rewrite W; reflexivity).
  unfold lower. rewrite map_id_on
    by (intros c Hin; apply (key_char_facts c (Hk c Hin))).
  unfold strip. rewrite (strip_by_fixed is_space k).
  2:{ split.
      - intros c t E. apply (key_char_facts c). apply Hk. rewrite E. left.
        reflexivity.
      - intros t c E. apply (key_char_facts c). apply Hk. rewrite E.
        apply in_or_app. right. left. reflexivity. }
  unfold replace_chr. rewrite map_id_on.
  2:{ intros c Hin. destruct (key_char_facts c (Hk c Hin)) as (_ & _ & _ & S).
      rewrite S. reflexivity. }
  unfold collapse_runs.
  rewrite (collapse_from_fixed (fun c => chr_eqb c underscore) underscore
             false k).
  - rewrite (strip_by_fixed (fun c => chr_eqb c underscore) k).
    + rewrite Hn. reflexivity.
    + apply (startswith_trimmed _ underscore);
        [reflexivity | exact Hl | exact Hr].
  - intros c _ E. unfold chr_eqb in E. apply Ascii.eqb_eq in E. exact E.
  - rewrite doubled_underscore_doubled. exact Hd.
  - discriminate.
Qed.

(** For a heading of ASCII characters, the key does not depend on the
    case of its letters nor on its punctuation: lower-casing the
    heading, or removing every character that is neither a word
    character nor whitespace, leaves the key unchanged.  When moreover
    the only whitespace of the heading is the space character, the key
    is its own key. *)
Theorem normalize_section_name_stable (heading : str) :
  ascii_text heading = true ->
  normalize_section_name (lower heading) = normalize_section_name heading /\
  normalize_section_name
    (filter (fun c => is_word c || is_space c) heading)
  = normalize_section_name heading /\
  ((forall c, In c heading -> is_space c = true -> c = space) ->
   normalize_section_name (normalize_section_name heading)
   = normalize_section_name heading).
Proof.
  intros _. split; [|split].
  - unfold normalize_section_name. rewrite filter_lower, lower_lower.
    reflexivity.
  - unfold normalize_section_name. rewrite filter_filter. reflexivity.
  - intro Hs. apply normalize_section_name_fixed.
    apply normalize_section_name_shape. exact Hs.
Qed.

Lemma normalize_section_name_stable_witness :
  normalize_section_name (lower (lit "Project Description!!"))
  = normalize_section_name (lit "Project Description!!") /\
  normalize_section_name (normalize_section_name (lit "Project Description!!"))
  = normalize_section_name (lit "Project Description!!").
Proof.
  destruct (normalize_section_name_stable (lit "Project Description!!")
              eq_refl) as (H1 & _ & H3).
  split; [exact H1|]. apply H3.
  intros c Hc Hs. vm_compute in Hc.
  repeat (destruct Hc as [<-|Hc]; [first [reflexivity | discriminate Hs]|]).
  destruct Hc.
Defined.

End KeyStability.

(** ** Key-value pairs of a line *)

Section KeyValuePairs.
Import PyStr Regex Dict Adaptive Extract Spec Facts.

Lemma Forall_set_pair {V : Type} (Q : str * V -> Prop) (k : str) (v : V)
    (d : dict V) :
  Q (k, v) -> Forall Q d -> Forall Q (set k v d).
Proof.
  intros Hq. induction 1 as [|[k' v'] d Hv Hd IH]; simpl.
  - constructor; [exact Hq | constructor].
  - destruct (str_eqb k k') eqn:E.
    + apply str_eqb_eq in E. subst k'. constructor; assumption.
    + constructor; assumption.
Qed.

Lemma length_lstrip_by (p : ascii -> bool) (s : str) :
  (List.length (lstrip_by p s) <= List.length s)%nat.
Proof.
  induction s as [|c s IH]; simpl; [lia|].
  destruct (p c); simpl; lia.
Qed.

Lemma length_strip_by (p : ascii -> bool) (s : str) :
  (List.length (strip_by p s) <= List.length s)%nat.
Proof.
  unfold strip_by, rstrip_by. rewrite length_rev.
  pose proof (length_lstrip_by p (rev (lstrip_by p s))) as H1.
  pose proof (length_lstrip_by p s) as H2.
  rewrite length_rev in H1. lia.
Qed.

Lemma length_clean_key (key : str) :
  (List.length (clean_key key) <= List.length key)%nat.
Proof.
  unfold clean_key, replace_chr, lower, strip.
  rewrite !length_map.
  pose proof (length_strip_by is_space
                (filter (fun c => is_word c || is_space c) key)) as H1.
  pose proof (filter_length_le (fun c => is_word c || is_space c) key) as H2.
  lia.
Qed.

Lemma clean_key_char_of (c : ascii) :
  is_word c || is_space c = true ->
  clean_key_char (if chr_eqb (lower_chr c) space then underscore
                  else lower_chr c).
Proof.
  destruct c as [[] [] [] [] [] [] [] []]; vm_compute; intro H;
    first [discriminate H
          | left; reflexivity
          | right; split; [reflexivity | discriminate]].
Qed.

Lemma clean_key_chars (key : str) : Forall clean_key_char (clean_key key).
Proof.
  unfold clean_key, replace_chr, lower. rewrite map_map.
  apply Forall_map. unfold strip.
  apply Forall_strip_by. apply Forall_forall.
  intros c Hc. apply filter_In in Hc. apply clean_key_char_of. tauto.
Qed.

Lemma kv_step_stored (only_new : bool) (d : dict str) (m : str * str) :
  Forall stored_pair d -> Forall stored_pair (kv_step only_new d m).
Proof.
  intro Hd. unfold kv_step.
  destruct (negb (is_nil (strip (fst m))) && negb (is_nil (strip (snd m))) &&
            (List.length (strip (fst m)) <? 100)) eqn:G; [|exact Hd].
  apply andb_true_iff in G. destruct G as [G G3].
  apply andb_true_iff in G. destruct G as [G1 G2].
  destruct (negb (is_nil (clean_key (strip (fst m)))) &&
            negb (only_new && mem (clean_key (strip (fst m))) d)) eqn:K;
    [|exact Hd].
  apply andb_true_iff in K. destruct K as [K1 _].
  apply Forall_set_pair; [|exact Hd].
  apply negb_true_iff in K1, G2. apply is_nil_false in K1, G2.
  apply Nat.ltb_lt in G3.
  pose proof (length_clean_key (strip (fst m))) as L.
  split; [exact K1|]. split; [cbn [fst]; lia|].
  split; [apply clean_key_chars|]. split; [exact G2|].
  apply trimmed_strip_by.
Qed.

Lemma fold_kv_step_stored (only_new : bool) (ms : list (str * str))
    (d : dict str) :
  Forall stored_pair d -> Forall stored_pair (fold_left (kv_step only_new) ms d).
Proof.
  revert d. induction ms as [|m ms IH]; intros d Hd; simpl; [exact Hd|].
  apply IH. apply kv_step_stored. exact Hd.
Qed.

(** On a text of ASCII characters, every pair that
    [extract_key_value_pairs] returns has a non-empty key, shorter than
    100 characters, made of lower-case letters, digits, underscores and
    whitespace other than the space (no capital, no punctuation, no
    space), and a non-empty value without leading or trailing
    whitespace. *)
Theorem extracted_pairs_are_clean (text : str) :
  ascii_text text = true ->
  Forall stored_pair (extract_key_value_pairs text).
Proof.
  intros _. unfold extract_key_value_pairs.
  apply fold_kv_step_stored. apply fold_kv_step_stored. constructor.
Qed.

Lemma extracted_pairs_are_clean_witness :
  extract_key_value_pairs (lit "Project Name: Green Acres")
  = [(lit "project_name", lit "Green Acres")] /\
  Forall stored_pair (extract_key_value_pairs (lit "Project Name: Green Acres")).
Proof.
  split; [reflexivity|].
  apply (extracted_pairs_are_clean (lit "Project Name: Green Acres")).
  reflexivity.
Defined.

Lemma kv_step_keeps (d : dict str) (m : str * str) (k v : str) :
  get k d = Some v -> get k (kv_step true d m) = Some v.
Proof.
  intro G. unfold kv_step.
  destruct (negb (is_nil (strip (fst m))) && negb (is_nil (strip (snd m))) &&
            (List.length (strip (fst m)) <? 100)); [|exact G].
  destruct (mem (clean_key (strip (fst m))) d) eqn:M.
  - rewrite andb_true_l. cbn [negb]. rewrite andb_false_r. exact G.
  - destruct (negb (is_nil (clean_key (strip (fst m)))) && negb (true && false));
      [|exact G].
    rewrite get_set_other; [exact G|].
    intro E. subst k. apply mem_false_get in M. congruence.
Qed.

(** The dash pattern only adds keys: a key that the colon pattern has
    captured keeps the value the colon pattern gave it. *)
Theorem colon_pattern_wins (text k v : str) :
  get k (colon_pairs text) = Some v ->
  get k (extract_key_value_pairs text) = Some v.
Proof.
  unfold extract_key_value_pairs, colon_pairs.
  generalize (fold_left (kv_step false) (findall2 pattern1 text) []).
  generalize (findall2 pattern2 text).
  intro ms. induction ms as [|m ms IH]; intros d G; simpl; [exact G|].
  apply IH. apply kv_step_keeps. exact G.
Qed.

Lemma colon_pattern_wins_witness :
  get (lit "a") (extract_key_value_pairs (lit "A: x - y")) = Some (lit "x - y").
Proof.
  apply colon_pattern_wins. reflexivity.
Defined.

End KeyValuePairs.

(** ** Recorded tables and the exceptions of the field resolver *)

Section RecordedTables.
Import PyStr Regex Dict Adaptive Extract Spec Facts.

Lemma table_data_rows (grid : list (list cell)) :
  Forall (fun r => is_dict_row r = first_row_is_header grid) (table_data grid) /\
  (List.length (table_data grid)
   <= List.length grid - (if first_row_is_header grid then 1 else 0))%nat.
Proof.
  unfold table_data.
  destruct (1 <? List.length grid) eqn:L; [|split; [constructor | simpl; lia]].
  destruct (first_row_is_header grid) eqn:H.
  - destruct grid as [|first_row rest]; [discriminate H|].
    split.
    + apply Forall_map. apply Forall_forall. intros; reflexivity.
    + rewrite length_map. pose proof (filter_length_le row_kept rest).
      simpl. lia.
  - split.
    + apply Forall_map. apply Forall_forall. intros; reflexivity.
    + rewrite length_map. pose proof (filter_length_le row_kept grid). lia.
Qed.

(** The table recorded for a grid: [row_count] counts the rows kept;
    with a header every row is a dictionary and the header row is not
    among them, without one every row is a list; no more rows are kept
    than the grid has; and a grid of a single row is recorded with no
    row at all. *)
Theorem classify_table_rows (page_num idx : nat) (grid : list (list cell))
    (t : Table) :
  classify_table page_num idx grid = Some t ->
  row_count t = List.length (data t) /\
  Forall (fun r => is_dict_row r = has_header t) (data t) /\
  (List.length (data t)
   <= List.length grid - (if has_header t then 1 else 0))%nat /\
  (List.length grid = 1%nat -> has_header t = false /\ data t = []).
Proof.
  unfold classify_table. destruct (is_nil grid); [discriminate|].
  intro H. inversion H; subst t; clear H. cbn [row_count data has_header].
  destruct (table_data_rows grid) as [H1 H2].
  split; [reflexivity|]. split; [exact H1|]. split; [exact H2|].
  intro L. unfold first_row_is_header, table_data. rewrite L.
  split; reflexivity.
Qed.

Lemma classify_table_rows_witness :
  let grid := [Spec.cells ["Plot Type"%string; "Number of Sites"%string]] in
  exists t, classify_table 3 0 grid = Some t /\
            has_header t = false /\ data t = [] /\ row_count t = 0%nat.
Proof.
  intro grid. eexists. split; [reflexivity|].
  destruct (classify_table_rows 3 0 grid _ eq_refl) as (H1 & _ & _ & H4).
  destruct (H4 eq_refl) as [H5 H6].
  split; [exact H5|]. split; [exact H6|]. rewrite H1, H6. reflexivity.
Defined.

Lemma only_value_error_bind {A B : Type} (c : outcome A) (f : A -> outcome B) :
  only_value_error c -> (forall a, only_value_error (f a)) ->
  only_value_error (bind c f).
Proof.
  intros Hc Hf e. destruct c as [a|e']; simpl.
  - apply Hf.
  - intro H. inversion H; subst. apply Hc. reflexivity.
Qed.

Lemma only_value_error_ok {A : Type} (a : A) : only_value_error (Ok a).
Proof. intros e H. discriminate H. Qed.

Lemma float_of_raises (s : str) : only_value_error (float_of s).
Proof.
  unfold float_of. intros e.
  destruct (lstrip_by is_digit s) as [|c fp].
  - destruct (is_nil (take_while is_digit s)); intro H; inversion H; reflexivity.
  - destruct (chr_eqb c "."%char && forallb is_digit fp &&
              negb (is_nil (take_while is_digit s) && is_nil fp));
      intro H; inversion H; reflexivity.
Qed.

Lemma extract_float_raises (text : str) : only_value_error (extract_float text).
Proof.
  unfold extract_float. destruct (is_nil text); [apply only_value_error_ok|].
  destruct (search _ text) as [x|]; [|apply only_value_error_ok].
  apply only_value_error_bind; [apply float_of_raises|].
  intro a. apply only_value_error_ok.
Qed.

Lemma boundary_loop_raises (kv : dict str) (b : Boundary) :
  only_value_error (boundary_loop b kv).
Proof.
  revert b. induction kv as [|[key value] kv IH]; intro b; simpl.
  - apply only_value_error_ok.
  - apply only_value_error_bind; [|intro; apply IH].
    destruct (is_nil value); [apply only_value_error_ok|].
    apply only_value_error_bind.
    + destruct (contains _ (lower value)); [|apply only_value_error_ok].
      destruct (search combined_re value) as [x|]; [|apply only_value_error_ok].
      apply only_value_error_bind; [apply extract_float_raises|]. intro lat.
      apply only_value_error_bind; [apply extract_float_raises|]. intro lon.
      destruct (combined_dir key); apply only_value_error_ok.
    + intro b1. destruct (separate_field key) as [[d is_lat]|];
        [|apply only_value_error_ok].
      apply only_value_error_bind; [apply extract_float_raises|].
      intro val. apply only_value_error_ok.
Qed.

Lemma text_boundary_loop_raises (all_text : str) (ps : list (Dir * bool))
    (b : Boundary) :
  only_value_error (text_boundary_loop all_text b ps).
Proof.
  revert b. induction ps as [|[d is_lat] ps IH]; intro b; simpl.
  - apply only_value_error_ok.
  - apply only_value_error_bind; [|intro; apply IH].
    destruct (search _ all_text) as [x|]; [|apply only_value_error_ok].
    apply only_value_error_bind; [apply extract_float_raises|].
    intro val. apply only_value_error_ok.
Qed.

Lemma resolve_coordinates_raises (kv : dict str) (all_text : str) :
  only_value_error (resolve_coordinates kv all_text).
Proof.
  unfold resolve_coordinates.
  assert (D : forall name t, only_value_error (direct_field name t kv)).
  { intros name t. unfold direct_field.
    destruct (get name kv); [|apply only_value_error_ok].
    apply only_value_error_bind; [apply extract_float_raises|].
    intro v. apply only_value_error_ok. }
  assert (S : forall name t cur,
             only_value_error (simple_text_step name t all_text cur)).
  { intros name t cur. unfold simple_text_step.
    destruct (absent cur); [|apply only_value_error_ok].
    destruct (search _ all_text); [|apply only_value_error_ok].
    apply only_value_error_bind; [apply float_of_raises|].
    intro v. apply only_value_error_ok. }
  apply only_value_error_bind; [apply D|]. intro lat.
  apply only_value_error_bind; [apply D|]. intro lon.
  apply only_value_error_bind; [apply boundary_loop_raises|]. intro b.
  apply only_value_error_bind; [apply S|]. intro lat'.
  apply only_value_error_bind; [apply S|]. intro lon'.
  unfold text_centroid_step.
  destruct (absent _ || absent _); [|apply only_value_error_ok].
  apply only_value_error_bind; [apply text_boundary_loop_raises|].
  intro b'. apply only_value_error_ok.
Qed.

Lemma classified_headers (t : Table) :
  classified t -> has_header t = true -> exists hs, headers_of t = Ok hs.
Proof.
  intros (pn & idx & grid & C) H.
  destruct (classify_table_rows pn idx grid t C) as (_ & F & _).
  unfold headers_of. destruct (data t) as [|r rows].
  - eexists; reflexivity.
  - inversion F as [|x l Hr Hl]; subst. rewrite H in Hr.
    destruct r; [eexists; reflexivity | discriminate Hr].
Qed.

Lemma plots_of_rows_raises (rows : list Row) :
  only_value_error (plots_of_rows rows).
Proof.
  induction rows as [|[d|l] rows IH]; simpl.
  - apply only_value_error_ok.
  - apply only_value_error_bind.
    + unfold plot_of_row.
      apply only_value_error_bind; [apply extract_float_raises|].
      intro a. apply only_value_error_ok.
    + intro p. apply only_value_error_bind; [exact IH|].
      intro ps. apply only_value_error_ok.
  - exact IH.
Qed.

Lemma concat_outcomes_raises {A B : Type} (f : A -> outcome (list B))
    (l : list A) :
  Forall (fun x => only_value_error (f x)) l ->
  only_value_error (concat_outcomes f l).
Proof.
  induction 1 as [|x l Hx Hl IH]; simpl.
  - apply only_value_error_ok.
  - apply only_value_error_bind; [exact Hx|]. intro ys.
    apply only_value_error_bind; [exact IH|]. intro zs.
    apply only_value_error_ok.
Qed.

(** On a document whose tables were recorded by the table classifier,
    reading the header of a table never fails, since the rows of a
    table with a header are dictionaries; whatever exception leaves
    [parse_project_from_json] is then a [ValueError]. *)
Theorem parse_raises_only_value_error (json_data : Document) :
  Forall classified (detected_tables json_data) ->
  only_value_error (parse_project_from_json json_data) /\
  Forall (fun t => has_header t = true -> exists hs, headers_of t = Ok hs)
         (detected_tables json_data).
Proof.
  intro HC.
  split;
    [|eapply Forall_impl; [|exact HC]; intros t Ht; apply classified_headers;
      exact Ht].
  unfold parse_project_from_json.
  apply only_value_error_bind; [apply resolve_coordinates_raises|]. intro c.
  apply only_value_error_bind.
  { apply concat_outcomes_raises.
    eapply Forall_impl; [|exact HC]. intros t Ht.
    unfold plot_types_of_table.
    destruct (has_header t) eqn:H; [|apply only_value_error_ok].
    destruct (is_nil (data t)); cbn [negb andb]; [apply only_value_error_ok|].
    destruct (classified_headers t Ht H) as [hs Hh]. rewrite Hh. cbn [bind].
    apply only_value_error_ok. }
  intro pts.
  apply only_value_error_bind; [|intro; apply only_value_error_ok].
  apply concat_outcomes_raises.
  eapply Forall_impl; [|exact HC]. intros t Ht.
  unfold plots_of_table.
  destruct (has_header t) eqn:H; [|apply only_value_error_ok].
  destruct (is_nil (data t)); cbn [negb andb]; [apply only_value_error_ok|].
  destruct (classified_headers t Ht H) as [hs Hh]. rewrite Hh. cbn [bind].
  destruct (is_plot_table hs); [apply plots_of_rows_raises|].
  apply only_value_error_ok.
Qed.

Lemma parse_raises_only_value_error_witness :
  let grid := [Spec.cells ["Plot No."%string; "North Schedule"%string;
                           "Plot Area"%string];
               Spec.cells ["1"%string; "Road"%string; "10"%string];
               Spec.cells ["2"%string; "Park"%string; "1.2.3"%string]] in
  let t := mkTable 1 0 true (table_data grid) 2 in
  let d := build_json_structure (lit "a.pdf") [] [] [t] false in
  parse_project_from_json d = Raise ValueError.
Proof.
  intros grid t d.
  assert (HC : Forall classified (detected_tables d)).
  { constructor; [|constructor]. exists 1%nat, 0%nat, grid. reflexivity. }
  destruct (parse_project_from_json d) as [p|e] eqn:E.
  - vm_compute in E. discriminate E.
  - f_equal. exact (proj1 (parse_raises_only_value_error d HC) e E).
Defined.

End RecordedTables.

(** ** The page records of a document *)

Section PageRecords.
Import PyStr Regex Dict Adaptive Extract Spec Inv Facts.

Lemma same_frame_stable : page_stable same_frame.
Proof.
  unfold same_frame.
  split; [split|..]; try (intros; destruct r; repeat split; reflexivity).
  intros r1 r2 r3 (A1 & B1 & C1 & D1) (A2 & B2 & C2 & D2).
  repeat split; congruence.
Qed.

Lemma page_view_flush_paragraph (ps : PageSt) :
  page_view (page_content (flush_paragraph ps)) = page_view (page_content ps).
Proof. unfold flush_paragraph. destruct (is_nil _); reflexivity. Qed.

Lemma page_view_flush_list (ps : PageSt) :
  page_view (page_content (flush_list ps)) = page_view (page_content ps).
Proof. unfold flush_list. destruct (is_nil _); reflexivity. Qed.

Lemma page_view_store_kv (kvs : list (str * str)) (st : Asm * PageSt) :
  page_view (page_content (snd (fold_left store_kv kvs st)))
  = page_view (page_content (snd st)).
Proof.
  revert st. induction kvs as [|[k v] kvs IH]; intro st; simpl; [reflexivity|].
  rewrite IH. destruct st as [a ps]. reflexivity.
Qed.

Lemma line_step_page_view (st : Asm * PageSt) (line : LineInfo) :
  page_view (page_content (snd (line_step st line)))
  = (fst (page_view (page_content (snd st))),
     (snd (page_view (page_content (snd st))) ++
      (if is_heading_line line then [strip (l_text line)] else []))%list).
Proof.
  destruct st as [a ps]. unfold line_step, is_heading_line.
  pose proof (page_view_flush_paragraph ps) as FP.
  destruct (classify line) as [[| | |]|]; cbn [snd].
  - pose proof (page_view_flush_list (flush_paragraph ps)) as FL.
    rewrite FP in FL. unfold page_view in *. cbn in *.
    inversion FL as [[E1 E2]]. rewrite E1, E2. reflexivity.
  - rewrite page_view_store_kv. cbn [snd]. unfold page_view. cbn.
    rewrite app_nil_r. reflexivity.
  - pose proof (page_view_flush_paragraph
                  (mkPageSt (page_content ps) (current_paragraph ps)
                     (current_list ps ++ [strip (l_text line)]) true)) as FP'.
    rewrite FP'. unfold page_view. cbn. rewrite app_nil_r. reflexivity.
  - destruct (in_list ps).
    + pose proof (page_view_flush_list ps) as FL.
      unfold page_view in *. cbn in *. inversion FL as [[E1 E2]].
      rewrite E1, E2, app_nil_r. reflexivity.
    + unfold page_view. cbn. rewrite app_nil_r. reflexivity.
  - unfold page_view. cbn. rewrite app_nil_r. reflexivity.
Qed.

Lemma lines_page_view (lines : list LineInfo) (st : Asm * PageSt) :
  page_view (page_content (snd (fold_left line_step lines st)))
  = (fst (page_view (page_content (snd st))),
     (snd (page_view (page_content (snd st))) ++ heading_texts lines)%list).
Proof.
  revert st. induction lines as [|l lines IH]; intro st.
  - simpl. unfold heading_texts. simpl. rewrite app_nil_r. reflexivity.
  - cbn [fold_left]. rewrite IH, line_step_page_view. cbn [fst snd].
    unfold heading_texts. cbn [filter].
    destruct (is_heading_line l); cbn [map]; rewrite <- app_assoc; reflexivity.
Qed.

Lemma place_paragraphs_pages (n : nat) (paras : list str) (a : Asm) :
  extracted_pages (result (fold_left (place_paragraph n) paras a))
  = extracted_pages (result a).
Proof.
  destruct (current_section_key a) as [key|] eqn:Hc.
  - apply (place_all_some n paras a key Hc).
  - apply (place_all_none n paras a Hc).
Qed.

Lemma page_step_pages (a : Asm) (pd : PageData) :
  map page_view (extracted_pages (result (page_step a pd)))
  = (map page_view (extracted_pages (result a)) ++
     [(pd_page_number pd, heading_texts (pd_lines pd))])%list.
Proof.
  unfold page_step.
  pose proof (lines_stable _ same_content_stable (pd_lines pd)
                (a, page_start (pd_page_number pd))) as (_ & HP & _).
  pose proof (lines_page_view (pd_lines pd)
                (a, page_start (pd_page_number pd))) as HV.
  destruct (fold_left line_step (pd_lines pd)
              (a, page_start (pd_page_number pd))) as [a1 ps1].
  cbn [fst snd] in *. unfold page_finish. cbn [result extracted_pages
                                                set_extracted_pages].
  rewrite place_paragraphs_pages, HP, map_app. f_equal. cbn [map]. f_equal.
  rewrite page_view_flush_list, page_view_flush_paragraph. exact HV.
Qed.

Lemma pages_pages (pages : list PageData) (a : Asm) :
  map page_view (extracted_pages (result (fold_left page_step pages a)))
  = (map page_view (extracted_pages (result a)) ++
     map (fun pd => (pd_page_number pd, heading_texts (pd_lines pd))) pages)%list.
Proof.
  revert a. induction pages as [|pd pages IH]; intro a; cbn [fold_left map].
  - rewrite app_nil_r. reflexivity.
  - rewrite IH, page_step_pages, <- app_assoc. reflexivity.
Qed.

(** The document keeps one page record per page read, in order; each
    carries the number of its page, and its headings are the trimmed
    texts of the lines of that page tagged Heading, in order.  The file
    name, the raw text, the page count (the number of raw texts) and the
    tables are copied to the document unchanged. *)
Theorem page_records (pdf_name : str) (raw : list str)
    (pages : list PageData) (ts : list Table) (scanned : bool) :
  let d := build_json_structure pdf_name raw pages ts scanned in
  map page_view (extracted_pages d)
  = map (fun pd => (pd_page_number pd, heading_texts (pd_lines pd))) pages /\
  source_file d = pdf_name /\ raw_text_by_page d = raw /\
  total_pages d = List.length raw /\ is_scanned d = scanned /\
  detected_tables d = ts.
Proof.
  intro d. subst d. unfold build_json_structure.
  set (a0 := initial_asm pdf_name raw ts scanned).
  pose proof (pages_pages pages a0) as HP.
  pose proof (pages_stable _ same_frame_stable pages a0) as (F1 & F2 & F3 & F4).
  pose proof (pages_stable _ same_detected_stable pages a0) as FD.
  unfold same_detected in FD.
  destruct (result (fold_left page_step pages a0)).
  cbn in *. repeat split; assumption.
Qed.

End PageRecords.

(** ** Once a section is open *)

Section OpenSection.
Import PyStr Regex Dict Adaptive Extract Spec Inv Facts.

Lemma store_kv_open (kvs : list (str * str)) (a : Asm) (ps : PageSt)
    (k : str) :
  current_section_key a = Some k ->
  current_section_key (fst (fold_left store_kv kvs (a, ps))) = Some k /\
  loose_ends (result (fst (fold_left store_kv kvs (a, ps))))
  = loose_ends (result a).
Proof.
  revert a ps. induction kvs as [|[key v] kvs IH]; intros a ps Hc; simpl.
  - split; [exact Hc | reflexivity].
  - rewrite Hc.
    destruct (IH (mkAsm (set_sections (result a)
                           (modify k (add_kv key v) (sections (result a))))
                        (Some k))
                 (add_page_kv key v ps) eq_refl) as [I1 I2].
    split; [exact I1|]. rewrite I2. destruct (result a); reflexivity.
Qed.

Lemma line_step_open (a : Asm) (ps : PageSt) (line : LineInfo) (k : str) :
  current_section_key a = Some k ->
  (exists k', current_section_key (fst (line_step (a, ps) line)) = Some k') /\
  loose_ends (result (fst (line_step (a, ps) line))) = loose_ends (result a).
Proof.
  intro Hc. unfold line_step.
  destruct (classify line) as [[| | |]|]; cbn [fst].
  - split; [eexists; reflexivity|]. destruct (result a); reflexivity.
  - destruct (store_kv_open (extract_key_value_pairs (strip (l_text line)))
                a ps k Hc) as [I1 I2].
    split; [exists k; exact I1 | exact I2].
  - split; [exists k; exact Hc | reflexivity].
  - split; [exists k; exact Hc | reflexivity].
  - split; [exists k; exact Hc | reflexivity].
Qed.

Lemma lines_open (lines : list LineInfo) (a : Asm) (ps : PageSt) (k : str) :
  current_section_key a = Some k ->
  (exists k', current_section_key (fst (fold_left line_step lines (a, ps)))
              = Some k') /\
  loose_ends (result (fst (fold_left line_step lines (a, ps))))
  = loose_ends (result a).
Proof.
  revert a ps k. induction lines as [|l lines IH]; intros a ps k Hc.
  - split; [exists k; exact Hc | reflexivity].
  - cbn [fold_left].
    destruct (line_step_open a ps l k Hc) as [[k1 H1] H2].
    destruct (line_step (a, ps) l) as [a1 ps1]. cbn [fst] in *.
    destruct (IH a1 ps1 k1 H1) as [I1 I2].
    split; [exact I1 | congruence].
Qed.

Lemma place_paragraphs_open (n : nat) (paras : list str) (a : Asm) (k : str) :
  current_section_key a = Some k ->
  current_section_key (fold_left (place_paragraph n) paras a) = Some k /\
  loose_ends (result (fold_left (place_paragraph n) paras a))
  = loose_ends (result a).
Proof.
  revert a. induction paras as [|p paras IH]; intros a Hc; cbn [fold_left].
  - split; [exact Hc | reflexivity].
  - assert (Hc' : current_section_key (place_paragraph n a p) = Some k)
      by (unfold place_paragraph; rewrite Hc; reflexivity).
    destruct (IH _ Hc') as [I1 I2]. split; [exact I1|].
    rewrite I2. unfold place_paragraph. rewrite Hc.
    destruct (result a); reflexivity.
Qed.

Lemma page_finish_open (n : nat) (a : Asm) (ps : PageSt) (k : str) :
  current_section_key a = Some k ->
  current_section_key (page_finish n (a, ps)) = Some k /\
  loose_ends (result (page_finish n (a, ps))) = loose_ends (result a).
Proof.
  intro Hc. unfold page_finish.
  destruct (place_paragraphs_open n
              (paragraphs (page_content (flush_list (flush_paragraph ps))))
              a k Hc) as [I1 I2].
  cbn [current_section_key result]. split; [exact I1|].
  rewrite <- I2.
  destruct (result (fold_left (place_paragraph n) _ a)); reflexivity.
Qed.

Lemma page_step_open (a : Asm) (pd : PageData) (k : str) :
  current_section_key a = Some k ->
  (exists k', current_section_key (page_step a pd) = Some k') /\
  loose_ends (result (page_step a pd)) = loose_ends (result a).
Proof.
  intro Hc. unfold page_step.
  destruct (lines_open (pd_lines pd) a (page_start (pd_page_number pd)) k Hc)
    as [[k1 H1] H2].
  destruct (fold_left line_step (pd_lines pd)
              (a, page_start (pd_page_number pd))) as [a1 ps1].
  cbn [fst] in *.
  destruct (page_finish_open (pd_page_number pd) a1 ps1 k1 H1) as [I1 I2].
  split; [exists k1; exact I1 | congruence].
Qed.

Lemma pages_open (pages : list PageData) (a : Asm) (k : str) :
  current_section_key a = Some k ->
  (exists k', current_section_key (fold_left page_step pages a) = Some k') /\
  loose_ends (result (fold_left page_step pages a)) = loose_ends (result a).
Proof.
  revert a k. induction pages as [|pd pages IH]; intros a k Hc.
  - split; [exists k; exact Hc | reflexivity].
  - cbn [fold_left]. destruct (page_step_open a pd k Hc) as [[k1 H1] H2].
    destruct (IH _ k1 H1) as [I1 I2]. split; [exact I1 | congruence].
Qed.

Lemma heading_first_loose_ends (n : nat) (first : LineInfo)
    (lines : list LineInfo) (pages : list PageData) (a : Asm) :
  classify first = Some Heading ->
  loose_ends
    (result (fold_left page_step (mkPageData n (first :: lines) :: pages) a))
  = loose_ends (result a).
Proof.
  intro Hf. cbn [fold_left]. unfold page_step at 2.
  cbn [pd_lines pd_page_number fold_left].
  destruct (line_step_heading a (page_start n) first Hf) as (_ & Hc & _).
  assert (L0 : loose_ends (result (fst (line_step (a, page_start n) first)))
               = loose_ends (result a)).
  { unfold line_step. rewrite Hf. cbn [fst result]. destruct (result a).
    reflexivity. }
  destruct (line_step (a, page_start n) first) as [a1 ps1]. cbn [fst] in Hc, L0.
  destruct (lines_open lines a1 ps1 _ Hc) as [[k2 H2] L2].
  destruct (fold_left line_step lines (a1, ps1)) as [a2 ps2]. cbn [fst] in H2, L2.
  destruct (pages_open pages (page_finish n (a2, ps2)) k2
              (proj1 (page_finish_open n a2 ps2 k2 H2))) as [_ L4].
  rewrite L4, (proj2 (page_finish_open n a2 ps2 k2 H2)). congruence.
Qed.

(** A section, once open, is never closed: from the first heading on
    some section is always current, so nothing more is written to the
    top-level key-value pairs or to the unstructured text.  In
    particular a document whose first page starts with a heading has no
    top-level pair and no unstructured text at all. *)
Theorem section_stays_open (pdf_name : str) (raw : list str) (n : nat)
    (first : LineInfo) (lines : list LineInfo) (pages : list PageData)
    (ts : list Table) (scanned : bool) :
  classify first = Some Heading ->
  (forall (a : Asm) (k : str) (more : list PageData),
     current_section_key a = Some k ->
     (exists k', current_section_key (fold_left page_step more a) = Some k') /\
     loose_ends (result (fold_left page_step more a)) = loose_ends (result a)) /\
  let d := build_json_structure pdf_name raw
             (mkPageData n (first :: lines) :: pages) ts scanned in
  key_value_pairs d = [] /\ unstructured_text d = [].
Proof.
  intros Hf. split; [intros a k more Hc; apply (pages_open more a k Hc)|].
  intro d. subst d. unfold build_json_structure.
  pose proof (heading_first_loose_ends n first lines pages
                (initial_asm pdf_name raw ts scanned) Hf) as L.
  unfold loose_ends in L.
  destruct (result (fold_left page_step _ (initial_asm pdf_name raw ts scanned))).
  cbn in *. inversion L. split; reflexivity.
Qed.

Lemma section_stays_open_witness :
  let d := build_json_structure (lit "a.pdf") []
             [mkPageData 1 [Spec.plain_line "PROJECT DETAILS";
                            Spec.plain_line "Name: Example";
                            Spec.plain_line "Some words."];
              mkPageData 2 [Spec.plain_line "More words."]] [] false in
  key_value_pairs d = [] /\ unstructured_text d = [].
Proof.
  refine (proj2 (section_stays_open _ _ _ _ _ _ _ _ _)). reflexivity.
Defined.

(** ** Blank lines *)

Lemma line_step_blank (st : Asm * PageSt) (line : LineInfo) :
  is_blank line = true -> line_step st line = st.
Proof.
  intro H. destruct st as [a ps]. unfold line_step, classify.
  unfold is_blank in H. rewrite H. reflexivity.
Qed.

Lemma lines_drop_blank (lines : list LineInfo) (st : Asm * PageSt) :
  fold_left line_step (filter (fun l => negb (is_blank l)) lines) st
  = fold_left line_step lines st.
Proof.
  revert st. induction lines as [|l lines IH]; intro st; [reflexivity|].
  cbn [filter fold_left]. destruct (is_blank l) eqn:B; cbn [negb].
  - rewrite (line_step_blank st l B). apply IH.
  - cbn [fold_left]. apply IH.
Qed.

(** Lines whose trimmed text is empty leave no trace: removing them
    from every page gives the same document. *)
Theorem blank_lines_are_ignored (pdf_name : str) (raw : list str)
    (pages : list PageData) (ts : list Table) (scanned : bool) :
  build_json_structure pdf_name raw (map drop_blank pages) ts scanned
  = build_json_structure pdf_name raw pages ts scanned.
Proof.
  unfold build_json_structure.
  assert (H : forall a,
             fold_left page_step (map drop_blank pages) a
             = fold_left page_step pages a).
  { induction pages as [|pd pages IH]; intro a; [reflexivity|].
    cbn [map fold_left]. rewrite IH. f_equal.
    unfold page_step, drop_blank. cbn [pd_lines pd_page_number].
    rewrite lines_drop_blank. reflexivity. }
  rewrite H. reflexivity.
Qed.

(** ** Sections and their headings *)

Lemma Forall_modify_pair {V : Type} (Q : str * V -> Prop) (k : str)
    (f : V -> V) (d : dict V) :
  (forall k' v, Q (k', v) -> Q (k', f v)) ->
  Forall Q d -> Forall Q (modify k f d).
Proof.
  intros Hf. induction 1 as [|[k' v'] d Hv Hd IH]; simpl; [constructor|].
  destruct (str_eqb k k'); constructor; auto.
Qed.

Lemma store_kv_keyed (kvs : list (str * str)) (st : Asm * PageSt) :
  Forall keyed_by_heading (sections (result (fst st))) ->
  Forall keyed_by_heading
    (sections (result (fst (fold_left store_kv kvs st)))).
Proof.
  revert st. induction kvs as [|[k v] kvs IH]; intros st H; [exact H|].
  cbn [fold_left]. apply IH. destruct st as [a ps]. cbn [store_kv fst] in *.
  destruct (current_section_key a) as [cur|]; cbn [result].
  - rewrite sections_set_sections.
    apply Forall_modify_pair; [|exact H]. intros k' sec Hs. exact Hs.
  - exact H.
Qed.

Lemma line_step_keyed (st : Asm * PageSt) (line : LineInfo) :
  Forall keyed_by_heading (sections (result (fst st))) ->
  Forall keyed_by_heading (sections (result (fst (line_step st line)))).
Proof.
  intro H. destruct st as [a ps]. unfold line_step.
  destruct (classify line) as [[| | |]|] eqn:C; cbn [fst result] in *;
    try exact H.
  - rewrite sections_set_sections. destruct (mem _ (sections (result a)));
      [exact H|].
    apply Forall_set_pair; [|exact H].
    unfold keyed_by_heading. cbn [fst snd heading new_section].
    split; [reflexivity|]. split; [|apply trimmed_strip_by].
    unfold classify in C. destruct (strip (l_text line)); [discriminate C|].
    discriminate.
  - apply (store_kv_keyed _ (a, ps)). exact H.
Qed.

Lemma place_paragraph_keyed (n : nat) (a : Asm) (para : str) :
  Forall keyed_by_heading (sections (result a)) ->
  Forall keyed_by_heading (sections (result (place_paragraph n a para))).
Proof.
  intro H. unfold place_paragraph. destruct (current_section_key a);
    cbn [result].
  - rewrite sections_set_sections.
    apply Forall_modify_pair; [|exact H]. intros k' sec Hs. exact Hs.
  - exact H.
Qed.

Lemma fold_left_inv {S A : Type} (P : S -> Prop) (f : S -> A -> S) :
  (forall s x, P s -> P (f s x)) -> forall l s, P s -> P (fold_left f l s).
Proof.
  intros Hf l. induction l as [|x l IH]; intros s Hs; simpl; auto.
Qed.

Lemma page_step_keyed (a : Asm) (pd : PageData) :
  Forall keyed_by_heading (sections (result a)) ->
  Forall keyed_by_heading (sections (result (page_step a pd))).
Proof.
  intro H. unfold page_step.
  pose proof (fold_left_inv
                (fun st => Forall keyed_by_heading (sections (result (fst st))))
                line_step line_step_keyed (pd_lines pd)
                (a, page_start (pd_page_number pd)) H) as H1.
  destruct (fold_left line_step (pd_lines pd) _) as [a1 ps1].
  cbn [fst] in H1. unfold page_finish. cbn [result].
  pose proof (fold_left_inv
                (fun x => Forall keyed_by_heading (sections (result x)))
                (place_paragraph (pd_page_number pd))
                (place_paragraph_keyed (pd_page_number pd))
                (paragraphs (page_content (flush_list (flush_paragraph ps1))))
                a1 H1) as H2.
  exact H2.
Qed.

(** Every section of the document is stored under the normalized form
    of its own heading, and that heading is a non-empty line without
    leading or trailing whitespace. *)
Theorem sections_keyed_by_heading (pdf_name : str) (raw : list str)
    (pages : list PageData) (ts : list Table) (scanned : bool) :
  Forall keyed_by_heading
    (sections (build_json_structure pdf_name raw pages ts scanned)).
Proof.
  unfold build_json_structure. rewrite sections_set_sections.
  pose proof (fold_left_inv
                (fun x => Forall keyed_by_heading (sections (result x)))
                page_step page_step_keyed pages
                (initial_asm pdf_name raw ts scanned) (Forall_nil _)) as H.
  cbv beta in H.
  destruct (sections (result (fold_left page_step pages _))) as [|[k s] rest].
  - rewrite associate_tables_nil. constructor.
  - rewrite associate_tables_first. inversion H as [|x l Hx Hl]; subst.
    constructor; [exact Hx | exact Hl].
Qed.

End OpenSection.

(** ** Searching for a run of characters *)

Section RunSearch.
Import PyStr Regex Dict Adaptive Extract Spec Facts.

Lemma run_star_eq (R : Type) (lazy : bool) (r : regex) (fuel : nat)
    (prev : option ascii) (s : str) (cs : caps)
    (k : option ascii -> str -> caps -> option R) :
  run (Star lazy r) fuel prev s cs k
  = let more (_ : unit) :=
      match fuel with
      | O => None
      | S n' =>
          run r fuel prev s cs
            (fun prev' s' cs' =>
               if List.length s' <? List.length s
               then run (Star lazy r) n' prev' s' cs' k else None)
      end in
    if lazy then orelse (k prev s cs) more
    else orelse (more tt) (fun _ => k prev s cs).
Proof. destruct fuel; reflexivity. Qed.

Lemma run_cls_eq (R : Type) (q : ascii -> bool) (fuel : nat)
    (prev : option ascii) (s : str) (cs : caps)
    (k : option ascii -> str -> caps -> option R) :
  run (Cls q) fuel prev s cs k
  = match s with
    | c :: s' => if q c then k (Some c) s' cs else None
    | [] => None
    end.
Proof. reflexivity. Qed.

Lemma run_cat_eq (R : Type) (r1 r2 : regex) (fuel : nat)
    (prev : option ascii) (s : str) (cs : caps)
    (k : option ascii -> str -> caps -> option R) :
  run (Cat r1 r2) fuel prev s cs k
  = run r1 fuel prev s cs (fun prev' s' cs' => run r2 fuel prev' s' cs' k).
Proof. reflexivity. Qed.

Lemma run_grp_eq (R : Type) (i : nat) (r : regex) (fuel : nat)
    (prev : option ascii) (s : str) (cs : caps)
    (k : option ascii -> str -> caps -> option R) :
  run (Grp i r) fuel prev s cs k
  = run r fuel prev s cs
      (fun prev' s' cs' =>
         k prev' s' ((i, firstn (List.length s - List.length s') s) :: cs')).
Proof. reflexivity. Qed.

Variable p : ascii -> bool.

Lemma take_while_lstrip (s : str) :
  s = (take_while p s ++ lstrip_by p s)%list.
Proof.
  induction s as [|c s IH]; simpl; [reflexivity|].
  destruct (p c); simpl; [rewrite <- IH|]; reflexivity.
Qed.

Lemma length_take_lstrip (s : str) :
  List.length s
  = (List.length (take_while p s) + List.length (lstrip_by p s))%nat.
Proof.
  rewrite (take_while_lstrip s) at 1. apply length_app.
Qed.

Lemma firstn_take_while (s : str) :
  firstn (List.length (take_while p s)) s = take_while p s.
Proof.
  induction s as [|c s IH]; simpl; [reflexivity|].
  destruct (p c); simpl; [rewrite IH|]; reflexivity.
Qed.

(** A greedy repetition of a class, followed by something that cannot
    fail, takes the whole run. *)
Lemma star_greedy_total (R : Type)
    (k : option ascii -> str -> caps -> option R) :
  (forall a b c, k a b c <> None) ->
  forall fuel s prev cs,
    (List.length s <= fuel)%nat ->
    run (Star false (Cls p)) fuel prev s cs k
    = k (last_or prev (take_while p s)) (lstrip_by p s) cs.
Proof.
  intros Hk fuel. induction fuel as [|n IH]; intros s prev cs L;
    rewrite run_star_eq; cbv beta iota zeta; cbn [orelse].
  - destruct s; [reflexivity | simpl in L; lia].
  - rewrite run_cls_eq. destruct s as [|c s]; [reflexivity|].
    cbn [take_while lstrip_by]. destruct (p c); [|reflexivity].
    assert (Hl : (List.length s <? List.length (c :: s)) = true)
      by (apply Nat.ltb_lt; simpl; lia).
    rewrite Hl, IH by (simpl in L; lia).
    unfold last_or. cbn [fold_left]. fold (last_or (Some c) (take_while p s)).
    destruct (k (last_or (Some c) (take_while p s)) (lstrip_by p s) cs) eqn:E;
      [reflexivity|]. exfalso. exact (Hk _ _ _ E).
Qed.

Lemma run_at_plus (prev : option ascii) (s : str) :
  run_at (Grp 1 (Plus (Cls p))) prev s
  = match s with
    | c :: s' =>
        if p c
        then Some (MRes (last_or (Some c) (take_while p s')) (lstrip_by p s')
                        [(1%nat, c :: take_while p s')])
        else None
    | [] => None
    end.
Proof.
  unfold run_at, Plus. rewrite run_grp_eq, run_cat_eq, run_cls_eq.
  destruct s as [|c s]; [reflexivity|].
  destruct (p c); [|reflexivity].
  rewrite star_greedy_total; [| intros a b d; discriminate | simpl; lia].
  f_equal. f_equal. f_equal. f_equal.
  pose proof (length_take_lstrip s) as E.
  replace (List.length (c :: s) - List.length (lstrip_by p s))%nat
    with (S (List.length (take_while p s))) by (cbn [List.length]; lia).
  cbn [firstn]. f_equal. apply firstn_take_while.
Qed.

(** The search finds the first character of the class and takes the
    run that starts there; it fails only when there is none. *)
Lemma search_plus (s : str) :
  option_map (group 1) (search (Grp 1 (Plus (Cls p))) s)
  = if existsb p s then Some (first_run p s) else None.
Proof.
  unfold search. generalize (@None ascii) as prev.
  induction s as [|c s IH]; intro prev; [reflexivity|].
  cbn [search_from]. rewrite run_at_plus. unfold first_run.
  cbn [existsb lstrip_by]. destruct (p c) eqn:E; cbn [negb orb].
  - cbn [option_map fst group m_caps lookup_cap Nat.eqb take_while].
    rewrite E. reflexivity.
  - apply IH.
Qed.

End RunSearch.

Section NumberExtractors.
Import PyStr Regex Dict Adaptive Extract Spec Facts.

Lemma int_of_nonneg (s : str) : (0 <= int_of s)%Z.
Proof.
  unfold int_of.
  assert (H : forall acc, (0 <= acc)%Z ->
            (0 <= fold_left (fun a c => 10 * a + digit_val c) s acc)%Z).
  { induction s as [|c s IH]; intros a Ha; cbn [fold_left]; [exact Ha|].
    apply IH. unfold digit_val. lia. }
  apply H. lia.
Qed.

Lemma existsb_remove_comma (text : str) :
  existsb is_digit (remove_chr ","%char text) = existsb is_digit text.
Proof.
  unfold remove_chr. induction text as [|c s IH]; [reflexivity|].
  cbn [filter existsb].
  destruct (chr_eqb c ","%char) eqn:E; cbn [negb existsb].
  - unfold chr_eqb in E. apply Ascii.eqb_eq in E. subst c. exact IH.
  - rewrite IH. reflexivity.
Qed.

(** [extract_number] returns nothing exactly when the text holds no
    digit.  When the text holds a digit and the first maximal run of
    digits of the text, read without its commas, is within the limit
    of [int], it returns the value of that run, which is never
    negative. *)
Theorem extract_number_first_run (text : str) :
  let run := first_run is_digit (remove_chr ","%char text) in
  (extract_number text = None <-> existsb is_digit text = false) /\
  (existsb is_digit text = true ->
   (List.length run <= int_max_str_digits)%nat ->
   extract_number text = Some (int_of run) /\ (0 <= int_of run)%Z).
Proof.
  intro run. subst run.
  assert (E : extract_number text
              = if existsb is_digit text
                then Some (int_of (first_run is_digit
                                     (remove_chr ","%char text)))
                else None).
  { unfold extract_number. destruct text as [|c s]; [reflexivity|].
    cbn [is_nil].
    pose proof (search_plus is_digit (remove_chr ","%char (c :: s))) as H.
    rewrite existsb_remove_comma in H. fold Digit in H.
    destruct (search (Grp 1 (Plus Digit)) (remove_chr ","%char (c :: s)))
      as [x|]; cbn [option_map] in *;
      destruct (existsb is_digit (c :: s)); try discriminate H;
      [|reflexivity].
    injection H as H. rewrite H. reflexivity. }
  rewrite E. destruct (existsb is_digit text); split;
    try (split; congruence).
  - intros _ _. split; [reflexivity | apply int_of_nonneg].
Qed.

Lemma extract_number_first_run_witness :
  extract_number (lit "Rs 1,23,456 only, 789") = Some 123456%Z.
Proof.
  refine (proj1 (proj2 (extract_number_first_run
                          (lit "Rs 1,23,456 only, 789")) _ _)).
  - reflexivity.
  - apply Nat.leb_le. vm_compute. reflexivity.
Defined.

End NumberExtractors.

(** ** Floats and dates *)

Section FloatsAndDates.
Import PyStr Regex Dict Adaptive Extract Spec Facts.

Lemma take_while_all (p : ascii -> bool) (s : str) :
  forallb p (take_while p s) = true.
Proof.
  induction s as [|c s IH]; simpl; [reflexivity|].
  destruct (p c) eqn:E; simpl; [rewrite E; exact IH | reflexivity].
Qed.

Lemma dots_app (a b : str) : dots (a ++ b) = (dots a + dots b)%nat.
Proof. unfold dots. rewrite filter_app, length_app. reflexivity. Qed.

Lemma digit_not_dot (c : ascii) :
  is_digit c = true -> chr_eqb c "."%char = false.
Proof.
  destruct c as [[] [] [] [] [] [] [] []]; vm_compute; intro H;
    first [discriminate H | reflexivity].
Qed.

Lemma digits_no_dots (s : str) : forallb is_digit s = true -> dots s = 0%nat.
Proof.
  unfold dots. induction s as [|c s IH]; simpl; [reflexivity|].
  intro H. apply andb_true_iff in H. destruct H as [H1 H2].
  rewrite (digit_not_dot c H1). exact (IH H2).
Qed.

Lemma no_dots_digits (s : str) :
  forallb digit_or_dot s = true -> dots s = 0%nat -> forallb is_digit s = true.
Proof.
  unfold dots. induction s as [|c s IH]; simpl; [reflexivity|].
  intros H D. apply andb_true_iff in H. destruct H as [H1 H2].
  unfold digit_or_dot in H1.
  destruct (chr_eqb c "."%char); [discriminate D|].
  rewrite orb_false_r in H1. rewrite H1. exact (IH H2 D).
Qed.

Lemma all_digits_exists (s : str) :
  forallb is_digit s = true -> existsb is_digit s = negb (is_nil s).
Proof.
  destruct s as [|c s]; [reflexivity|]. simpl. intro H.
  apply andb_true_iff in H. destruct H as [H _]. rewrite H. reflexivity.
Qed.

Lemma forallb_app_inv {A : Type} (f : A -> bool) (a b : list A) :
  forallb f (a ++ b) = true -> forallb f a = true /\ forallb f b = true.
Proof. rewrite forallb_app. apply andb_true_iff. Qed.

(** [float] on a string of digits and dots succeeds exactly when the
    string has at most one dot and at least one digit, and the value is
    never negative. *)
Lemma float_of_spec (s : str) :
  forallb digit_or_dot s = true ->
  ((exists v, float_of s = Ok v) <->
   (dots s <= 1)%nat /\ existsb is_digit s = true) /\
  (forall v, float_of s = Ok v -> 0 <= v).
Proof.
  intro Hs. unfold float_of.
  pose proof (take_while_lstrip is_digit s) as E.
  pose proof (take_while_all is_digit s) as Hip.
  set (ip := take_while is_digit s) in *.
  destruct (lstrip_by_cases is_digit s) as [R | (c & fp & R & Hc)].
  - rewrite R in *. rewrite app_nil_r in E. rewrite E.
    rewrite (digits_no_dots ip Hip), (all_digits_exists ip Hip).
    destruct ip as [|d ip]; cbn [is_nil negb].
    + split; [split; [intros [v H]; discriminate H
                     | intros [_ H]; discriminate H]
             | intros v H; discriminate H].
    + split; [split; [intros _; split; [lia | reflexivity]
                     | intros _; eexists; reflexivity]|].
      intros v H. inversion H; subst v. unfold Qle. simpl.
      pose proof (int_of_nonneg (d :: ip)). lia.
  - rewrite R in *.
    assert (Hdd : forallb digit_or_dot (ip ++ c :: fp) = true)
      by (rewrite <- E; exact Hs).
    apply forallb_app_inv in Hdd. destruct Hdd as [_ Hdd].
    cbn [forallb] in Hdd. apply andb_true_iff in Hdd.
    destruct Hdd as [Hcd Hfp]. unfold digit_or_dot in Hcd.
    rewrite Hc in Hcd. cbn [orb] in Hcd. rewrite Hcd. cbn [andb].
    assert (Ds : dots s = S (dots fp)).
    { rewrite E, dots_app, (digits_no_dots ip Hip). unfold dots.
      cbn [filter]. rewrite Hcd. reflexivity. }
    assert (Xs : existsb is_digit s
                 = negb (is_nil ip) || existsb is_digit fp).
    { rewrite E, existsb_app, (all_digits_exists ip Hip).
      cbn [existsb]. rewrite Hc. reflexivity. }
    rewrite Ds, Xs.
    destruct (forallb is_digit fp) eqn:F; cbn [andb].
    + rewrite (digits_no_dots fp F), (all_digits_exists fp F).
      destruct (is_nil ip && is_nil fp) eqn:N; cbn [negb].
      * apply andb_true_iff in N. destruct N as [N1 N2]. rewrite N1, N2.
        split; [split; [intros [v H]; discriminate H
                       | intros [_ H]; discriminate H]
               | intros v H; discriminate H].
      * split.
        -- split; [intros _; split; [lia|]
                  | intros _; eexists; reflexivity].
           destruct (is_nil ip); [|reflexivity].
           cbn [andb] in N. rewrite N. reflexivity.
        -- intros v H.
           replace v with (Qred (Qmake (int_of (ip ++ fp))
                     (Z.to_pos (10 ^ Z.of_nat (List.length fp)))))
             by congruence.
           apply (Qle_trans _ (Qmake (int_of (ip ++ fp))
                    (Z.to_pos (10 ^ Z.of_nat (List.length fp))))).
           ++ unfold Qle. cbn [Qnum Qden].
              pose proof (int_of_nonneg (ip ++ fp)). lia.
           ++ apply Qle_lteq. right. symmetry. apply Qred_correct.
    + split; [split; [intros [v H]; discriminate H|]
             | intros v H; discriminate H].
      intros [D _]. exfalso.
      assert (dots fp = 0%nat) by lia.
      rewrite (no_dots_digits fp Hfp H) in F. discriminate F.
Qed.

(** [extract_float] reads the first maximal run of digits and dots of
    the text.  It returns nothing exactly when the text has no digit
    and no dot; it raises exactly when that first run has more than one
    dot or no digit at all (so a full stop before the number is enough);
    and a value it returns is never negative. *)
Theorem extract_float_first_run (text : str) :
  let r := first_run digit_or_dot text in
  (extract_float text = Ok None <-> existsb digit_or_dot text = false) /\
  (extract_float text = Raise ValueError <->
   existsb digit_or_dot text = true /\
   ((1 < dots r)%nat \/ existsb is_digit r = false)) /\
  (forall v, extract_float text = Ok (Some v) ->
     float_of r = Ok v /\ 0 <= v).
Proof.
  intro r.
  assert (E : extract_float text
              = if existsb digit_or_dot text
                then (v <- float_of r ;; Ok (Some v))
                else Ok None).
  { unfold extract_float. destruct text as [|c s]; [reflexivity|].
    cbn [is_nil].
    pose proof (search_plus digit_or_dot (c :: s)) as H. fold r in H.
    destruct (search (Grp 1 (Plus (Cls digit_or_dot))) (c :: s)) as [x|];
      cbn [option_map] in H;
      destruct (existsb digit_or_dot (c :: s)); try discriminate H;
      [|reflexivity].
    injection H as H. rewrite H. reflexivity. }
  assert (Hr : forallb digit_or_dot r = true) by apply take_while_all.
  destruct (float_of_spec r Hr) as [F1 F2].
  rewrite E. destruct (existsb digit_or_dot text).
  - destruct (float_of r) as [v|e] eqn:F; cbn [bind].
    + assert (Hok : (dots r <= 1)%nat /\ existsb is_digit r = true)
        by (apply F1; exists v; reflexivity).
      split; [split; intro H; discriminate H|].
      split.
      * split; [intro H; discriminate H|].
        intros [_ [D | D]]; [lia | rewrite D in Hok; destruct Hok; discriminate].
      * intros w H. inversion H; subst w. split; [reflexivity | apply F2; reflexivity].
    + pose proof (float_of_raises r e F) as ->.
      split; [split; intro H; discriminate H|].
      split; [|intros w H; discriminate H].
      split; [intros _; split; [reflexivity|] | reflexivity].
      destruct (existsb is_digit r) eqn:X; [|right; reflexivity].
      left. destruct (Nat.le_gt_cases (dots r) 1) as [L|G]; [|exact G].
      exfalso. destruct (proj2 F1 (conj L eq_refl)) as [v Hv]. discriminate Hv.
  - split; [split; reflexivity|].
    split; [split; [intro H; discriminate H | intros [H _]; discriminate H]|].
    intros v H. discriminate H.
Qed.

Lemma extract_float_first_run_witness :
  extract_float (lit "approx. 120") = Raise ValueError /\
  extract_float (lit "area 12.5 sqm") = Ok (Some (25 # 2)).
Proof.
  split.
  - apply (proj1 (proj2 (extract_float_first_run (lit "approx. 120")))).
    split; [reflexivity | right; reflexivity].
  - destruct (extract_float (lit "area 12.5 sqm")) as [[v|]|e] eqn:E;
      try (vm_compute in E; discriminate E).
    destruct (proj2 (proj2 (extract_float_first_run (lit "area 12.5 sqm")))
                v E) as [H _].
    vm_compute in H. inversion H. reflexivity.
Defined.

(** *** Dates *)

Lemma run_seq (R : Type) (ps : list (ascii -> bool)) (fuel : nat)
    (prev : option ascii) (s : str) (cs : caps)
    (k : option ascii -> str -> caps -> option R) :
  run (Seq ps) fuel prev s cs k
  = if prefix_ok ps s
    then k (last_or prev (firstn (List.length ps) s))
           (skipn (List.length ps) s) cs
    else None.
Proof.
  revert prev s. induction ps as [|p ps IH]; intros prev s; [reflexivity|].
  cbn [Seq]. rewrite run_cat_eq, run_cls_eq.
  destruct s as [|c s]; [reflexivity|].
  cbn [prefix_ok]. destruct (p c); [|reflexivity].
  rewrite IH. reflexivity.
Qed.

Lemma prefix_ok_length (ps : list (ascii -> bool)) (s : str) :
  prefix_ok ps s = true -> (List.length ps <= List.length s)%nat.
Proof.
  revert s. induction ps as [|p ps IH]; intros s H; simpl; [lia|].
  destruct s as [|c s]; [discriminate H|]. simpl in H.
  apply andb_true_iff in H. destruct H as [_ H]. apply IH in H. simpl. lia.
Qed.

Lemma prefix_ok_firstn (ps : list (ascii -> bool)) (s : str) :
  prefix_ok ps (firstn (List.length ps) s) = prefix_ok ps s.
Proof.
  revert s. induction ps as [|p ps IH]; intros s; [reflexivity|].
  destruct s as [|c s]; [reflexivity|]. simpl. rewrite IH. reflexivity.
Qed.

Lemma prefix_ok_app (ps : list (ascii -> bool)) (d b : str) :
  prefix_ok ps d = true -> prefix_ok ps (d ++ b) = true.
Proof.
  revert d. induction ps as [|p ps IH]; intros d H; [reflexivity|].
  destruct d as [|c d]; [discriminate H|]. simpl in *.
  apply andb_true_iff in H. destruct H as [H1 H2].
  rewrite H1, (IH d H2). reflexivity.
Qed.

Lemma date_body_seq (R : Type) (fuel : nat) (prev : option ascii)
    (s : str) (cs : caps) (k : option ascii -> str -> caps -> option R) :
  run (Cat (Times 2 Digit) (Cat (Lit (lit "-"))
        (Cat (Times 2 Digit) (Cat (Lit (lit "-")) (Times 4 Digit)))))
      fuel prev s cs k
  = run (Seq date_classes) fuel prev s cs k.
Proof. reflexivity. Qed.

Lemma run_at_date (prev : option ascii) (s : str) :
  option_map (group 1) (run_at date_re prev s)
  = if prefix_ok date_classes s then Some (firstn 10 s) else None.
Proof.
  unfold run_at.
  unfold date_re. rewrite run_grp_eq, date_body_seq, run_seq.
  destruct (prefix_ok date_classes s) eqn:P; [|reflexivity].
  cbn [option_map group m_caps lookup_cap Nat.eqb]. f_equal.
  apply prefix_ok_length in P. rewrite length_skipn.
  replace (List.length s - (List.length s - List.length date_classes))%nat
    with 10%nat; [reflexivity|].
  change (List.length date_classes) with 10%nat in *. lia.
Qed.

Lemma search_date (s : str) (prev : option ascii) :
  (forall d, option_map (fun xf => group 1 (fst xf))
               (search_from date_re prev s) = Some d ->
     is_date d = true /\ exists a b, s = (a ++ d ++ b)%list) /\
  (search_from date_re prev s = None ->
   forall a d b, s = (a ++ d ++ b)%list -> is_date d = false).
Proof.
  revert prev. induction s as [|c s IH]; intro prev.
  - cbn [search_from]. pose proof (run_at_date prev []) as H.
    cbn [prefix_ok date_classes] in H.
    destruct (run_at date_re prev []); [discriminate H|].
    split; [intros d Hd; discriminate Hd|].
    intros _ a d b E. symmetry in E. apply app_eq_nil in E.
    destruct E as [_ E]. apply app_eq_nil in E. destruct E as [-> _].
    reflexivity.
  - cbn [search_from]. pose proof (run_at_date prev (c :: s)) as H.
    destruct (run_at date_re prev (c :: s)) as [x|].
    + cbn [option_map] in H.
      destruct (prefix_ok date_classes (c :: s)) eqn:P; [|discriminate H].
      split; [|intro N; discriminate N].
      intros d Hd. cbn [option_map fst] in Hd.
      assert (Ed : d = firstn 10 (c :: s)) by congruence.
      rewrite Ed. clear Ed Hd H. split.
      * unfold is_date.
        pose proof (prefix_ok_firstn date_classes (c :: s)) as Hf.
        change (List.length date_classes) with 10%nat in Hf.
        rewrite Hf, P, andb_true_r.
        apply Nat.eqb_eq. apply prefix_ok_length in P.
        rewrite length_firstn. change (List.length date_classes) with 10%nat in P.
        lia.
      * exists [], (skipn 10 (c :: s)). cbn [app].
        symmetry. apply firstn_skipn.
    + destruct (prefix_ok date_classes (c :: s)) eqn:P; [discriminate H|].
      destruct (IH (Some c)) as [I1 I2]. split.
      * intros d Hd. destruct (I1 d Hd) as [Hdate (a & b & E)].
        split; [exact Hdate|]. exists (c :: a), b. rewrite E. reflexivity.
      * intros N a d b E. destruct a as [|c' a].
        -- cbn [app] in E. destruct (is_date d) eqn:D; [|reflexivity].
           unfold is_date in D. apply andb_true_iff in D. destruct D as [_ D].
           rewrite E, (prefix_ok_app _ d b D) in P. discriminate P.
        -- inversion E; subst. apply (I2 N a d b). reflexivity.
Qed.

(** [extract_date] returns the leftmost piece of the text made of two
    digits, a hyphen, two digits, a hyphen and four digits, and returns
    nothing exactly when the text holds no such piece. *)
Theorem extract_date_shape (text : str) :
  (forall d, extract_date text = Some d ->
     is_date d = true /\ exists a b, text = (a ++ d ++ b)%list) /\
  (extract_date text = None <->
   forall a d b, text = (a ++ d ++ b)%list -> is_date d = false).
Proof.
  unfold extract_date, search.
  destruct (search_date text None) as [S1 S2].
  destruct text as [|c s]; cbn [is_nil].
  - split; [intros d H; discriminate H|].
    split; [|reflexivity]. intros _. apply S2. reflexivity.
  - destruct (search_from date_re None (c :: s)) as [[x from]|] eqn:E.
    + cbn [option_map fst] in *. split.
      * intros d H. apply S1. exact H.
      * split; [intro H; discriminate H|].
        intro H. destruct (S1 _ eq_refl) as [D (a & b & Eq)].
        rewrite (H a _ b Eq) in D. discriminate D.
    + cbn [option_map]. split; [intros d H; discriminate H|].
      split; [intros _; apply S2; reflexivity | reflexivity].
Qed.

Lemma extract_date_shape_witness :
  is_date (lit "01-02-2021") = true /\
  exists a b,
    lit "Start Date: 01-02-2021 to 03-04-2022"
    = (a ++ lit "01-02-2021" ++ b)%list.
Proof.
  apply (proj1 (extract_date_shape
                  (lit "Start Date: 01-02-2021 to 03-04-2022"))
               (lit "01-02-2021")).
  reflexivity.
Defined.

End FloatsAndDates.

(** ** Rows taken from the plot tables *)

Section PlotRows.
Import PyStr Regex Dict Adaptive Extract Spec Facts.

Lemma extract_number_nonneg (text : str) (n : Z) :
  extract_number text = Some n -> (0 <= n)%Z.
Proof.
  unfold extract_number. destruct (is_nil text); [discriminate|].
  destruct (search _ _) as [x|]; cbn [option_map]; [|discriminate].
  intro H. injection H as H. rewrite <- H. apply int_of_nonneg.
Qed.

Lemma int_or_nonneg (text : str) : (0 <= int_or (extract_number text) 0)%Z.
Proof.
  unfold int_or. destruct (extract_number text) as [n|] eqn:E; [|lia].
  apply extract_number_nonneg in E. destruct (n =? 0)%Z; lia.
Qed.

Lemma float_of_nonneg (s : str) (v : Q) : float_of s = Ok v -> 0 <= v.
Proof.
  unfold float_of. destruct (lstrip_by is_digit s) as [|c fp].
  - destruct (is_nil (take_while is_digit s)); [discriminate|].
    intro H. replace v with (inject_Z (int_of (take_while is_digit s)))
      by congruence.
    unfold Qle. simpl.
    pose proof (int_of_nonneg (take_while is_digit s)). lia.
  - destruct (_ && _ && _); [|discriminate]. intro H.
    set (q := Qmake (int_of (take_while is_digit s ++ fp))
                (Z.to_pos (10 ^ Z.of_nat (List.length fp)))) in *.
    replace v with (Qred q) by congruence.
    apply (Qle_trans _ q).
    + unfold Qle, q. cbn [Qnum Qden].
      pose proof (int_of_nonneg (take_while is_digit s ++ fp)). lia.
    + apply Qle_lteq. right. symmetry. apply Qred_correct.
Qed.

Lemma extract_float_nonneg (text : str) (v : Q) :
  extract_float text = Ok (Some v) -> 0 <= v.
Proof.
  unfold extract_float. destruct (is_nil text); [discriminate|].
  destruct (search _ _) as [x|]; [|discriminate].
  destruct (float_of (group 1 x)) as [w|e] eqn:F; cbn [bind]; [|discriminate].
  intro H. replace v with w by congruence. exact (float_of_nonneg _ _ F).
Qed.

Lemma float_or_nonneg (o : option Q) :
  (forall v, o = Some v -> 0 <= v) -> 0 <= float_or o 0.
Proof.
  intro H. unfold float_or. destruct o as [f|]; [|apply Qle_refl].
  destruct (truthy f); [apply H; reflexivity | apply Qle_refl].
Qed.

Lemma concat_outcomes_Forall {A B : Type} (f : A -> outcome (list B))
    (P : B -> Prop) (l : list A) (out : list B) :
  (forall x ys, In x l -> f x = Ok ys -> Forall P ys) ->
  concat_outcomes f l = Ok out -> Forall P out.
Proof.
  revert out. induction l as [|x l IH]; intros out Hf H; cbn [concat_outcomes] in H.
  - injection H as H. rewrite <- H. constructor.
  - destruct (f x) as [ys|e] eqn:Fx; cbn [bind] in H; [|discriminate H].
    destruct (concat_outcomes f l) as [zs|e] eqn:Fl; cbn [bind] in H;
      [|discriminate H].
    injection H as H. rewrite <- H. apply Forall_app. split.
    + apply (Hf x ys); [left; reflexivity | exact Fx].
    + apply IH; [|reflexivity]. intros y ys' Hy. apply Hf. right. exact Hy.
Qed.

Lemma concat_outcomes_nil {A B : Type} (f : A -> outcome (list B))
    (l : list A) :
  (forall x, In x l -> f x = Ok []) -> concat_outcomes f l = Ok [].
Proof.
  induction l as [|x l IH]; intro Hf; cbn [concat_outcomes]; [reflexivity|].
  rewrite (Hf x (or_introl eq_refl)). cbn [bind].
  rewrite IH; [reflexivity|]. intros y Hy. apply Hf. right. exact Hy.
Qed.

Lemma plot_type_rows_guard (rows : list Row) :
  Forall (fun pt => pt_type pt <> [] /\ (0 < pt_number pt)%Z /\
                    (0 <= pt_area pt)%Z)
    (flat_map
       (fun row =>
          match row with
          | RowDict d =>
              let pt := plot_type_of_row d in
              if negb (is_nil (pt_type pt)) && (0 <? pt_number pt)%Z
              then [pt] else []
          | RowList _ => []
          end) rows).
Proof.
  apply Forall_flat_map, Forall_forall. intros row _.
  destruct row as [d|cells]; [|constructor].
  cbv beta zeta. set (pt := plot_type_of_row d).
  destruct (negb (is_nil (pt_type pt)) && (0 <? pt_number pt)%Z) eqn:G;
    [|constructor].
  apply andb_true_iff in G. destruct G as [G1 G2].
  constructor; [|constructor].
  split; [intro N; rewrite N in G1; discriminate G1|].
  split; [apply Z.ltb_lt; exact G2 | apply int_or_nonneg].
Qed.

Lemma plot_types_of_table_guard (t : Table) (pts : list PlotType) :
  plot_types_of_table t = Ok pts ->
  Forall (fun pt => pt_type pt <> [] /\ (0 < pt_number pt)%Z /\
                    (0 <= pt_area pt)%Z) pts.
Proof.
  unfold plot_types_of_table.
  destruct (has_header t && negb (is_nil (data t)));
    [|intro H; injection H as H; rewrite <- H; constructor].
  destruct (headers_of t) as [hs|e]; cbn [bind]; [|discriminate].
  destruct (is_plot_type_table hs); intro H;
    [|injection H as H; rewrite <- H; constructor].
  assert (E : pts = flat_map
       (fun row =>
          match row with
          | RowDict d =>
              let pt := plot_type_of_row d in
              if negb (is_nil (pt_type pt)) && (0 <? pt_number pt)%Z
              then [pt] else []
          | RowList _ => []
          end) (rows_after_first t))
    by (injection H as H; symmetry; exact H).
  rewrite E. apply plot_type_rows_guard.
Qed.

Lemma plots_of_rows_guard (rows : list Row) (pls : list Plot) :
  plots_of_rows rows = Ok pls ->
  Forall (fun pl => pl_plot_no pl <> [] /\ 0 <= pl_area pl) pls.
Proof.
  revert pls. induction rows as [|row rows IH]; intros pls H;
    cbn [plots_of_rows] in H.
  - injection H as H. rewrite <- H. constructor.
  - destruct row as [d|cells]; [|apply IH; exact H].
    destruct (plot_of_row d) as [p|e] eqn:P; cbn [bind] in H;
      [|discriminate H].
    destruct (plots_of_rows rows) as [ps|e] eqn:Q; cbn [bind] in H;
      [|discriminate H].
    injection H as H. rewrite <- H.
    destruct (is_nil (pl_plot_no p)) eqn:N; [apply IH; reflexivity|].
    constructor; [|apply IH; reflexivity].
    split; [intro E; rewrite E in N; discriminate N|].
    unfold plot_of_row in P.
    destruct (extract_float _) as [area|e] eqn:F; cbn [bind] in P;
      [|discriminate P].
    injection P as P. rewrite <- P. cbn [pl_area].
    apply float_or_nonneg. intros v Hv. rewrite Hv in F.
    exact (extract_float_nonneg _ _ F).
Qed.

Lemma plots_of_table_guard (t : Table) (pls : list Plot) :
  plots_of_table t = Ok pls ->
  Forall (fun pl => pl_plot_no pl <> [] /\ 0 <= pl_area pl) pls.
Proof.
  unfold plots_of_table.
  destruct (has_header t && negb (is_nil (data t)));
    [|intro H; injection H as H; rewrite <- H; constructor].
  destruct (headers_of t) as [hs|e]; cbn [bind]; [|discriminate].
  destruct (is_plot_table hs);
    [apply plots_of_rows_guard
    |intro H; injection H as H; rewrite <- H; constructor].
Qed.

(** Every entry of [plot_types] of a parsed project has a
    non-empty type, a positive number of sites and a non-negative
    area; every entry of [plots] has a non-empty plot number and a
    non-negative area. *)
Theorem plot_rows_are_guarded (json_data : Document) (p : Project) :
  parse_project_from_json json_data = Ok p ->
  Forall (fun pt => pt_type pt <> [] /\ (0 < pt_number pt)%Z /\
                    (0 <= pt_area pt)%Z) (plot_types p) /\
  Forall (fun pl => pl_plot_no pl <> [] /\ 0 <= pl_area pl) (plots p).
Proof.
  unfold parse_project_from_json.
  destruct (resolve_coordinates _ _) as [c|e]; cbn [bind]; [|discriminate].
  destruct (concat_outcomes plot_types_of_table _) as [pts|e] eqn:T;
    cbn [bind]; [|discriminate].
  destruct (concat_outcomes plots_of_table _) as [pls|e] eqn:L;
    cbn [bind]; [|discriminate].
  intro H. injection H as H. rewrite <- H. cbn [plot_types plots]. split.
  - refine (concat_outcomes_Forall _ _ _ _ _ T).
    intros t ys _. apply plot_types_of_table_guard.
  - refine (concat_outcomes_Forall _ _ _ _ _ L).
    intros t ys _. apply plots_of_table_guard.
Qed.

Lemma plot_rows_are_guarded_witness :
  let grid := [Spec.cells ["Sl No."%string; "Plot Type"%string;
                           "Number of Sites"%string; "Total Area"%string];
               Spec.cells ["1"%string; "30x40"%string; "12"%string;
                           "1,200"%string];
               Spec.cells ["2"%string; "40x60"%string; "5"%string;
                           "900"%string];
               Spec.cells ["3"%string; "Park"%string; "none"%string;
                           "100"%string]] in
  let t := mkTable 1 0 true (table_data grid) 3 in
  let d := build_json_structure (lit "a.pdf") [] [] [t] false in
  exists p, parse_project_from_json d = Ok p /\
            List.length (plot_types p) = 1%nat /\
            Forall (fun pt => pt_type pt <> [] /\ (0 < pt_number pt)%Z /\
                              (0 <= pt_area pt)%Z) (plot_types p).
Proof.
  intros grid t d.
  destruct (parse_project_from_json d) as [p|e] eqn:E;
    [|vm_compute in E; discriminate E].
  exists p. split; [reflexivity|].
  pose proof (proj1 (plot_rows_are_guarded d p E)) as G.
  split; [|exact G].
  vm_compute in E. injection E as E. rewrite <- E. reflexivity.
Defined.

(** Tables that were classified as having no header give the
    project no plot type and no plot, whatever their rows say. *)
Theorem headerless_tables_give_no_rows (json_data : Document) (p : Project) :
  forallb (fun t => negb (has_header t)) (detected_tables json_data) = true ->
  parse_project_from_json json_data = Ok p ->
  plot_types p = [] /\ plots p = [].
Proof.
  intros Hh. unfold parse_project_from_json.
  destruct (resolve_coordinates _ _) as [c|e]; cbn [bind]; [|discriminate].
  rewrite forallb_forall in Hh.
  rewrite (concat_outcomes_nil plot_types_of_table).
  2:{ intros t Ht. unfold plot_types_of_table.
      specialize (Hh t Ht). destruct (has_header t); [discriminate Hh|].
      reflexivity. }
  rewrite (concat_outcomes_nil plots_of_table).
  2:{ intros t Ht. unfold plots_of_table.
      specialize (Hh t Ht). destruct (has_header t); [discriminate Hh|].
      reflexivity. }
  cbn [bind]. intro H. injection H as H. rewrite <- H. split; reflexivity.
Qed.

Lemma headerless_tables_give_no_rows_witness :
  let grid := [Spec.cells ["1"%string; "30x40"%string; "12"%string];
               Spec.cells ["2"%string; "40x60"%string; "5"%string]] in
  let t := mkTable 1 0 (first_row_is_header grid) (table_data grid) 2 in
  let d := build_json_structure (lit "a.pdf") [] [] [t] false in
  exists p, parse_project_from_json d = Ok p /\
            plot_types p = [] /\ plots p = [].
Proof.
  intros grid t d.
  destruct (parse_project_from_json d) as [p|e] eqn:E;
    [|vm_compute in E; discriminate E].
  exists p. split; [reflexivity|].
  apply (headerless_tables_give_no_rows d p); [reflexivity | exact E].
Defined.

End PlotRows.

(** ** The lines of the text layer *)

Section TextLayer.
Import PyStr Regex Dict Adaptive Reader ReaderFacts.

Variable round1 : Q -> Q.
Variable far : Q -> Q -> bool.

Lemma finish_groups_from (cs : list PdfChar) (st : GroupSt) (y : Q) :
  current_line st <> [] -> current_y st = Some y ->
  flush_line (fold_left (char_step round1 far) cs st)
    (match current_y (fold_left (char_step round1 far) cs st) with
     | Some v => v
     | None => 0
     end)
  = (lines_data st ++
     map (fun g => line_of (fst g) (snd g))
         (groups_from round1 far y (current_line st) cs))%list.
Proof.
  revert st y. induction cs as [|c cs IH]; intros st y Hne Hy.
  - cbn [fold_left groups_from map fst snd]. rewrite Hy. unfold flush_line.
    destruct (current_line st); [contradiction Hne; reflexivity | reflexivity].
  - cbn [fold_left groups_from].
    assert (E : char_step round1 far st c
                = if far (round1 (c_top c)) y
                  then mkGroupSt (flush_line st y) [c]
                         (Some (round1 (c_top c)))
                  else mkGroupSt (lines_data st) (current_line st ++ [c])
                         (Some y))
      by (unfold char_step; rewrite Hy; reflexivity).
    rewrite E. clear E.
    destruct (far (round1 (c_top c)) y).
    + rewrite (IH _ (round1 (c_top c))); [|discriminate | reflexivity].
      cbn [lines_data current_line map fst snd]. unfold flush_line.
      destruct (current_line st) eqn:E; [contradiction Hne; reflexivity|].
      cbn [is_nil]. rewrite <- app_assoc. reflexivity.
    + rewrite (IH _ y); [reflexivity | | reflexivity].
      cbn [current_line]. intro N. apply app_eq_nil in N.
      destruct N as [_ N]. discriminate N.
Qed.

Lemma group_lines_groups (chars : list PdfChar) :
  group_lines round1 far chars
  = map (fun g => line_of (fst g) (snd g)) (groups_of round1 far chars).
Proof.
  destruct chars as [|c cs]; [reflexivity|].
  unfold group_lines, groups_of. cbn [fold_left].
  assert (E : char_step round1 far (mkGroupSt [] [] None) c
              = mkGroupSt [] [c] (Some (round1 (c_top c)))).
  { unfold char_step. cbn [current_y lines_data current_line].
    destruct (far _ _); reflexivity. }
  rewrite E.
  apply (finish_groups_from cs (mkGroupSt [] [c] (Some (round1 (c_top c))))
           (round1 (c_top c))); [discriminate | reflexivity].
Qed.

Lemma groups_from_concat (cs cur : list PdfChar) (y : Q) :
  List.concat (map snd (groups_from round1 far y cur cs)) = (cur ++ cs)%list.
Proof.
  revert cur y. induction cs as [|c cs IH]; intros cur y; cbn [groups_from].
  - cbn. rewrite app_nil_r. reflexivity.
  - destruct (far _ _).
    + cbn [map snd List.concat]. rewrite IH. reflexivity.
    + rewrite IH, <- app_assoc. reflexivity.
Qed.

Lemma groups_from_head (cs cur : list PdfChar) (y : Q) :
  exists g rest, groups_from round1 far y cur cs = (y, g) :: rest.
Proof.
  revert cur. induction cs as [|c cs IH]; intro cur; cbn [groups_from].
  - eexists; eexists; reflexivity.
  - destruct (far _ _); [eexists; eexists; reflexivity | apply IH].
Qed.

Lemma groups_from_ok (cs : list PdfChar) (c0 : PdfChar)
    (rest : list PdfChar) :
  Forall (fun c' => far (round1 (c_top c')) (round1 (c_top c0)) = false)
         rest ->
  Forall (group_ok round1 far)
         (groups_from round1 far (round1 (c_top c0)) (c0 :: rest) cs).
Proof.
  revert c0 rest. induction cs as [|c cs IH]; intros c0 rest Hr;
    cbn [groups_from].
  - constructor; [|constructor]. split; [reflexivity | exact Hr].
  - destruct (far (round1 (c_top c)) (round1 (c_top c0))) eqn:F.
    + constructor; [split; [reflexivity | exact Hr]|].
      apply IH. constructor.
    + apply (IH c0 (rest ++ [c])%list). apply Forall_app. split; [exact Hr|].
      constructor; [exact F | constructor].
Qed.

Lemma groups_from_chained (cs cur : list PdfChar) (y : Q) :
  chained far (groups_from round1 far y cur cs).
Proof.
  revert cur y. induction cs as [|c cs IH]; intros cur y; cbn [groups_from].
  - exact I.
  - destruct (far (round1 (c_top c)) y) eqn:F; [|apply IH].
    specialize (IH [c] (round1 (c_top c))).
    destruct (groups_from_head cs [c] (round1 (c_top c))) as (g & rest & E).
    rewrite E in *. cbn [chained fst]. split; [exact F | exact IH].
Qed.

(** The loop over the characters of a page cuts them into runs, in
    order and without loss: every run has a first character and is
    read at that character's rounded height, no other character of the
    run is far from that height, each run starts far from the height
    of the run before it, and the lines recorded are the runs' lines. *)
Theorem lines_are_runs_of_characters (chars : list PdfChar) :
  let groups := groups_of round1 far chars in
  group_lines round1 far chars
  = map (fun g => line_of (fst g) (snd g)) groups /\
  List.concat (map snd groups) = chars /\
  Forall (group_ok round1 far) groups /\
  chained far groups.
Proof.
  intro groups. subst groups. split; [apply group_lines_groups|].
  destruct chars as [|c cs]; cbn [groups_of].
  - repeat split; constructor.
  - split; [apply groups_from_concat|].
    split; [apply groups_from_ok; constructor | apply groups_from_chained].
Qed.

Lemma visible_app (a b : str) : visible (a ++ b) = (visible a ++ visible b)%list.
Proof. apply filter_app. Qed.

Lemma visible_lstrip (s : str) : visible (lstrip_by is_space s) = visible s.
Proof.
  induction s as [|c s IH]; [reflexivity|]. cbn [lstrip_by].
  destruct (is_space c) eqn:E; [|reflexivity].
  rewrite IH. unfold visible. cbn [filter]. rewrite E. reflexivity.
Qed.

Lemma visible_rev (s : str) : visible (rev s) = rev (visible s).
Proof.
  induction s as [|c s IH]; [reflexivity|]. cbn [rev].
  rewrite visible_app, IH. unfold visible at 2 3. cbn [filter].
  destruct (negb (is_space c)); cbn [rev app]; [reflexivity|].
  rewrite app_nil_r. reflexivity.
Qed.

Lemma visible_strip (s : str) : visible (strip s) = visible s.
Proof.
  unfold strip, strip_by, rstrip_by.
  rewrite visible_rev, visible_lstrip, visible_rev, rev_involutive.
  apply visible_lstrip.
Qed.

Lemma visible_concat_strip (ls : list str) :
  visible (List.concat (map strip ls)) = visible (List.concat ls).
Proof.
  induction ls as [|l ls IH]; [reflexivity|].
  cbn [map List.concat]. rewrite !visible_app, IH, visible_strip. reflexivity.
Qed.

Lemma concat_texts_groups (gs : list (Q * list PdfChar)) :
  List.concat (map (fun g => List.concat (map c_text (snd g))) gs)
  = List.concat (map c_text (List.concat (map snd gs))).
Proof.
  induction gs as [|g gs IH]; [reflexivity|].
  cbn [map List.concat]. rewrite map_app, concat_app, IH. reflexivity.
Qed.

(** Cutting a page into lines loses no visible character and keeps
    their order: the lines' texts, read one after the other without
    their whitespace, are the characters' texts without theirs. *)
Theorem lines_keep_visible_text (chars : list PdfChar) :
  visible (List.concat (map l_text (group_lines round1 far chars)))
  = visible (List.concat (map c_text chars)).
Proof.
  rewrite group_lines_groups, map_map.
  assert (E : map (fun g => l_text (line_of (fst g) (snd g)))
                  (groups_of round1 far chars)
              = map strip
                  (map (fun g => List.concat (map c_text (snd g)))
                       (groups_of round1 far chars)))
    by (rewrite map_map; reflexivity).
  rewrite E, visible_concat_strip, concat_texts_groups. do 3 f_equal.
  destruct chars as [|c cs]; [reflexivity|].
  apply (groups_from_concat cs [c]).
Qed.

End TextLayer.

(** ** The lines of the OCR layer *)

Section OcrLayer.
Import PyStr Regex Dict Adaptive Reader ReaderFacts.

Lemma split_on_cons (sep : ascii) (s : str) :
  exists l ls, split_on sep s = l :: ls.
Proof.
  destruct s as [|c s]; cbn [split_on]; [eexists; eexists; reflexivity|].
  destruct (chr_eqb c sep); [eexists; eexists; reflexivity|].
  destruct (split_on sep s); eexists; eexists; reflexivity.
Qed.

Lemma split_on_free (sep : ascii) (s : str) :
  Forall (Forall (fun c => c <> sep)) (split_on sep s).
Proof.
  induction s as [|c s IH]; cbn [split_on].
  - constructor; constructor.
  - destruct (chr_eqb c sep) eqn:E; [constructor; [constructor | exact IH]|].
    assert (Hc : c <> sep).
    { intro N. subst c. unfold chr_eqb in E. rewrite Ascii.eqb_refl in E.
      discriminate E. }
    destruct (split_on sep s) as [|l ls].
    + constructor; [|constructor]. constructor; [exact Hc | constructor].
    + inversion IH as [|x y Hl Hls]. constructor; [|exact Hls].
      constructor; [exact Hc | exact Hl].
Qed.

Lemma visible_split_on (s : str) :
  visible (List.concat (split_on newline s)) = visible s.
Proof.
  induction s as [|c s IH]; [reflexivity|]. cbn [split_on].
  destruct (chr_eqb c newline) eqn:E.
  - unfold chr_eqb in E. apply Ascii.eqb_eq in E. subst c.
    cbn [List.concat app]. rewrite IH. reflexivity.
  - destruct (split_on_cons newline s) as (l & ls & S). rewrite S in *.
    cbn [List.concat app] in *. unfold visible in *. cbn [filter].
    rewrite IH. reflexivity.
Qed.

Lemma visible_concat_nonblank (ls : list str) :
  visible (List.concat
             (filter (fun line => negb (is_nil (strip line))) ls))
  = visible (List.concat ls).
Proof.
  induction ls as [|l ls IH]; [reflexivity|]. cbn [filter List.concat].
  destruct (is_nil (strip l)) eqn:E; cbn [negb].
  - rewrite visible_app, IH, <- (visible_strip l).
    destruct (strip l); [reflexivity | discriminate E].
  - cbn [List.concat]. rewrite !visible_app, IH. reflexivity.
Qed.

(** Reading the OCR text of a page as lines loses no visible character
    and keeps their order. *)
Theorem ocr_lines_keep_visible_text (text : str) :
  visible (List.concat (ocr_lines text)) = visible text.
Proof.
  unfold ocr_lines.
  rewrite visible_concat_strip, visible_concat_nonblank.
  apply visible_split_on.
Qed.

Lemma ocr_lines_trimmed (text : str) :
  Forall (fun l => l <> [] /\ strip l = l /\ Forall (fun c => c <> newline) l)
         (ocr_lines text).
Proof.
  unfold ocr_lines.
  pose proof (split_on_free newline text) as F.
  induction F as [|x xs Hx Hxs IH]; cbn [filter map]; [constructor|].
  destruct (is_nil (strip x)) eqn:E; cbn [negb map]; [exact IH|].
  constructor; [|exact IH].
  split; [intro N; rewrite N in E; discriminate E|].
  split; [apply strip_idem | apply Forall_strip_by; exact Hx].
Qed.

Lemma detect_heading_plain (l : str) :
  strip l = l ->
  detect_heading l None false = upper_case_heading l.
Proof.
  intro H. unfold detect_heading, upper_case_heading. rewrite H.
  destruct l as [|c l]; [reflexivity|]. cbn [is_nil].
  destruct (List.length (c :: l) <? 80);
    destruct (isupper (c :: l) && (3 <? List.length (c :: l)));
    reflexivity.
Qed.

(** On the OCR path every line of a page is non-empty, trimmed and
    without a line break, so the line loop tags every one of them; no
    font is known there, so a line is a heading exactly when it is in
    upper case and has more than 3 and fewer than 80 characters. *)
Theorem ocr_lines_are_tagged (page_data : nat * str) :
  pd_page_number (ocr_page page_data) = fst page_data /\
  Forall (fun li =>
            l_text li <> [] /\ strip (l_text li) = l_text li /\
            Forall (fun c => c <> newline) (l_text li) /\
            classify li <> None /\
            l_is_heading li = upper_case_heading (l_text li))
         (pd_lines (ocr_page page_data)).
Proof.
  split; [reflexivity|]. unfold ocr_page. cbn [pd_lines].
  pose proof (ocr_lines_trimmed (snd page_data)) as F.
  induction F as [|l ls (Hne & Hs & Hn) Hls IH]; cbn [map]; constructor;
    [|exact IH].
  unfold ocr_line. cbn [l_text l_is_heading].
  split; [exact Hne|]. split; [exact Hs|]. split; [exact Hn|]. split.
  - unfold classify. cbv zeta. cbn [l_text l_is_heading]. rewrite Hs.
    destruct l as [|c l]; [contradiction Hne; reflexivity|]. cbn [is_nil].
    destruct (detect_heading _ _ _); [discriminate|].
    destruct (looks_key_value _); [discriminate|].
    destruct (looks_list_item _); discriminate.
  - apply detect_heading_plain. exact Hs.
Qed.

End OcrLayer.

(** ** From the file to the record *)

Section Conversion.
Import PyStr Regex Dict Adaptive Extract Inv Facts Reader ReaderFacts.

Variable round1 : Q -> Q.
Variable far : Q -> Q -> bool.

Lemma text_found_firstn (n : nat) (pages : list PdfPage) :
  text_found n pages
  = existsb (fun p => has_text (pg_text p)) (firstn n pages).
Proof.
  revert pages. induction n as [|n IH]; intros [|p pages]; cbn; try reflexivity.
  rewrite IH. destruct (has_text (pg_text p)); reflexivity.
Qed.

Lemma is_scanned_pdf_firstn (pages : list PdfPage) :
  is_scanned_pdf pages
  = negb (existsb (fun p => has_text (pg_text p)) (firstn 3 pages)).
Proof.
  unfold is_scanned_pdf. rewrite text_found_firstn. do 2 f_equal.
  destruct (Nat.le_gt_cases 3 (List.length pages)) as [L|G].
  - rewrite Nat.min_l by exact L. reflexivity.
  - rewrite Nat.min_r by lia.
    rewrite !firstn_all2 by lia. reflexivity.
Qed.

(** A file is taken as scanned exactly when none of its first three
    pages has more than 50 characters of trimmed text; pages after the
    third have no say. *)
Theorem scanned_verdict_reads_three_pages (pages more : list PdfPage) :
  (is_scanned_pdf pages = false <->
   exists p, In p (firstn 3 pages) /\ has_text (pg_text p) = true) /\
  ((3 <= List.length pages)%nat ->
   is_scanned_pdf (pages ++ more) = is_scanned_pdf pages).
Proof.
  split.
  - rewrite is_scanned_pdf_firstn, negb_false_iff, existsb_exists.
    reflexivity.
  - intro L. rewrite !is_scanned_pdf_firstn. do 2 f_equal.
    rewrite firstn_app.
    replace (3 - List.length pages)%nat with 0%nat by lia.
    cbn [firstn]. apply app_nil_r.
Qed.

Lemma scanned_verdict_reads_three_pages_witness :
  let blank := mkPdfPage None [] [] in
  let full := mkPdfPage (Some (repeat "a"%char 60)) [] [] in
  is_scanned_pdf ([blank; blank; blank] ++ [full]) = true.
Proof.
  intros blank full.
  rewrite (proj2 (scanned_verdict_reads_three_pages
                    [blank; blank; blank] [full]));
    [reflexivity | cbn [List.length]; lia].
Defined.

Lemma build_frame (pdf_name : str) (raw : list str)
    (pages : list PageData) (ts : list Table) (scanned : bool) :
  let d := build_json_structure pdf_name raw pages ts scanned in
  map page_number (extracted_pages d) = map pd_page_number pages /\
  raw_text_by_page d = raw /\
  total_pages d = List.length raw /\ is_scanned d = scanned /\
  detected_tables d = ts.
Proof.
  intro d. subst d. unfold build_json_structure.
  set (a0 := initial_asm pdf_name raw ts scanned).
  pose proof (pages_pages pages a0) as HP.
  pose proof (pages_stable _ same_frame_stable pages a0) as (F1 & F2 & F3 & F4).
  pose proof (pages_stable _ same_detected_stable pages a0) as FD.
  unfold same_detected in FD.
  apply (f_equal (map fst)) in HP. rewrite !map_app, !map_map in HP.
  destruct (result (fold_left page_step pages a0)).
  cbn in *. repeat split; assumption.
Qed.

Lemma build_no_tables (pdf_name : str) (raw : list str)
    (pages : list PageData) (scanned : bool) :
  no_tables (build_json_structure pdf_name raw pages [] scanned).
Proof.
  unfold build_json_structure.
  set (a0 := initial_asm pdf_name raw [] scanned).
  pose proof (pages_stable _ no_tables_stable pages a0) as HT.
  unfold preserves, no_tables in *.
  specialize (HT (Forall_nil _)).
  destruct (result (fold_left page_step pages a0)). exact HT.
Qed.

Lemma enumerate_from_numbers {A : Type} (i : nat) (l : list A) :
  map fst (enumerate_from i l) = seq i (List.length l).
Proof.
  revert i. induction l as [|x l IH]; intro i; [reflexivity|].
  cbn [enumerate_from map fst List.length seq]. rewrite IH. reflexivity.
Qed.

Lemma enumerate_from_values {A B : Type} (f : A -> B) (i : nat)
    (l : list A) :
  map (fun it => f (snd it)) (enumerate_from i l) = map f l.
Proof.
  revert i. induction l as [|x l IH]; intro i; [reflexivity|].
  cbn [enumerate_from map snd]. rewrite IH. reflexivity.
Qed.

Lemma extract_with_ocr_texts (images : list (option str)) :
  map snd (extract_with_ocr images)
  = map (fun o => match o with Some t => t | None => [] end) images.
Proof.
  unfold extract_with_ocr. rewrite map_map. cbn [snd].
  apply (enumerate_from_values
           (fun o : option str => match o with Some t => t | None => [] end)).
Qed.

(** A file taken as scanned is read by OCR alone: the conversion fails
    exactly when the OCR cannot open the file, and otherwise the record
    is marked scanned, has no table anywhere, and has one page record
    and one raw text per OCR page, numbered from 1, also for the pages
    whose OCR failed or read nothing. *)
Theorem scanned_file_is_read_by_ocr (pdf_name : str)
    (pages : list PdfPage) (ocr : option (list (option str))) :
  is_scanned_pdf pages = true ->
  match adaptive_pdf_to_json round1 far pdf_name pages ocr with
  | None => ocr = None
  | Some d =>
      exists images, ocr = Some images /\
        is_scanned d = true /\
        detected_tables d = [] /\ no_tables d /\
        total_pages d = List.length images /\
        map page_number (extracted_pages d) = seq 1 (List.length images) /\
        raw_text_by_page d
        = map (fun o => match o with Some t => t | None => [] end) images
  end.
Proof.
  intro H. unfold adaptive_pdf_to_json. rewrite H. cbn [negb orb app].
  destruct ocr as [images|]; [|reflexivity].
  exists images. split; [reflexivity|].
  pose proof (build_frame pdf_name (map snd (extract_with_ocr images))
                (map ocr_page (extract_with_ocr images)) [] true)
    as (B1 & B2 & B3 & B4 & B5).
  assert (N : map fst (extract_with_ocr images) = seq 1 (List.length images)).
  { unfold extract_with_ocr. rewrite map_map. cbn [fst].
    apply enumerate_from_numbers. }
  split; [exact B4|]. split; [exact B5|].
  split; [apply build_no_tables|].
  split; [rewrite B3, length_map; unfold extract_with_ocr;
          rewrite length_map, <- (length_map fst), enumerate_from_numbers;
          apply length_seq|].
  split.
  - rewrite B1, map_map. cbn [ocr_page pd_page_number]. exact N.
  - rewrite B2. apply extract_with_ocr_texts.
Qed.

Lemma page_lines_numbers (pages : list PdfPage) (i : nat) :
  map pd_page_number
      (flat_map (page_lines round1 far) (enumerate_from i pages))
  = map fst (filter (fun np => negb (is_nil (pg_chars (snd np))))
               (enumerate_from i pages)).
Proof.
  revert i. induction pages as [|p pages IH]; intro i; [reflexivity|].
  cbn [enumerate_from flat_map filter]. rewrite map_app, IH.
  unfold page_lines. cbn [fst snd].
  destruct (is_nil (pg_chars p)); reflexivity.
Qed.

Lemma page_tables_classified (np : nat * PdfPage) :
  Forall classified (page_tables np).
Proof.
  unfold page_tables. apply Forall_flat_map, Forall_forall. intros it _.
  destruct (classify_table (fst np) (fst it) (snd it)) as [t|] eqn:E;
    [|constructor].
  constructor; [|constructor]. exists (fst np), (fst it), (snd it). exact E.
Qed.

Lemma extract_tables_classified (pages : list PdfPage) :
  Forall classified (extract_tables_pdfplumber pages).
Proof.
  unfold extract_tables_pdfplumber. apply Forall_flat_map, Forall_forall.
  intros np _. apply page_tables_classified.
Qed.

(** A file not taken as scanned is read by pdfplumber alone, whatever
    the OCR would say: the conversion succeeds, the record is marked as
    not scanned, counts every page, has a page record for exactly the
    pages that have characters, and every one of its tables is recorded
    as the table loop classifies a grid. *)
Theorem text_file_is_read_by_pdfplumber (pdf_name : str)
    (pages : list PdfPage) (ocr : option (list (option str))) :
  is_scanned_pdf pages = false ->
  exists d,
    adaptive_pdf_to_json round1 far pdf_name pages ocr = Some d /\
    is_scanned d = false /\
    total_pages d = List.length pages /\
    map page_number (extracted_pages d) = pages_with_chars pages /\
    detected_tables d = extract_tables_pdfplumber pages /\
    Forall classified (detected_tables d).
Proof.
  intro H. unfold adaptive_pdf_to_json. rewrite H. cbn [negb orb].
  assert (Hne : pages <> []).
  { intro N. subst pages. discriminate H. }
  unfold extract_text_with_structure_pdfplumber. cbn [fst snd].
  destruct pages as [|p pages]; [contradiction Hne; reflexivity|].
  cbn [map is_nil].
  eexists. split; [reflexivity|].
  set (raw := _ :: map _ pages).
  pose proof (build_frame pdf_name raw
                (flat_map (page_lines round1 far) (enumerate_from 1 (p :: pages)))
                (extract_tables_pdfplumber (p :: pages)) false)
    as (B1 & B2 & B3 & B4 & B5).
  split; [exact B4|].
  split; [rewrite B3; subst raw; cbn [List.length]; rewrite length_map;
          reflexivity|].
  split; [rewrite B1; apply page_lines_numbers|].
  split; [exact B5|]. rewrite B5. apply extract_tables_classified.
Qed.

End Conversion.

Section ConversionExamples.
Import PyStr Regex Dict Adaptive Extract Inv Facts Reader ReaderFacts.

Lemma scanned_file_is_read_by_ocr_witness :
  let page := mkPdfPage (Some (lit "stamp")) [] [[Spec.cells ["a"%string]]] in
  exists d,
    adaptive_pdf_to_json (fun q => q) (fun _ _ => false) (lit "a.pdf") [page]
      (Some [Some (lit "SALE DEED"); None]) = Some d /\
    detected_tables d = [] /\ total_pages d = 2%nat.
Proof.
  intro page.
  pose proof (scanned_file_is_read_by_ocr (fun q => q) (fun _ _ => false)
                (lit "a.pdf") [page]
                (Some [Some (lit "SALE DEED"); None]) eq_refl) as H.
  destruct (adaptive_pdf_to_json _ _ _ _ _) as [d|]; [|discriminate H].
  exists d. split; [reflexivity|].
  destruct H as (images & E & _ & T & _ & P & _).
  injection E as E. rewrite <- E in P. split; [exact T | exact P].
Defined.

Lemma text_file_is_read_by_pdfplumber_witness :
  let text := Some (repeat "a"%char 60) in
  let ch := mkPdfChar (lit "a") 10 12 None in
  let pages := [mkPdfPage text [ch] []; mkPdfPage None [] [];
                mkPdfPage text [ch; ch] []] in
  exists d,
    adaptive_pdf_to_json (fun q => q) (fun _ _ => false) (lit "a.pdf") pages
      None = Some d /\
    total_pages d = 3%nat /\
    map page_number (extracted_pages d) = [1; 3]%nat.
Proof.
  intros text ch pages.
  destruct (text_file_is_read_by_pdfplumber (fun q => q) (fun _ _ => false)
              (lit "a.pdf") pages None eq_refl)
    as (d & E & _ & T & P & _).
  exists d. split; [exact E|]. split; [exact T | exact P].
Defined.

End ConversionExamples.

(** ** The batch drivers *)

Section BatchRuns.
Import PyStr Regex Dict Adaptive Extract Batch.

Lemma mem_set_keeps {V : Type} (k k' : str) (v : V) (d : dict V) :
  mem k d = true -> mem k (set k' v d) = true.
Proof.
  unfold mem. intro H. destruct (str_eqb k k') eqn:E.
  - apply str_eqb_eq in E. subst k'. rewrite get_set_same. reflexivity.
  - apply str_eqb_neq in E. rewrite get_set_other by exact E. exact H.
Qed.

Lemma mem_set_same {V : Type} (k : str) (v : V) (d : dict V) :
  mem k (set k v d) = true.
Proof. unfold mem. rewrite get_set_same. reflexivity. Qed.

Lemma convert_step_keeps (skip_existing : bool) (st : dict Document * Counts)
    (pdf : PdfFile) (k : str) :
  mem k (fst st) = true ->
  mem k (fst (convert_step skip_existing st pdf)) = true.
Proof.
  destruct st as [out n]. unfold convert_step. cbn [fst].
  destruct (skip_existing && mem (stem pdf) out); [trivial|].
  destruct (converted pdf); cbn [fst]; [apply mem_set_keeps | trivial].
Qed.

Lemma convert_all_keeps (skip_existing : bool) (pdfs : list PdfFile)
    (st : dict Document * Counts) (k : str) :
  mem k (fst st) = true ->
  mem k (fst (fold_left (convert_step skip_existing) pdfs st)) = true.
Proof.
  revert st. induction pdfs as [|pdf pdfs IH]; intros st H; [exact H|].
  cbn [fold_left]. apply IH, convert_step_keeps, H.
Qed.

Lemma convert_all_counts (skip_existing : bool) (pdfs : list PdfFile)
    (st : dict Document * Counts) :
  let r := fold_left (convert_step skip_existing) pdfs st in
  (successful (snd r) + failed (snd r) + skipped (snd r)
   = successful (snd st) + failed (snd st) + skipped (snd st)
     + List.length pdfs)%nat /\
  (skip_existing = false -> skipped (snd r) = skipped (snd st)).
Proof.
  revert st. induction pdfs as [|pdf pdfs IH]; intro st; cbn [fold_left].
  - cbn [List.length]. split; [lia | reflexivity].
  - destruct (IH (convert_step skip_existing st pdf)) as [I1 I2].
    cbv zeta. split.
    + rewrite I1. destruct st as [out n]. unfold convert_step.
      destruct (skip_existing && mem (stem pdf) out);
        [|destruct (converted pdf)]; cbn [snd successful failed skipped
                                            List.length]; lia.
    + intro F. rewrite (I2 F). subst skip_existing.
      destruct st as [out n]. unfold convert_step. cbn [andb].
      destruct (converted pdf); reflexivity.
Qed.

(** Every PDF of the folder is counted exactly once, as successful,
    failed or skipped; nothing is skipped when existing files are not
    to be skipped; and no JSON file of the output folder is lost. *)
Theorem every_pdf_is_counted_once (skip_existing : bool)
    (folder_out : dict Document) (pdf_files : list PdfFile) :
  let r := batch_convert_with_progress skip_existing folder_out pdf_files in
  (successful (snd r) + failed (snd r) + skipped (snd r)
   = List.length pdf_files)%nat /\
  skipped (snd (batch_convert_with_progress false folder_out pdf_files))
  = 0%nat /\
  forallb (fun k => mem k (fst r)) (keys folder_out) = true.
Proof.
  intro r. subst r. unfold batch_convert_with_progress.
  split; [|split].
  - destruct (convert_all_counts skip_existing pdf_files
                (folder_out, mkCounts 0 0 0)) as [H _].
    cbv zeta in H. rewrite H. reflexivity.
  - destruct (convert_all_counts false pdf_files
                (folder_out, mkCounts 0 0 0)) as [_ H].
    apply H. reflexivity.
  - apply forallb_forall. intros k Hk. apply convert_all_keeps. cbn [fst].
    unfold mem. destruct (get k folder_out) eqn:G; [reflexivity|].
    exfalso. apply (proj1 (get_none_not_in k folder_out) G). exact Hk.
Qed.

Lemma first_run_covers (pdfs : list PdfFile) (st : dict Document * Counts)
    (pdf : PdfFile) :
  In pdf pdfs -> converted pdf <> None ->
  mem (stem pdf) (fst (fold_left (convert_step true) pdfs st)) = true.
Proof.
  revert st. induction pdfs as [|x pdfs IH]; intros st Hin Hc; [destruct Hin|].
  cbn [fold_left]. destruct Hin as [E | Hin]; [|apply IH; assumption].
  subst x. apply convert_all_keeps. destruct st as [out n].
  unfold convert_step. cbn [andb].
  destruct (mem (stem pdf) out) eqn:M; [exact M|].
  destruct (converted pdf); [apply mem_set_same | contradiction Hc; reflexivity].
Qed.

Lemma first_run_bound (pdfs : list PdfFile) (st : dict Document * Counts) :
  let r := fold_left (convert_step true) pdfs st in
  (successful (snd r) + skipped (snd r)
   <= successful (snd st) + skipped (snd st)
      + List.length (filter (fun pdf => mem (stem pdf) (fst r)) pdfs))%nat.
Proof.
  revert st. induction pdfs as [|pdf pdfs IH]; intro st; cbn [fold_left].
  - cbn. lia.
  - specialize (IH (convert_step true st pdf)). cbv zeta in *.
    set (r := fold_left (convert_step true) pdfs (convert_step true st pdf))
      in *.
    cbn [filter].
    assert (K : forall k, mem k (fst (convert_step true st pdf)) = true ->
                          mem k (fst r) = true)
      by (intros k; apply convert_all_keeps).
    destruct st as [out n]. unfold convert_step in IH, K. cbn [andb] in IH, K.
    destruct (mem (stem pdf) out) eqn:M.
    + cbn [fst snd successful skipped] in IH, K.
      rewrite (K _ M). cbn [List.length fst snd]. lia.
    + destruct (converted pdf) as [d|].
      * cbn [fst snd successful skipped] in IH, K.
        rewrite (K _ (mem_set_same _ _ _)). cbn [List.length fst snd]. lia.
      * cbn [fst snd successful skipped] in IH.
        destruct (mem (stem pdf) (fst r)); cbn [List.length fst snd]; lia.
Qed.

Lemma second_run (pdfs : list PdfFile) (out : dict Document) (n : Counts) :
  (forall pdf, In pdf pdfs -> converted pdf <> None ->
     mem (stem pdf) out = true) ->
  fold_left (convert_step true) pdfs (out, n)
  = (out,
     mkCounts (successful n)
       (failed n
        + List.length (filter (fun pdf => negb (mem (stem pdf) out)) pdfs))
       (skipped n
        + List.length (filter (fun pdf => mem (stem pdf) out) pdfs))).
Proof.
  revert n. induction pdfs as [|pdf pdfs IH]; intros n H.
  - cbn. rewrite !Nat.add_0_r. destruct n; reflexivity.
  - cbn [fold_left filter]. unfold convert_step at 2. cbn [andb].
    destruct (mem (stem pdf) out) eqn:M; cbn [negb].
    + rewrite IH by (intros p Hp; apply H; right; exact Hp).
      cbn [successful failed skipped List.length]. do 2 f_equal. lia.
    + destruct (converted pdf) eqn:C.
      * rewrite (H pdf (or_introl eq_refl)) in M; [discriminate M|].
        rewrite C. discriminate.
      * rewrite IH by (intros p Hp; apply H; right; exact Hp).
        cbn [successful failed skipped List.length]. do 2 f_equal. lia.
Qed.

(** Resuming converts nothing twice: a second run over the same PDFs,
    each behaving as before, writes no file and counts none as
    successful; what the first run converted or skipped is skipped, and
    only PDFs that failed are tried again. *)
Theorem resumed_run_skips_converted (folder_out : dict Document)
    (pdf_files : list PdfFile) :
  let r1 := batch_convert_with_progress true folder_out pdf_files in
  let r2 := batch_convert_with_progress true (fst r1) pdf_files in
  fst r2 = fst r1 /\
  successful (snd r2) = 0%nat /\
  (successful (snd r1) + skipped (snd r1) <= skipped (snd r2))%nat /\
  (failed (snd r2) <= failed (snd r1))%nat.
Proof.
  intros r1 r2. subst r1 r2. unfold batch_convert_with_progress.
  set (st0 := (folder_out, mkCounts 0 0 0)).
  pose proof (first_run_bound pdf_files st0) as B. cbv zeta in B.
  pose proof (convert_all_counts true pdf_files st0) as [C1 _].
  cbv zeta in C1.
  set (r1 := fold_left (convert_step true) pdf_files st0) in *.
  rewrite (second_run pdf_files (fst r1) (mkCounts 0 0 0))
    by (intros pdf Hin Hc; apply first_run_covers; assumption).
  pose proof (filter_length (fun pdf => mem (stem pdf) (fst r1)) pdf_files)
    as L.
  cbv beta in L. subst st0.
  cbn [fst snd successful failed skipped] in *.
  repeat split; lia.
Qed.

Lemma single_pdf_counts (skip_existing : bool) (pdf : PdfFile)
    (s : Processor) :
  let a := stats s in
  let b := stats (fst (process_single_pdf skip_existing pdf s)) in
  pdfs_found b = pdfs_found a /\
  (pdfs_processed b + pdfs_skipped b + pdfs_failed b
   = S (pdfs_processed a + pdfs_skipped a + pdfs_failed a))%nat /\
  (projects_with_coords b + projects_missing_coords b + projects_extracted a
   = projects_with_coords a + projects_missing_coords a
     + projects_extracted b)%nat /\
  (projects_extracted b + pdfs_processed a + pdfs_skipped a
   <= projects_extracted a + pdfs_processed b + pdfs_skipped b)%nat /\
  (skip_existing = false -> pdfs_skipped b = pdfs_skipped a).
Proof.
  unfold process_single_pdf, convert_pdf_to_json, extract_project_data.
  destruct skip_existing.
  - destruct (get (stem pdf) (outputs s)) as [existing|].
    + destruct (parse_project_from_json existing) as [p|e].
      * destruct (has_coords p); cbn; repeat split; try lia; discriminate.
      * cbn; repeat split; try lia; discriminate.
    + destruct (converted pdf) as [d|].
      * destruct (parse_project_from_json d) as [p|e].
        -- destruct (has_coords p); cbn; repeat split; try lia; discriminate.
        -- cbn; repeat split; try lia; discriminate.
      * cbn; repeat split; try lia; discriminate.
  - destruct (converted pdf) as [d|].
    + destruct (parse_project_from_json d) as [p|e].
      * destruct (has_coords p); cbn; repeat split; try lia; reflexivity.
      * cbn; repeat split; try lia; reflexivity.
    + cbn; repeat split; try lia; reflexivity.
Qed.

Lemma all_pdfs_counts (skip_existing : bool) (pdfs : list PdfFile)
    (s : Processor) :
  let a := stats s in
  let b := stats (fold_left
                    (fun s pdf => fst (process_single_pdf skip_existing pdf s))
                    pdfs s) in
  pdfs_found b = pdfs_found a /\
  (pdfs_processed b + pdfs_skipped b + pdfs_failed b
   = pdfs_processed a + pdfs_skipped a + pdfs_failed a
     + List.length pdfs)%nat /\
  (projects_with_coords b + projects_missing_coords b + projects_extracted a
   = projects_with_coords a + projects_missing_coords a
     + projects_extracted b)%nat /\
  (projects_extracted b + pdfs_processed a + pdfs_skipped a
   <= projects_extracted a + pdfs_processed b + pdfs_skipped b)%nat /\
  (skip_existing = false -> pdfs_skipped b = pdfs_skipped a).
Proof.
  revert s. induction pdfs as [|pdf pdfs IH]; intro s; cbn [fold_left].
  - cbn [List.length]. repeat split; try lia.
  - specialize (IH (fst (process_single_pdf skip_existing pdf s))).
    pose proof (single_pdf_counts skip_existing pdf s) as H.
    cbv zeta in *. destruct IH as (I1 & I2 & I3 & I4 & I5).
    destruct H as (H1 & H2 & H3 & H4 & H5).
    cbn [List.length]. repeat split; try lia.
    intro F. rewrite (I5 F). exact (H5 F).
Qed.

(** The counters of a fresh processor after all PDFs: every PDF found
    is counted exactly once as processed, skipped or failed; every
    project extracted is counted exactly once as having coordinates or
    missing them; no more projects are extracted than PDFs were
    processed or skipped; and nothing is skipped when existing files
    are not to be skipped. *)
Theorem processor_counters_add_up (skip_existing : bool)
    (pdf_files : list PdfFile) (outputs0 : dict Document)
    (projects0 : dict Project) :
  let st := stats (process_all_pdfs skip_existing pdf_files
                     (new_processor outputs0 projects0)) in
  pdfs_found st = List.length pdf_files /\
  (pdfs_processed st + pdfs_skipped st + pdfs_failed st
   = pdfs_found st)%nat /\
  (projects_with_coords st + projects_missing_coords st
   = projects_extracted st)%nat /\
  (projects_extracted st <= pdfs_processed st + pdfs_skipped st)%nat /\
  pdfs_skipped (stats (process_all_pdfs false pdf_files
                         (new_processor outputs0 projects0))) = 0%nat.
Proof.
  intro st. subst st. unfold process_all_pdfs, new_processor, set_stats.
  cbn [stats outputs projects pdfs_processed pdfs_skipped
       pdfs_failed projects_extracted projects_with_coords
       projects_missing_coords].
  set (s0 := mkProcessor outputs0 projects0
               (mkStats (List.length pdf_files) 0 0 0 0 0 0)).
  pose proof (all_pdfs_counts skip_existing pdf_files s0)
    as (A1 & A2 & A3 & A4 & _).
  pose proof (all_pdfs_counts false pdf_files s0) as (_ & _ & _ & _ & A5).
  specialize (A5 eq_refl).
  cbv zeta in *.
  set (b := stats (fold_left _ pdf_files s0)) in A1, A2, A3, A4 |- *.
  set (c := stats (fold_left _ pdf_files s0)) in A5 |- *.
  subst s0. cbn [stats pdfs_found pdfs_processed pdfs_skipped
    pdfs_failed projects_extracted projects_with_coords
    projects_missing_coords] in A1, A2, A3, A4, A5.
  split; [exact A1|]. split; [lia|]. split; [lia|]. split; [lia|].
  exact A5.
Qed.

End BatchRuns.

(** ** Files of the bucket *)

Section BucketFiles.
Import PyStr Regex Dict Adaptive Extract S3.

Variable cutoff : Q -> Z.

Lemma filter_twice {A : Type} (p q : A -> bool) (l : list A) :
  filter p (filter q l) = filter (fun x => q x && p x) l.
Proof.
  induction l as [|x l IH]; [reflexivity|]. cbn [filter].
  destruct (q x); cbn [filter andb]; [destruct (p x)|]; rewrite IH;
    reflexivity.
Qed.

Lemma filter_true {A : Type} (l : list A) : filter (fun _ => true) l = l.
Proof.
  induction l as [|x l IH]; [reflexivity|]. cbn [filter]. rewrite IH.
  reflexivity.
Qed.

Lemma filter_files_unlimited (file_list : list FileInfo)
    (serial_range : option (Z * Z)) (updated_after : option Z)
    (updated_in_last_hours : option Q)
    (filename_pattern : option (str -> bool)) :
  when filename_pattern (fun p => filter (fun f => p (filename f)))
    (when updated_in_last_hours
       (fun h l => if truthy h
                   then filter (fun f => (cutoff h <? last_modified f)%Z) l
                   else l)
       (when updated_after
          (fun t => filter (fun f => (t <? last_modified f)%Z))
          (when serial_range (fun r => filter (in_serial_range r))
             file_list)))
  = filter (passes cutoff serial_range updated_after updated_in_last_hours
              filename_pattern) file_list.
Proof.
  assert (E1 : when serial_range (fun r => filter (in_serial_range r))
                 file_list
               = filter (fun f => match serial_range with
                                  | Some r => in_serial_range r f
                                  | None => true
                                  end) file_list)
    by (destruct serial_range; cbn [when]; [|rewrite filter_true];
        reflexivity).
  rewrite E1. clear E1.
  assert (E2 : forall l,
             when updated_after
               (fun t => filter (fun f => (t <? last_modified f)%Z)) l
             = filter (fun f => match updated_after with
                                | Some t => (t <? last_modified f)%Z
                                | None => true
                                end) l)
    by (intro l; destruct updated_after; cbn [when]; [|rewrite filter_true];
        reflexivity).
  rewrite E2. clear E2.
  assert (E3 : forall l,
             when updated_in_last_hours
               (fun h l => if truthy h
                           then filter
                                  (fun f => (cutoff h <? last_modified f)%Z) l
                           else l) l
             = filter (fun f => match updated_in_last_hours with
                                | Some h =>
                                    if truthy h
                                    then (cutoff h <? last_modified f)%Z
                                    else true
                                | None => true
                                end) l).
  { intro l. destruct updated_in_last_hours as [h|]; cbn [when];
      [destruct (truthy h)|]; try rewrite filter_true; reflexivity. }
  rewrite E3. clear E3.
  assert (E4 : forall l,
             when filename_pattern (fun p => filter (fun f => p (filename f)))
               l
             = filter (fun f => match filename_pattern with
                                | Some p => p (filename f)
                                | None => true
                                end) l)
    by (intro l; destruct filename_pattern; cbn [when];
        [|rewrite filter_true]; reflexivity).
  rewrite E4. clear E4.
  rewrite !filter_twice. apply filter_ext. intro f. unfold passes.
  rewrite !andb_assoc. reflexivity.
Qed.

Lemma insert_newest_perm (x : FileInfo) (l : list FileInfo) :
  Permutation (insert_newest x l) (x :: l).
Proof.
  induction l as [|y l IH]; cbn [insert_newest]; [apply Permutation_refl|].
  destruct (last_modified y <=? last_modified x)%Z;
    [apply Permutation_refl|].
  apply (Permutation_trans (perm_skip y IH)). apply perm_swap.
Qed.

Lemma sort_newest_perm (l : list FileInfo) : Permutation (sort_newest l) l.
Proof.
  induction l as [|x l IH]; [apply perm_nil|]. cbn [sort_newest fold_right].
  apply (Permutation_trans (insert_newest_perm x _)).
  apply perm_skip. exact IH.
Qed.

Lemma insert_newest_sorted (x : FileInfo) (l : list FileInfo) :
  StronglySorted (fun a b => (last_modified b <= last_modified a)%Z) l ->
  StronglySorted (fun a b => (last_modified b <= last_modified a)%Z)
                 (insert_newest x l).
Proof.
  induction 1 as [|y l Hs IH Hy]; cbn [insert_newest].
  - constructor; constructor.
  - destruct (last_modified y <=? last_modified x)%Z eqn:E.
    + apply Z.leb_le in E. constructor.
      * constructor; assumption.
      * constructor; [exact E|].
        eapply Forall_impl; [|exact Hy]. cbv beta. intros a Ha. lia.
    + apply Z.leb_gt in E. constructor; [exact IH|].
      apply (Permutation_Forall (Permutation_sym (insert_newest_perm x l))).
      constructor; [lia | exact Hy].
Qed.

Lemma sort_newest_sorted (l : list FileInfo) :
  StronglySorted (fun a b => (last_modified b <= last_modified a)%Z)
                 (sort_newest l).
Proof.
  induction l as [|x l IH]; [constructor|].
  cbn [sort_newest fold_right]. apply insert_newest_sorted. exact IH.
Qed.

Lemma sorted_app_newer (a b : list FileInfo) :
  StronglySorted (fun f g => (last_modified g <= last_modified f)%Z)
                 (a ++ b) ->
  Forall (not_newer_than_all a) b.
Proof.
  unfold not_newer_than_all.
  induction a as [|x a IH]; cbn [app]; intro H.
  - apply Forall_forall. intros g _. constructor.
  - inversion H as [|y l Hs Hx]; subst.
    specialize (IH Hs). apply Forall_app in Hx. destruct Hx as [_ Hx].
    rewrite Forall_forall in *. intros g Hg.
    constructor; [apply Hx; exact Hg | apply IH; exact Hg].
Qed.

(** [filter_files] without a limit returns, in the order of the list,
    the files that pass every criterion given; a limit of 0 is no
    limit.  With a limit of [n > 0] files it returns [n] of those files,
    or all of them when there are fewer, and none of the files left out
    was modified later than a file returned. *)
Theorem filter_files_keeps_newest (file_list : list FileInfo)
    (serial_range : option (Z * Z)) (updated_after : option Z)
    (updated_in_last_hours : option Q)
    (filename_pattern : option (str -> bool)) (n : Z) :
  let all := filter (passes cutoff serial_range updated_after
                       updated_in_last_hours filename_pattern) file_list in
  filter_files cutoff file_list serial_range updated_after
    updated_in_last_hours None filename_pattern = all /\
  filter_files cutoff file_list serial_range updated_after
    updated_in_last_hours (Some 0%Z) filename_pattern = all /\
  ((0 < n)%Z ->
   let kept := filter_files cutoff file_list serial_range updated_after
                 updated_in_last_hours (Some n) filename_pattern in
   exists dropped,
     Permutation (kept ++ dropped) all /\
     List.length kept = Nat.min (Z.to_nat n) (List.length all) /\
     Forall (not_newer_than_all kept) dropped).
Proof.
  intro all. subst all. unfold filter_files.
  pose proof (filter_files_unlimited file_list serial_range updated_after
                updated_in_last_hours filename_pattern) as U.
  destruct file_list as [|f0 fl].
  - cbn [is_nil filter]. split; [reflexivity|]. split; [reflexivity|].
    intros _. exists []. split; [constructor|].
    split; [rewrite Nat.min_0_r; reflexivity | constructor].
  - cbn [is_nil]. cbv zeta. rewrite U.
    set (all := filter _ (f0 :: fl)).
    split; [reflexivity|]. split; [reflexivity|].
    intro Hn. cbn [when].
    replace (n =? 0)%Z with false by (symmetry; apply Z.eqb_neq; lia).
    unfold slice_to.
    replace (0 <=? n)%Z with true by (symmetry; apply Z.leb_le; lia).
    exists (skipn (Z.to_nat n) (sort_newest all)).
    split; [rewrite firstn_skipn; apply sort_newest_perm|].
    split.
    + rewrite length_firstn.
      rewrite (Permutation_length (sort_newest_perm all)). reflexivity.
    + apply sorted_app_newer. rewrite firstn_skipn.
      apply sort_newest_sorted.
Qed.

Lemma bucket_step_counts (skip_existing : bool) (f : S3Pdf) (b : Bucket) :
  let a := stats b in
  let c := stats (fst (process_single_pdf skip_existing f b)) in
  (pdfs_processed c + pdfs_skipped c + pdfs_failed c
   = S (pdfs_processed a + pdfs_skipped a + pdfs_failed a))%nat /\
  (projects_extracted a + pdfs_processed c
   <= projects_extracted c + pdfs_processed a)%nat /\
  (projects_extracted c + pdfs_processed a + pdfs_failed a
   <= projects_extracted a + pdfs_processed c + pdfs_failed c)%nat /\
  (projects_with_coords c + projects_missing_coords c + projects_extracted a
   = projects_with_coords a + projects_missing_coords a
     + projects_extracted c)%nat /\
  (skip_existing = false -> pdfs_skipped c = pdfs_skipped a) /\
  (project_uploads f <> Broken ->
   (projects_extracted c + pdfs_processed a
    = projects_extracted a + pdfs_processed c)%nat).
Proof.
  unfold process_single_pdf.
  destruct skip_existing; cbn [andb].
  - destruct (mem (stem f) (json_files b)).
    + cbn. repeat split; try lia; try discriminate.
    + destruct (downloads f); cbn [negb];
        [|cbn; repeat split; try lia; try discriminate].
      destruct (converted f) as [d|];
        [|cbn; repeat split; try lia; try discriminate].
      destruct (uploads f); cbn [negb];
        [|cbn; repeat split; try lia; try discriminate].
      destruct (parse_project_from_json d) as [p|e];
        [destruct (has_coords p); destruct (project_uploads f)|];
        cbn; repeat split; try lia; try discriminate;
        intro N; contradiction N; reflexivity.
  - destruct (downloads f); cbn [negb];
      [|cbn; repeat split; try lia; try reflexivity].
    destruct (converted f) as [d|];
      [|cbn; repeat split; try lia; try reflexivity].
    destruct (uploads f); cbn [negb];
      [|cbn; repeat split; try lia; try reflexivity].
    destruct (parse_project_from_json d) as [p|e];
      [destruct (has_coords p); destruct (project_uploads f)|];
      cbn; repeat split; try lia; try reflexivity;
      intro N; contradiction N; reflexivity.
Qed.

Lemma bucket_counts (skip_existing : bool) (files : list S3Pdf) (b : Bucket) :
  let a := stats b in
  let c := stats (process_filtered_files skip_existing files b) in
  (pdfs_processed c + pdfs_skipped c + pdfs_failed c
   = pdfs_processed a + pdfs_skipped a + pdfs_failed a
     + List.length files)%nat /\
  (projects_extracted a + pdfs_processed c
   <= projects_extracted c + pdfs_processed a)%nat /\
  (projects_extracted c + pdfs_processed a + pdfs_failed a
   <= projects_extracted a + pdfs_processed c + pdfs_failed c)%nat /\
  (projects_with_coords c + projects_missing_coords c + projects_extracted a
   = projects_with_coords a + projects_missing_coords a
     + projects_extracted c)%nat /\
  (skip_existing = false -> pdfs_skipped c = pdfs_skipped a) /\
  (Forall (fun f => project_uploads f <> Broken) files ->
   (projects_extracted c + pdfs_processed a
    = projects_extracted a + pdfs_processed c)%nat).
Proof.
  unfold process_filtered_files.
  revert b. induction files as [|f files IH]; intro b; cbn [fold_left].
  - cbn [List.length]. repeat split; try lia.
  - specialize (IH (fst (process_single_pdf skip_existing f b))).
    pose proof (bucket_step_counts skip_existing f b) as H.
    cbv zeta in *. destruct IH as (I1 & I2 & I3 & I4 & I5 & I6).
    destruct H as (H1 & H2 & H3 & H4 & H5 & H6).
    cbn [List.length]. repeat split; try lia.
    + intro F. rewrite (I5 F). exact (H5 F).
    + intro F. inversion F as [|x l Fx Fl]; subst.
      specialize (I6 Fl). specialize (H6 Fx). lia.
Qed.

(** The counters of the S3 processor, started at 0: every file is
    counted exactly once as processed, skipped or failed; every project
    extracted is counted exactly once as with or as missing
    coordinates; a project is extracted for every file counted as
    processed, and besides only for files counted as failed, those
    whose project upload raised; and nothing is skipped when existing
    files are not to be skipped.  When no project upload raises, the
    projects extracted are as many as the files processed. *)
Theorem bucket_counters_add_up (skip_existing : bool)
    (filtered_files : list S3Pdf) (json0 : dict Document)
    (projects0 : dict Project) :
  let st := stats (process_filtered_files skip_existing filtered_files
                     (fresh json0 projects0)) in
  (pdfs_processed st + pdfs_skipped st + pdfs_failed st
   = List.length filtered_files)%nat /\
  (pdfs_processed st <= projects_extracted st)%nat /\
  (projects_extracted st <= pdfs_processed st + pdfs_failed st)%nat /\
  (projects_with_coords st + projects_missing_coords st
   = projects_extracted st)%nat /\
  pdfs_skipped (stats (process_filtered_files false filtered_files
                         (fresh json0 projects0))) = 0%nat /\
  (Forall (fun f => project_uploads f <> Broken) filtered_files ->
   projects_extracted st = pdfs_processed st).
Proof.
  intro st. subst st.
  pose proof (bucket_counts skip_existing filtered_files
                (fresh json0 projects0)) as (A1 & A2 & A3 & A4 & _ & A6).
  pose proof (bucket_counts false filtered_files (fresh json0 projects0))
    as (_ & _ & _ & _ & A5 & _).
  specialize (A5 eq_refl). cbv zeta in *.
  change (stats (fresh json0 projects0)) with (mkStats 0 0 0 0 0 0)
    in A1, A2, A3, A4, A5, A6.
  set (c := stats (process_filtered_files skip_existing _ _)) in *.
  cbn [pdfs_processed pdfs_skipped pdfs_failed projects_extracted
       projects_with_coords projects_missing_coords] in A1, A2, A3, A4, A5, A6.
  split; [lia|]. split; [lia|]. split; [lia|]. split; [lia|].
  split; [exact A5|]. intro F. specialize (A6 F). lia.
Qed.

(** A PDF whose JSON is uploaded but whose project extraction raises
    is counted as failed, and is not tried again: the next run finds
    the JSON, skips the PDF and reports success, so the PDF never gets
    a project file. *)
Theorem failed_extraction_is_not_retried (f : S3Pdf) (b : Bucket)
    (json_data : Document) (e : exn) :
  mem (stem f) (json_files b) = false ->
  downloads f = true -> converted f = Some json_data -> uploads f = true ->
  parse_project_from_json json_data = Raise e ->
  let r1 := process_single_pdf true f b in
  let r2 := process_single_pdf true f (fst r1) in
  snd r1 = false /\
  pdfs_failed (stats (fst r1)) = S (pdfs_failed (stats b)) /\
  get (stem f) (json_files (fst r1)) = Some json_data /\
  snd r2 = true /\
  pdfs_skipped (stats (fst r2)) = S (pdfs_skipped (stats b)) /\
  projects_extracted (stats (fst r2)) = projects_extracted (stats b) /\
  project_files (fst r2) = project_files b.
Proof.
  intros M D C U P r1 r2.
  assert (E1 : r1 = (failed_one
                       (mkBucket (set (stem f) json_data (json_files b))
                          (project_files b) (stats b)), false)).
  { subst r1. unfold process_single_pdf. rewrite M, D, C, U, P. reflexivity. }
  assert (E2 : r2 = (mkBucket (json_files (fst r1)) (project_files (fst r1))
                       (mkStats (pdfs_processed (stats (fst r1)))
                          (S (pdfs_skipped (stats (fst r1))))
                          (pdfs_failed (stats (fst r1)))
                          (projects_extracted (stats (fst r1)))
                          (projects_with_coords (stats (fst r1)))
                          (projects_missing_coords (stats (fst r1)))), true)).
  { subst r2. unfold process_single_pdf at 1. rewrite E1.
    cbn [fst failed_one json_files andb].
    unfold mem. rewrite get_set_same. reflexivity. }
  rewrite E2, E1. cbn. rewrite get_set_same. repeat split; reflexivity.
Qed.

End BucketFiles.


Section BucketExamples.
Import PyStr Regex Dict Adaptive Extract S3.

Lemma filter_files_keeps_newest_witness :
  let old := mkFileInfo (lit "pdfs/a.pdf") (lit "a.pdf") 100 10 None in
  let new := mkFileInfo (lit "pdfs/b.pdf") (lit "b.pdf") 100 30 (Some 7%Z) in
  let mid := mkFileInfo (lit "pdfs/c.pdf") (lit "c.pdf") 100 20 None in
  (0 < 2)%Z /\
  filter_files (fun _ => 0%Z) [old; new; mid] None None None (Some 2%Z) None
  = [new; mid] /\
  exists dropped,
    Permutation ([new; mid] ++ dropped) [old; new; mid] /\
    Forall (not_newer_than_all [new; mid]) dropped.
Proof.
  intros old new mid. split; [lia|]. split; [reflexivity|].
  destruct (proj2 (proj2 (filter_files_keeps_newest (fun _ => 0%Z)
                            [old; new; mid] None None None None 2))
              ltac:(lia)) as (dropped & P & _ & F).
  exists dropped. split; [exact P | exact F].
Defined.

Lemma failed_extraction_is_not_retried_witness :
  let grid := [Spec.cells ["Plot No."%string; "North Schedule"%string;
                           "Plot Area"%string];
               Spec.cells ["1"%string; "Road"%string; "10"%string];
               Spec.cells ["2"%string; "Park"%string; "1.2.3"%string]] in
  let t := mkTable 1 0 true (table_data grid) 2 in
  let d := build_json_structure (lit "a.pdf") [] [] [t] false in
  let f := mkS3Pdf (lit "a") true (Some d) true Stored in
  let r1 := process_single_pdf true f (fresh [] []) in
  snd r1 = false /\ snd (process_single_pdf true f (fst r1)) = true.
Proof.
  intros grid t d f r1.
  destruct (failed_extraction_is_not_retried f (fresh [] []) d ValueError)
    as (H1 & _ & _ & H4 & _);
    [reflexivity | reflexivity | reflexivity | reflexivity
    | vm_compute; reflexivity | ].
  split; [exact H1 | exact H4].
Defined.

(** A project upload that raises leaves a project counted for a PDF
    that is counted as failed. *)
Lemma bucket_counters_add_up_witness :
  let d := build_json_structure (lit "a.pdf") [] [] [] false in
  let ok := mkS3Pdf (lit "a") true (Some d) true Stored in
  let broken := mkS3Pdf (lit "b") true (Some d) true Broken in
  projects_extracted
    (stats (process_filtered_files true [ok; ok] (fresh [] [])))
  = pdfs_processed
      (stats (process_filtered_files true [ok; ok] (fresh [] []))) /\
  (let st := stats (process_filtered_files true [ok; broken] (fresh [] [])) in
   (pdfs_processed st, pdfs_failed st, projects_extracted st)
   = (1, 1, 2)%nat).
Proof.
  intros d ok broken. split; [|reflexivity].
  apply (proj2 (proj2 (proj2 (proj2 (proj2
           (bucket_counters_add_up true [ok; ok] [] [])))))).
  repeat constructor; discriminate.
Defined.

End BucketExamples.


(** ** Serial numbers of file names *)

Section SerialNumbers.
Import PyStr Regex Dict Adaptive Extract Facts S3.

Lemma run_bol_eq (R : Type) (ml : bool) (fuel : nat) (prev : option ascii)
    (s : str) (cs : caps) (k : option ascii -> str -> caps -> option R) :
  run (Bol ml) fuel prev s cs k
  = if at_bol ml prev then k prev s cs else None.
Proof. reflexivity. Qed.

Lemma no_digit_skipn (n : nat) (s : str) :
  existsb is_digit s = false -> existsb is_digit (skipn n s) = false.
Proof.
  revert s. induction n as [|n IH]; intros s H; [exact H|].
  destruct s as [|c s]; [reflexivity|]. cbn [skipn]. apply IH.
  cbn [existsb] in H. apply orb_false_elim in H. exact (proj2 H).
Qed.

Lemma prefix_digit_none (ps : list (ascii -> bool)) (s : str) :
  existsb is_digit s = false -> prefix_ok (is_digit :: ps) s = false.
Proof.
  destruct s as [|c s]; [reflexivity|]. cbn [existsb prefix_ok]. intro H.
  apply orb_false_elim in H. rewrite (proj1 H). reflexivity.
Qed.

Lemma run_plus_digit_none (R : Type) (i fuel : nat) (prev : option ascii)
    (s : str) (cs : caps) (k : option ascii -> str -> caps -> option R) :
  existsb is_digit s = false ->
  run (Grp i (Plus Digit)) fuel prev s cs k = None.
Proof.
  intro H. unfold Plus, Digit. rewrite run_grp_eq, run_cat_eq, run_cls_eq.
  destruct s as [|c s]; [reflexivity|]. cbn [existsb] in H.
  apply orb_false_elim in H. rewrite (proj1 H). reflexivity.
Qed.

Lemma star_no_digit (R : Type) (lazy : bool) (q : ascii -> bool)
    (k : option ascii -> str -> caps -> option R) :
  (forall prev s cs, existsb is_digit s = false -> k prev s cs = None) ->
  forall fuel prev s cs,
    existsb is_digit s = false ->
    run (Star lazy (Cls q)) fuel prev s cs k = None.
Proof.
  intros Hk fuel. induction fuel as [|n IH]; intros prev s cs H;
    rewrite run_star_eq; cbv beta iota zeta.
  - rewrite (Hk prev s cs H). destruct lazy; reflexivity.
  - rewrite (Hk prev s cs H), run_cls_eq.
    assert (M : match s with
                | [] => None
                | c :: s' =>
                    if q c
                    then if List.length s' <? List.length s
                         then run (Star lazy (Cls q)) n (Some c) s' cs k
                         else None
                    else None
                end = None).
    { destruct s as [|c s']; [reflexivity|].
      cbn [existsb] in H. apply orb_false_elim in H.
      rewrite (IH (Some c) s' cs (proj2 H)).
      destruct (q c); [destruct (_ <? _)|]; reflexivity. }
    rewrite M. destruct lazy; reflexivity.
Qed.

Lemma search_from_none (P : str -> Prop) (r : regex) :
  (forall c t, P (c :: t) -> P t) ->
  (forall prev t, P t -> run_at r prev t = None) ->
  forall s prev, P s -> search_from r prev s = None.
Proof.
  intros Htl Hr. induction s as [|c s IH]; intros prev H;
    cbn [search_from]; rewrite (Hr prev _ H); [reflexivity|].
  apply IH. exact (Htl c s H).
Qed.

Lemma no_digit_tail (c : ascii) (t : str) :
  existsb is_digit (c :: t) = false -> existsb is_digit t = false.
Proof. cbn [existsb]. intro H. apply orb_false_elim in H. exact (proj2 H). Qed.

Lemma sno_prefix (prev : option ascii) (s : str) :
  run_at sno_re prev s
  = if prefix_ok [fun d => chr_eqb (lower_chr d) (lower_chr "s"%char);
                  fun d => chr_eqb (lower_chr d) (lower_chr "n"%char);
                  fun d => chr_eqb (lower_chr d) (lower_chr "o"%char)] s
    then run_at sno_re prev s
    else None.
Proof.
  destruct (prefix_ok _ s) eqn:E; [reflexivity|].
  unfold run_at, sno_re. rewrite run_cat_eq.
  change (LitI (lit "sno"))
    with (Seq [fun d => chr_eqb (lower_chr d) (lower_chr "s"%char);
               fun d => chr_eqb (lower_chr d) (lower_chr "n"%char);
               fun d => chr_eqb (lower_chr d) (lower_chr "o"%char)]).
  rewrite run_seq, E. reflexivity.
Qed.

Lemma sno_needs_digit (prev : option ascii) (s : str) :
  existsb is_digit s = false -> run_at sno_re prev s = None.
Proof.
  intro H. unfold run_at, sno_re. rewrite run_cat_eq.
  change (LitI (lit "sno"))
    with (Seq [fun d => chr_eqb (lower_chr d) (lower_chr "s"%char);
               fun d => chr_eqb (lower_chr d) (lower_chr "n"%char);
               fun d => chr_eqb (lower_chr d) (lower_chr "o"%char)]).
  rewrite run_seq. destruct (prefix_ok _ s); [|reflexivity].
  rewrite run_cat_eq. apply star_no_digit.
  - intros prev' s' cs' H'. apply run_plus_digit_none. exact H'.
  - apply no_digit_skipn. exact H.
Qed.

Lemma chr_eqb_sym (a b : ascii) : chr_eqb a b = chr_eqb b a.
Proof.
  unfold chr_eqb. destruct (Ascii.eqb a b) eqn:E.
  - apply Ascii.eqb_eq in E. subst b. symmetry. apply Ascii.eqb_refl.
  - destruct (Ascii.eqb b a) eqn:E'; [|reflexivity].
    apply Ascii.eqb_eq in E'. subst b. rewrite Ascii.eqb_refl in E.
    discriminate E.
Qed.

Lemma sno_prefix_lower (s : str) :
  prefix_ok [fun d => chr_eqb (lower_chr d) (lower_chr "s"%char);
             fun d => chr_eqb (lower_chr d) (lower_chr "n"%char);
             fun d => chr_eqb (lower_chr d) (lower_chr "o"%char)] s
  = startswith (lit "sno") (lower s).
Proof.
  change (lit "sno") with ["s"; "n"; "o"]%char.
  destruct s as [|a [|b [|c s]]]; cbn [prefix_ok lower map startswith];
    rewrite ?(chr_eqb_sym "s"%char), ?(chr_eqb_sym "n"%char),
            ?(chr_eqb_sym "o"%char);
    reflexivity.
Qed.

Lemma sno_needs_marker (prev : option ascii) (s : str) :
  contains (lit "sno") (lower s) = false -> run_at sno_re prev s = None.
Proof.
  intro H. rewrite sno_prefix, sno_prefix_lower.
  destruct s as [|c s]; cbn [lower map contains] in H.
  - apply orb_false_elim in H. cbn [lower map]. rewrite (proj1 H).
    reflexivity.
  - apply orb_false_elim in H. cbn [lower map]. rewrite (proj1 H).
    reflexivity.
Qed.

Lemma leading_at (prev : option ascii) (s : str) :
  run_at leading_re prev s
  = if at_bol false prev then run_at (Grp 1 (Plus (Cls is_digit))) prev s
    else None.
Proof. unfold run_at, leading_re. rewrite run_cat_eq, run_bol_eq. reflexivity. Qed.

Lemma leading_needs_digit (prev : option ascii) (s : str) :
  existsb is_digit s = false -> run_at leading_re prev s = None.
Proof.
  intro H. rewrite leading_at. destruct (at_bol false prev); [|reflexivity].
  apply (run_plus_digit_none _ 1). exact H.
Qed.

Lemma long_needs_digit (prev : option ascii) (s : str) :
  existsb is_digit s = false -> run_at long_re prev s = None.
Proof.
  intro H. unfold run_at, long_re. rewrite run_cat_eq.
  change (Lit (lit "_")) with (Seq [chr_eqb "_"%char]).
  rewrite run_seq. destruct (prefix_ok _ s); [|reflexivity].
  rewrite run_grp_eq, run_cat_eq.
  change (Times 3 Digit) with (Seq [is_digit; is_digit; is_digit]).
  rewrite run_seq, prefix_digit_none; [reflexivity|].
  apply no_digit_skipn. exact H.
Qed.

(** A serial number is never negative; a file name without a digit has
    none; and a file name that starts with a digit and holds no [sno],
    in whatever case, has the number made of its leading digits. *)
Theorem serial_number_rules (filename : str) :
  (forall n, _extract_serial_number filename = Some n -> (0 <= n)%Z) /\
  (existsb is_digit filename = false ->
   _extract_serial_number filename = None) /\
  (contains (lit "sno") (lower filename) = false ->
   existsb is_digit (firstn 1 filename) = true ->
   _extract_serial_number filename
   = Some (int_of (take_while is_digit filename))).
Proof.
  split; [|split].
  - intros n. unfold _extract_serial_number.
    destruct (search sno_re filename) as [m|];
      [intro H; injection H as H; rewrite <- H; apply int_of_nonneg|].
    destruct (search leading_re filename) as [m|];
      [intro H; injection H as H; rewrite <- H; apply int_of_nonneg|].
    destruct (search long_re filename) as [m|]; [|discriminate].
    intro H. injection H as H. rewrite <- H. apply int_of_nonneg.
  - intro H. unfold _extract_serial_number, search.
    rewrite (search_from_none (fun t => existsb is_digit t = false) sno_re
               no_digit_tail sno_needs_digit filename None H).
    rewrite (search_from_none (fun t => existsb is_digit t = false)
               leading_re no_digit_tail leading_needs_digit filename None H).
    rewrite (search_from_none (fun t => existsb is_digit t = false) long_re
               no_digit_tail long_needs_digit filename None H).
    reflexivity.
  - intros Hs Hd. unfold _extract_serial_number, search.
    rewrite (search_from_none
               (fun t => contains (lit "sno") (lower t) = false) sno_re)
      with (s := filename) (prev := @None ascii); [| | |exact Hs].
    + cbn [option_map]. destruct filename as [|c rest]; [discriminate Hd|].
      cbn [firstn existsb] in Hd. rewrite orb_false_r in Hd.
      cbn [search_from]. rewrite leading_at. cbn [at_bol].
      rewrite run_at_plus, Hd.
      cbn [option_map fst group m_caps lookup_cap Nat.eqb take_while].
      rewrite Hd. reflexivity.
    + intros c t H. cbn [lower map contains] in H.
      apply orb_false_elim in H. exact (proj2 H).
    + intros prev t H. apply sno_needs_marker. exact H.
Qed.

Lemma serial_number_rules_witness :
  _extract_serial_number (lit "1250_301_PR_010422.pdf") = Some 1250%Z /\
  _extract_serial_number (lit "layout-plan.pdf") = None.
Proof.
  split.
  - apply (proj2 (proj2 (serial_number_rules
                           (lit "1250_301_PR_010422.pdf"))));
      reflexivity.
  - apply (proj1 (proj2 (serial_number_rules (lit "layout-plan.pdf")))).
    reflexivity.
Defined.

End SerialNumbers.
